(** * The AMSS orchestration core of victor-core, embedded in Rocq

    The development follows the TypeScript sources
    - [lib/realtime-optimizer.ts]  (classes [RealTimeOptimizer], [RefinementEngine]),
    - [lib/socket.ts]              (class [StyleTransferEngine]),
    - [lib/amss-engine.ts]         (class [AMSSEngine]),
    - the semantic analysis module (class [SemanticAnalyzer]).

    Conventions of the embedding.
    - A JavaScript [number] is an exact rational ([Q]): comparisons and
      arithmetic are the mathematical ones, rounding, [NaN] and the
      infinities are outside the model.  Statements are made for the inputs
      on which the doubles of the engine differ from the exact numbers by
      rounding only; where the two part, the engine's own numbers are used
      (module [Doubles]).  Counters and bounds that the code
      uses as loop limits or slice lengths are natural numbers.
    - Everything a method reads from the outside world (the replies of the
      inference backend, [Math.random], [Date.now]) is an explicit argument.
    - A [Map] is an association list kept in insertion order ([AMap]). *)

From Stdlib Require Import QArith Qabs Lqa ZArith List String Ascii Bool Lia.
From Stdlib Require Import DecimalString DecimalNat Permutation Sorted.
From Stdlib Require Import Floats.
Import ListNotations.

Open Scope string_scope.
Open Scope list_scope.
Open Scope Q_scope.

(** ** JavaScript numbers and operators *)

Module JS.

Definition number := Q.

(** [x < y] *)
Definition ltb (x y : number) : bool := negb (Qle_bool y x).

(** [x > y] *)
Definition gtb (x y : number) : bool := ltb y x.

(** [x >= y] *)
Definition geb (x y : number) : bool := Qle_bool y x.

(** [x || d] for a numeric property that may be absent: [undefined] and
    [0] are falsy. *)
Definition or_default (x : option number) (d : number) : number :=
  match x with
  | Some v => if Qeq_bool v 0 then d else v
  | None => d
  end.

(** [Math.min] *)
Definition min (x y : number) : number := if ltb y x then y else x.

End JS.

(** ** Insertion-ordered maps with string keys ([Map<string, V>]) *)

Module AMap.

Section Def.
Context {V : Type}.

Definition t := list (string * V).

Definition empty : t := [].

(** [m.set(k, v)]: an existing key keeps its position. *)
Fixpoint set (k : string) (v : V) (m : t) : t :=
  match m with
  | [] => [(k, v)]
  | (k', v') :: m' =>
      if String.eqb k' k then (k, v) :: m' else (k', v') :: set k v m'
  end.

(** [m.get(k)] *)
Fixpoint get (k : string) (m : t) : option V :=
  match m with
  | [] => None
  | (k', v') :: m' => if String.eqb k' k then Some v' else get k m'
  end.

(** [m.has(k)] *)
Definition has (k : string) (m : t) : bool :=
  match get k m with Some _ => true | None => false end.

Definition keys (m : t) : list string := List.map fst m.

Definition values (m : t) : list V := List.map snd m.

Definition size (m : t) : nat := List.length m.

(** An object literal, or a sequence of [set] calls. *)
Definition of_entries (l : list (string * V)) : t :=
  fold_left (fun m kv => set (fst kv) (snd kv) m) l empty.

End Def.

Arguments t : clear implicits.

End AMap.

(** ** [Array.prototype.sort] and [Array.prototype.slice] *)

Module JSArray.

Section Sort.
Context {A : Type}.

(** [precedes a b] holds when the comparison function gives
    [compareFn(a, b) <= 0]: [a] may stay in front of [b]. *)
Variable precedes : A -> A -> bool.

(** Insertion of an element that came before all of [l] in the array. *)
Fixpoint insert (x : A) (l : list A) : list A :=
  match l with
  | [] => [x]
  | y :: l' => if precedes x y then x :: y :: l' else y :: insert x l'
  end.

(** [arr.sort(compareFn)]: the sort is stable (ECMAScript 2019). *)
Definition sort (l : list A) : list A := fold_right insert [] l.

End Sort.

(** [arr.slice(0, n)] *)
Definition slice0 {A : Type} (n : nat) (l : list A) : list A := firstn n l.

(** [arr.slice(-n)] *)
Definition slice_last {A : Type} (n : nat) (l : list A) : list A :=
  skipn (List.length l - n) l.

End JSArray.

(** ** [RealTimeOptimizer] (lib/realtime-optimizer.ts) *)

Module Optimizer.

Record PerformanceMetrics := {
  processingSpeed : Q;
  memoryUsage : Q;
  responseTime : Q;
  throughput : Q;
  perf_scalability : Q
}.

Record QualityMetrics := {
  accuracy : Q;
  consistency : Q;
  robustness : Q;
  fidelity : Q;
  innovation : Q
}.

Record EfficiencyMetrics := {
  resourceUtilization : Q;
  energyEfficiency : Q;
  costEffectiveness : Q;
  timeEfficiency : Q;
  eff_scalability : Q
}.

Record UserSatisfactionMetrics := {
  engagement : Q;
  retention : Q;
  satisfaction : Q;
  feedbackScore : Q;
  recommendation : Q
}.

Record OptimizationMetrics := {
  performance : PerformanceMetrics;
  quality : QualityMetrics;
  efficiency : EfficiencyMetrics;
  userSatisfaction : UserSatisfactionMetrics
}.

Inductive Trend := improving | declining | stable.

Inductive Severity := Low | Medium | High | Critical.

Record FeedbackTrigger := {
  metric : string;
  threshold : Q;
  currentValue : Q;
  trend : Trend;
  severity : Severity
}.

Inductive ActionType :=
| parameter_adjustment
| model_switch
| technique_change
| resource_allocation
| algorithm_tuning.

Inductive ParamValue := PBool (b : bool) | PStr (s : string).

Record OptimizationAction := {
  action_type : ActionType;
  parameters : list (string * ParamValue);
  priority : Z;
  estimatedImpact : Q
}.

Record OptimizationResult := {
  success : bool;
  improvement : Q;
  newMetrics : option OptimizationMetrics;
  sideEffects : list string;
  processingTime : Z
}.

(** [type] is the category name handed over by
    [identifyOptimizationOpportunities] (a string at run time). *)
Record FeedbackLoop := {
  id : string;
  type : string;
  trigger : FeedbackTrigger;
  action : OptimizationAction;
  result : OptimizationResult;
  timestamp : Z;
  iteration : nat
}.

Record OptimizationConfig := {
  enableRealTimeOptimization : bool;
  feedbackInterval : Z;
  optimizationThreshold : Q;
  maxOptimizationsPerCycle : nat;
  adaptiveLearning : bool;
  predictionEnabled : bool
}.

Record PredictionModel := {
  lastUpdated : Z;
  pm_accuracy : Q
}.

(** The object state, with the number of [setInterval] timers the object
    has registered and never cleared. *)
Record RealTimeOptimizer := {
  feedbackLoops : AMap.t FeedbackLoop;
  optimizationHistory : list OptimizationResult;
  metricsHistory : list OptimizationMetrics;
  predictionModel : option PredictionModel;
  isOptimizing : bool;
  config : OptimizationConfig;
  intervals : nat
}.

(** The constructor with an empty partial configuration. *)
Definition defaultConfig : OptimizationConfig := {|
  enableRealTimeOptimization := true;
  feedbackInterval := 5000;
  optimizationThreshold := 0.1;
  maxOptimizationsPerCycle := 3;
  adaptiveLearning := true;
  predictionEnabled := true
|}.

Definition new (cfg : OptimizationConfig) : RealTimeOptimizer := {|
  feedbackLoops := AMap.empty;
  optimizationHistory := [];
  metricsHistory := [];
  predictionModel := None;
  isOptimizing := false;
  config := cfg;
  intervals := 0
|}.

(** *** Thresholds *)

Record Thresholds := { critical : Q; low : Q; medium : Q }.

Definition mkT (c l m : Q) : Thresholds :=
  {| critical := c; low := l; medium := m |}.

Definition thresholds : AMap.t Thresholds := AMap.of_entries [
  ("processingSpeed", mkT 0.3 0.5 0.7);
  ("memoryUsage", mkT 0.8 0.6 0.4);
  ("responseTime", mkT 0.3 0.5 0.7);
  ("throughput", mkT 0.4 0.6 0.8);
  ("scalability", mkT 0.4 0.6 0.7);
  ("accuracy", mkT 0.5 0.7 0.8);
  ("consistency", mkT 0.6 0.75 0.85);
  ("robustness", mkT 0.5 0.65 0.75);
  ("fidelity", mkT 0.6 0.75 0.8);
  ("innovation", mkT 0.4 0.6 0.7);
  ("resourceUtilization", mkT 0.8 0.6 0.4);
  ("energyEfficiency", mkT 0.4 0.6 0.7);
  ("costEffectiveness", mkT 0.5 0.65 0.8);
  ("timeEfficiency", mkT 0.4 0.6 0.75);
  ("scalability", mkT 0.4 0.6 0.7);
  ("engagement", mkT 0.4 0.6 0.7);
  ("retention", mkT 0.5 0.65 0.8);
  ("satisfaction", mkT 0.5 0.65 0.75);
  ("feedbackScore", mkT 0.4 0.6 0.7);
  ("recommendation", mkT 0.5 0.65 0.8)
].

(** [thresholds[metricName] || default], for a [metricName] that is a key
    of the table or no property of the table at all (for the name of a
    member inherited from [Object.prototype] the lookup finds that
    member). *)
Definition getThresholds (metricName : string) : Thresholds :=
  match AMap.get metricName thresholds with
  | Some t => t
  | None => mkT 0.3 0.5 0.7
  end.

(** *** Actions *)

Definition mkAction (t : ActionType) (ps : list (string * ParamValue))
  (p : Z) (e : Q) : OptimizationAction :=
  {| action_type := t; parameters := ps; priority := p; estimatedImpact := e |}.

Definition actions : AMap.t OptimizationAction := AMap.of_entries [
  ("processingSpeed",
    mkAction parameter_adjustment
      [("boostProcessing", PBool true); ("priorityLevel", PStr "high")] 9 0.3);
  ("memoryUsage",
    mkAction resource_allocation
      [("optimizeMemory", PBool true); ("cleanupEnabled", PBool true)] 8 0.25);
  ("responseTime",
    mkAction algorithm_tuning
      [("optimizeAlgorithm", PBool true); ("cacheEnabled", PBool true)] 8 0.2);
  ("accuracy",
    mkAction model_switch
      [("useAdvancedModel", PBool true); ("ensembleEnabled", PBool true)] 9 0.35);
  ("consistency",
    mkAction technique_change
      [("consistencyCheck", PBool true); ("validationEnabled", PBool true)] 7 0.2);
  ("innovation",
    mkAction algorithm_tuning
      [("creativeMode", PBool true); ("explorationEnabled", PBool true)] 6 0.15);
  ("resourceUtilization",
    mkAction resource_allocation
      [("optimizeResources", PBool true); ("loadBalancing", PBool true)] 8 0.3);
  ("energyEfficiency",
    mkAction parameter_adjustment
      [("powerSaving", PBool true); ("efficiencyMode", PBool true)] 7 0.2);
  ("engagement",
    mkAction technique_change
      [("enhanceUX", PBool true); ("interactiveFeatures", PBool true)] 8 0.25);
  ("satisfaction",
    mkAction parameter_adjustment
      [("qualityFocus", PBool true); ("userCentric", PBool true)] 9 0.3)
].

Definition generateOptimizationAction (tr : FeedbackTrigger) (ty : string)
  : OptimizationAction :=
  match AMap.get (metric tr) actions with
  | Some a => a
  | None =>
      mkAction parameter_adjustment [("generalOptimization", PBool true)] 5 0.1
  end.

(** *** Feedback loops *)

(** What [Date.now()] and the random suffix give when a loop is created. *)
Record Stamp := { stamp_id : string; stamp_now : Z }.

Definition emptyResult : OptimizationResult := {|
  success := false;
  improvement := 0;
  newMetrics := None;
  sideEffects := [];
  processingTime := 0
|}.

(** [loops] is [this.feedbackLoops]. *)
Definition createFeedbackLoop (loops : AMap.t FeedbackLoop) (st : Stamp)
  (m : string) (value thr : Q) (ty : string) (sev : Severity)
  : FeedbackLoop :=
  let tr := {| metric := m; threshold := thr; currentValue := value;
               trend := declining; severity := sev |} in
  {| id := stamp_id st;
     type := ty;
     trigger := tr;
     action := generateOptimizationAction tr ty;
     result := emptyResult;
     timestamp := stamp_now st;
     iteration := AMap.size loops + 1 |}.

Definition evaluateMetric (loops : AMap.t FeedbackLoop) (st : Stamp)
  (metricName : string) (value : Q) (ty : string) : option FeedbackLoop :=
  let th := getThresholds metricName in
  if JS.ltb value (critical th) then
    Some (createFeedbackLoop loops st metricName value (critical th) ty Critical)
  else if JS.ltb value (low th) then
    Some (createFeedbackLoop loops st metricName value (low th) ty High)
  else if JS.ltb value (medium th) then
    Some (createFeedbackLoop loops st metricName value (medium th) ty Medium)
  else None.

(** [Object.entries] of the four categories, in the order in which
    [identifyOptimizationOpportunities] visits them. *)
Definition categories (m : OptimizationMetrics)
  : list (string * list (string * Q)) := [
  ("performance",
    [("processingSpeed", processingSpeed (performance m));
     ("memoryUsage", memoryUsage (performance m));
     ("responseTime", responseTime (performance m));
     ("throughput", throughput (performance m));
     ("scalability", perf_scalability (performance m))]);
  ("quality",
    [("accuracy", accuracy (quality m));
     ("consistency", consistency (quality m));
     ("robustness", robustness (quality m));
     ("fidelity", fidelity (quality m));
     ("innovation", innovation (quality m))]);
  ("efficiency",
    [("resourceUtilization", resourceUtilization (efficiency m));
     ("energyEfficiency", energyEfficiency (efficiency m));
     ("costEffectiveness", costEffectiveness (efficiency m));
     ("timeEfficiency", timeEfficiency (efficiency m));
     ("scalability", eff_scalability (efficiency m))]);
  ("userSatisfaction",
    [("engagement", engagement (userSatisfaction m));
     ("retention", retention (userSatisfaction m));
     ("satisfaction", satisfaction (userSatisfaction m));
     ("feedbackScore", feedbackScore (userSatisfaction m));
     ("recommendation", recommendation (userSatisfaction m))])
].

(** The two nested [for] loops, flattened: (category, metric, value). *)
Definition metricEntries (m : OptimizationMetrics)
  : list (string * (string * Q)) :=
  flat_map (fun c => List.map (fun e => (fst c, e)) (snd c)) (categories m).

(** The breaches in detection order; [stamps i] is the stamp of the
    [i]-th evaluated metric. *)
Fixpoint detect (loops : AMap.t FeedbackLoop) (stamps : nat -> Stamp) (i : nat)
  (entries : list (string * (string * Q))) : list FeedbackLoop :=
  match entries with
  | [] => []
  | (ty, (name, value)) :: rest =>
      match evaluateMetric loops (stamps i) name value ty with
      | Some opportunity => opportunity :: detect loops stamps (S i) rest
      | None => detect loops stamps (S i) rest
      end
  end.

(** The comparison function [(a, b) => b.action.priority - a.action.priority]
    as a may-precede test. *)
Definition byPriority (a b : FeedbackLoop) : bool :=
  (priority (action b) - priority (action a) <=? 0)%Z.

Definition identifyOptimizationOpportunities (loops : AMap.t FeedbackLoop)
  (stamps : nat -> Stamp) (m : OptimizationMetrics) : list FeedbackLoop :=
  let opportunities := detect loops stamps 0 (metricEntries m) in
  JSArray.sort byPriority opportunities.

(** *** Executing an optimization *)

Definition calculateSideEffects (a : OptimizationAction) : list string :=
  match action_type a with
  | parameter_adjustment =>
      ["Parameter adjustment may affect other metrics"]
  | model_switch =>
      ["Model switch may increase processing time";
       "Model switch may increase memory usage"]
  | technique_change =>
      ["Technique change may require adaptation period"]
  | resource_allocation =>
      ["Resource reallocation may affect other processes"]
  | algorithm_tuning =>
      ["Algorithm tuning may affect consistency"]
  end.

(** What the environment gives during one [executeOptimization]: the random
    factor in [0.8, 1.2), the metrics collected afterwards and the elapsed
    time. *)
Record ExecSample := {
  randomFactor : Q;
  collected : OptimizationMetrics;
  elapsed : Z
}.

Definition simulateOptimization (a : OptimizationAction) (s : ExecSample) : Q :=
  let baseImprovement := estimatedImpact a in
  baseImprovement * randomFactor s.

Definition set_result (f : FeedbackLoop) (r : OptimizationResult) : FeedbackLoop :=
  {| id := id f; type := type f; trigger := trigger f; action := action f;
     result := r; timestamp := timestamp f; iteration := iteration f |}.

Definition with_feedbackLoops (o : RealTimeOptimizer) (m : AMap.t FeedbackLoop)
  : RealTimeOptimizer :=
  {| feedbackLoops := m;
     optimizationHistory := optimizationHistory o;
     metricsHistory := metricsHistory o;
     predictionModel := predictionModel o;
     isOptimizing := isOptimizing o;
     config := config o;
     intervals := intervals o |}.

Definition with_optimizationHistory (o : RealTimeOptimizer)
  (h : list OptimizationResult) : RealTimeOptimizer :=
  {| feedbackLoops := feedbackLoops o;
     optimizationHistory := h;
     metricsHistory := metricsHistory o;
     predictionModel := predictionModel o;
     isOptimizing := isOptimizing o;
     config := config o;
     intervals := intervals o |}.

Definition with_metricsHistory (o : RealTimeOptimizer)
  (h : list OptimizationMetrics) : RealTimeOptimizer :=
  {| feedbackLoops := feedbackLoops o;
     optimizationHistory := optimizationHistory o;
     metricsHistory := h;
     predictionModel := predictionModel o;
     isOptimizing := isOptimizing o;
     config := config o;
     intervals := intervals o |}.

Definition with_predictionModel (o : RealTimeOptimizer)
  (p : option PredictionModel) : RealTimeOptimizer :=
  {| feedbackLoops := feedbackLoops o;
     optimizationHistory := optimizationHistory o;
     metricsHistory := metricsHistory o;
     predictionModel := p;
     isOptimizing := isOptimizing o;
     config := config o;
     intervals := intervals o |}.

Definition with_isOptimizing (o : RealTimeOptimizer) (b : bool)
  : RealTimeOptimizer :=
  {| feedbackLoops := feedbackLoops o;
     optimizationHistory := optimizationHistory o;
     metricsHistory := metricsHistory o;
     predictionModel := predictionModel o;
     isOptimizing := b;
     config := config o;
     intervals := intervals o |}.

Definition with_intervals (o : RealTimeOptimizer) (n : nat)
  : RealTimeOptimizer :=
  {| feedbackLoops := feedbackLoops o;
     optimizationHistory := optimizationHistory o;
     metricsHistory := metricsHistory o;
     predictionModel := predictionModel o;
     isOptimizing := isOptimizing o;
     config := config o;
     intervals := n |}.

Definition with_enable (o : RealTimeOptimizer) (b : bool) : RealTimeOptimizer :=
  {| feedbackLoops := feedbackLoops o;
     optimizationHistory := optimizationHistory o;
     metricsHistory := metricsHistory o;
     predictionModel := predictionModel o;
     isOptimizing := isOptimizing o;
     config :=
       {| enableRealTimeOptimization := b;
          feedbackInterval := feedbackInterval (config o);
          optimizationThreshold := optimizationThreshold (config o);
          maxOptimizationsPerCycle := maxOptimizationsPerCycle (config o);
          adaptiveLearning := adaptiveLearning (config o);
          predictionEnabled := predictionEnabled (config o) |};
     intervals := intervals o |}.

(** The [try] branch; nothing in it throws (the simulated optimization is a
    timer and a random number). *)
Definition executeOptimization (o : RealTimeOptimizer) (f : FeedbackLoop)
  (s : ExecSample) : RealTimeOptimizer * OptimizationResult :=
  let r := {| success := true;
              improvement := simulateOptimization (action f) s;
              newMetrics := Some (collected s);
              sideEffects := calculateSideEffects (action f);
              processingTime := elapsed s |} in
  (with_feedbackLoops o (AMap.set (id f) (set_result f r) (feedbackLoops o)), r).

Definition recordOptimizationResult (o : RealTimeOptimizer)
  (r : OptimizationResult) : RealTimeOptimizer :=
  let h := optimizationHistory o ++ [r] in
  with_optimizationHistory o
    (if (100 <? List.length h)%nat then JSArray.slice_last 100 h else h).

(** The [for ... of optimizations] loop; [samples i] belongs to the [i]-th
    execution.  The second component lists the executed loops in order. *)
Fixpoint executeAll (o : RealTimeOptimizer) (samples : nat -> ExecSample)
  (i : nat) (optimizations : list FeedbackLoop)
  : RealTimeOptimizer * list FeedbackLoop :=
  match optimizations with
  | [] => (o, [])
  | opportunity :: rest =>
      let (o1, r) := executeOptimization o opportunity (samples i) in
      let o2 := recordOptimizationResult o1 r in
      let (o3, done) := executeAll o2 samples (S i) rest in
      (o3, opportunity :: done)
  end.

(** [updatePredictionModel]: [Some p] when the backend call succeeded and
    the model was replaced by [p], [None] when the call failed. *)
Definition updatePredictionModel (o : RealTimeOptimizer)
  (upd : option PredictionModel) : RealTimeOptimizer :=
  match upd with
  | Some p => with_predictionModel o (Some p)
  | None => o
  end.

(** What one cycle reads from the environment. *)
Record CycleEnv := {
  currentMetrics : OptimizationMetrics;
  stamps : nat -> Stamp;
  samples : nat -> ExecSample;
  predictionUpdate : option PredictionModel
}.

(** The body of the [try] block of [runOptimizationCycle]. *)
Definition cycleBody (o : RealTimeOptimizer) (env : CycleEnv)
  : RealTimeOptimizer * list FeedbackLoop :=
  let o1 := with_metricsHistory o (metricsHistory o ++ [currentMetrics env]) in
  let opportunities :=
    identifyOptimizationOpportunities (feedbackLoops o1) (stamps env)
      (currentMetrics env) in
  let optimizations :=
    JSArray.slice0 (maxOptimizationsPerCycle (config o1)) opportunities in
  let (o2, done) := executeAll o1 (samples env) 0 optimizations in
  let o3 := if adaptiveLearning (config o2)
            then updatePredictionModel o2 (predictionUpdate env) else o2 in
  (o3, done).

Definition runOptimizationCycle (o : RealTimeOptimizer) (env : CycleEnv)
  : RealTimeOptimizer * list FeedbackLoop :=
  let o1 := with_isOptimizing o true in
  let (o2, done) := cycleBody o1 env in
  (with_isOptimizing o2 false, done).

(** *** The scheduled loop as a transition system

    JavaScript runs one callback at a time; a cycle occupies the interval
    between the timer callback that starts it and its last continuation.  *)

Inductive Event :=
| Initialize
| Start
| Stop
| ClearHistory
| TimerFires
| CycleCompletes (env : CycleEnv).

Inductive Observation :=
| CycleStarted
| CycleSkipped
| CycleCompleted (executed : list FeedbackLoop).

Definition startOptimizationCycle (o : RealTimeOptimizer) : RealTimeOptimizer :=
  with_intervals o (S (intervals o)).

Definition initialize (o : RealTimeOptimizer) : RealTimeOptimizer :=
  if enableRealTimeOptimization (config o) then startOptimizationCycle o else o.

Definition stop (o : RealTimeOptimizer) : RealTimeOptimizer :=
  with_enable o false.

Definition start (o : RealTimeOptimizer) : RealTimeOptimizer :=
  startOptimizationCycle (with_enable o true).

Definition clearHistory (o : RealTimeOptimizer) : RealTimeOptimizer :=
  with_feedbackLoops
    (with_metricsHistory (with_optimizationHistory o []) []) AMap.empty.

(** The callback handed to [setInterval]: it tests [isOptimizing] only. *)
Definition timerCallback (o : RealTimeOptimizer)
  : RealTimeOptimizer * list Observation :=
  if negb (isOptimizing o)
  then (with_isOptimizing o true, [CycleStarted])
  else (o, [CycleSkipped]).

Definition step (o : RealTimeOptimizer) (e : Event)
  : RealTimeOptimizer * list Observation :=
  match e with
  | Initialize => (initialize o, [])
  | Start => (start o, [])
  | Stop => (stop o, [])
  | ClearHistory => (clearHistory o, [])
  | TimerFires =>
      match intervals o with
      | O => (o, [])
      | S _ => timerCallback o
      end
  | CycleCompletes env =>
      if isOptimizing o
      then let (o1, done) := cycleBody o env in
           (with_isOptimizing o1 false, [CycleCompleted done])
      else (o, [])
  end.

Fixpoint run (o : RealTimeOptimizer) (es : list Event)
  : RealTimeOptimizer * list Observation :=
  match es with
  | [] => (o, [])
  | e :: es' =>
      let (o1, obs1) := step o e in
      let (o2, obs2) := run o1 es' in
      (o2, obs1 ++ obs2)
  end.

End Optimizer.

(** ** [RefinementEngine] (lib/realtime-optimizer.ts, second part) *)

Module Refinement.

Record TechnicalQuality := {
  resolution : Q;
  clarity : Q;
  noise : Q;
  artifacts : Q;
  compression : Q;
  sharpness : Q
}.

Record ArtisticQuality := {
  composition : Q;
  colorHarmony : Q;
  balance : Q;
  contrast : Q;
  creativity : Q;
  originality : Q;
  aestheticAppeal : Q
}.

Record SemanticQuality := {
  coherence : Q;
  relevance : Q;
  depth : Q;
  consistency : Q;
  conceptualClarity : Q;
  meaningFulness : Q
}.

Record UserPreferenceQuality := {
  styleAlignment : Q;
  promptAdherence : Q;
  emotionalResonance : Q;
  visualSatisfaction : Q
}.

Record QualityMetrics := {
  overall : Q;
  technical : TechnicalQuality;
  artistic : ArtisticQuality;
  semantic : SemanticQuality;
  userPreference : UserPreferenceQuality
}.

(** [QualityImprovements] has the fields of [QualityMetrics], all of them
    filled by [calculateImprovements]. *)
Definition QualityImprovements := QualityMetrics.

Record RefinementStep := {
  iteration : nat;
  inputImage : string;
  outputImage : string;
  qualityBefore : QualityMetrics;
  qualityAfter : QualityMetrics;
  improvements : QualityImprovements;
  techniquesApplied : list string;
  processingTime : Z
}.

Inductive Strategy := conservative | balanced | aggressive.

Inductive Category := technical_cat | artistic_cat | semantic_cat | composite_cat.

(** The object handed to a technique's [apply]. *)
Record ApplyContext := {
  ctx_targetPrompt : string;
  ctx_currentQuality : QualityMetrics;
  ctx_adaptiveStrategy : Strategy
}.

(** [apply] gives [None] when the promise rejects. *)
Record RefinementTechnique := {
  name : string;
  category : Category;
  strength : Q;
  applicability : QualityMetrics -> bool;
  apply : string -> ApplyContext -> option string
}.

Record RefinementConfig := {
  maxIterations : nat;
  qualityThreshold : Q;
  improvementThreshold : Q;
  techniques : list RefinementTechnique;
  adaptiveStrategy : Strategy
}.

(** [Partial<RefinementConfig>] *)
Record PartialConfig := {
  p_maxIterations : option nat;
  p_qualityThreshold : option Q;
  p_improvementThreshold : option Q;
  p_techniques : option (list RefinementTechnique);
  p_adaptiveStrategy : option Strategy
}.

Definition noConfig : PartialConfig := {|
  p_maxIterations := None;
  p_qualityThreshold := None;
  p_improvementThreshold := None;
  p_techniques := None;
  p_adaptiveStrategy := None
|}.

Record RefinementEngine := {
  registry : AMap.t RefinementTechnique;
  qualityHistory : list QualityMetrics;
  refinementHistory : list RefinementStep
}.

(** *** The backend's replies to a quality assessment

    A reply that parses is [null] or an object whose properties, where
    present, have the types the [QualityMetrics] interface declares. *)

Record TechnicalData := {
  d_resolution : option Q;
  d_clarity : option Q;
  d_noise : option Q;
  d_artifacts : option Q;
  d_compression : option Q;
  d_sharpness : option Q
}.

Record ArtisticData := {
  d_composition : option Q;
  d_colorHarmony : option Q;
  d_balance : option Q;
  d_contrast : option Q;
  d_creativity : option Q;
  d_originality : option Q;
  d_aestheticAppeal : option Q
}.

Record SemanticData := {
  d_coherence : option Q;
  d_relevance : option Q;
  d_depth : option Q;
  d_consistency : option Q;
  d_conceptualClarity : option Q;
  d_meaningFulness : option Q
}.

Record UserPreferenceData := {
  d_styleAlignment : option Q;
  d_promptAdherence : option Q;
  d_emotionalResonance : option Q;
  d_visualSatisfaction : option Q
}.

Record QualityData := {
  d_overall : option Q;
  d_technical : option TechnicalData;
  d_artistic : option ArtisticData;
  d_semantic : option SemanticData;
  d_userPreference : option UserPreferenceData
}.

Inductive Reply :=
| CallFails
    (* the request rejects, or the response has no [choices] array *)
| NoContent
    (* [choices[0]?.message?.content] is undefined, null or empty *)
| Unparsable (content : string)
    (* [JSON.parse(content)] throws *)
| ParsedNull
    (* [JSON.parse(content)] is [null]: reading [data.overall] throws *)
| Parsed (data : QualityData).

(** The outside world of one [refineImage] call: the reply to the [n]-th
    backend request and the time the [i]-th iteration takes. *)
Record World := {
  backend : nat -> Reply;
  elapsed : nat -> Z
}.

(** [data.sub?.field || 0.5] *)
Definition sub {D : Type} (d : option D) (field : D -> option Q) : Q :=
  JS.or_default (match d with Some s => field s | None => None end) 0.5.

Definition processQualityMetrics (data : QualityData) : QualityMetrics := {|
  overall := JS.or_default (d_overall data) 0.5;
  technical := {|
    resolution := sub (d_technical data) d_resolution;
    clarity := sub (d_technical data) d_clarity;
    noise := sub (d_technical data) d_noise;
    artifacts := sub (d_technical data) d_artifacts;
    compression := sub (d_technical data) d_compression;
    sharpness := sub (d_technical data) d_sharpness |};
  artistic := {|
    composition := sub (d_artistic data) d_composition;
    colorHarmony := sub (d_artistic data) d_colorHarmony;
    balance := sub (d_artistic data) d_balance;
    contrast := sub (d_artistic data) d_contrast;
    creativity := sub (d_artistic data) d_creativity;
    originality := sub (d_artistic data) d_originality;
    aestheticAppeal := sub (d_artistic data) d_aestheticAppeal |};
  semantic := {|
    coherence := sub (d_semantic data) d_coherence;
    relevance := sub (d_semantic data) d_relevance;
    depth := sub (d_semantic data) d_depth;
    consistency := sub (d_semantic data) d_consistency;
    conceptualClarity := sub (d_semantic data) d_conceptualClarity;
    meaningFulness := sub (d_semantic data) d_meaningFulness |};
  userPreference := {|
    styleAlignment := sub (d_userPreference data) d_styleAlignment;
    promptAdherence := sub (d_userPreference data) d_promptAdherence;
    emotionalResonance := sub (d_userPreference data) d_emotionalResonance;
    visualSatisfaction := sub (d_userPreference data) d_visualSatisfaction |}
|}.

Definition getDefaultQualityMetrics : QualityMetrics := {|
  overall := 0.5;
  technical := {|
    resolution := 0.5; clarity := 0.5; noise := 0.5;
    artifacts := 0.5; compression := 0.5; sharpness := 0.5 |};
  artistic := {|
    composition := 0.5; colorHarmony := 0.5; balance := 0.5; contrast := 0.5;
    creativity := 0.5; originality := 0.5; aestheticAppeal := 0.5 |};
  semantic := {|
    coherence := 0.5; relevance := 0.5; depth := 0.5; consistency := 0.5;
    conceptualClarity := 0.5; meaningFulness := 0.5 |};
  userPreference := {|
    styleAlignment := 0.5; promptAdherence := 0.5;
    emotionalResonance := 0.5; visualSatisfaction := 0.5 |}
|}.

(** [assessQuality], given the backend's reply to its request. *)
Definition assessQuality (reply : Reply) : QualityMetrics :=
  match reply with
  | CallFails => getDefaultQualityMetrics          (* catch *)
  | NoContent => getDefaultQualityMetrics          (* if (!content) *)
  | Unparsable _ => getDefaultQualityMetrics       (* catch *)
  | ParsedNull => getDefaultQualityMetrics         (* catch *)
  | Parsed data => processQualityMetrics data
  end.

Definition calculateImprovements (before after : QualityMetrics)
  : QualityImprovements := {|
  overall := overall after - overall before;
  technical := {|
    resolution := resolution (technical after) - resolution (technical before);
    clarity := clarity (technical after) - clarity (technical before);
    noise := noise (technical after) - noise (technical before);
    artifacts := artifacts (technical after) - artifacts (technical before);
    compression := compression (technical after) - compression (technical before);
    sharpness := sharpness (technical after) - sharpness (technical before) |};
  artistic := {|
    composition := composition (artistic after) - composition (artistic before);
    colorHarmony := colorHarmony (artistic after) - colorHarmony (artistic before);
    balance := balance (artistic after) - balance (artistic before);
    contrast := contrast (artistic after) - contrast (artistic before);
    creativity := creativity (artistic after) - creativity (artistic before);
    originality := originality (artistic after) - originality (artistic before);
    aestheticAppeal :=
      aestheticAppeal (artistic after) - aestheticAppeal (artistic before) |};
  semantic := {|
    coherence := coherence (semantic after) - coherence (semantic before);
    relevance := relevance (semantic after) - relevance (semantic before);
    depth := depth (semantic after) - depth (semantic before);
    consistency := consistency (semantic after) - consistency (semantic before);
    conceptualClarity :=
      conceptualClarity (semantic after) - conceptualClarity (semantic before);
    meaningFulness :=
      meaningFulness (semantic after) - meaningFulness (semantic before) |};
  userPreference := {|
    styleAlignment :=
      styleAlignment (userPreference after) - styleAlignment (userPreference before);
    promptAdherence :=
      promptAdherence (userPreference after) - promptAdherence (userPreference before);
    emotionalResonance :=
      emotionalResonance (userPreference after)
      - emotionalResonance (userPreference before);
    visualSatisfaction :=
      visualSatisfaction (userPreference after)
      - visualSatisfaction (userPreference before) |}
|}.

Definition checkConvergence (q : QualityMetrics) (cfg : RefinementConfig) : bool :=
  JS.geb (overall q) (qualityThreshold cfg).

Definition calculateTotalImprovement (steps : list RefinementStep) : Q :=
  match steps with
  | [] => 0
  | first :: _ =>
      let firstQuality := overall (qualityBefore first) in
      let lastQuality := overall (qualityAfter (last steps first)) in
      lastQuality - firstQuality
  end.

(** *** Techniques *)

Definition placeholder (image : string) (_ : ApplyContext) : option string :=
  Some image.

Definition initialTechniques : AMap.t RefinementTechnique := AMap.of_entries [
  ("clarity-enhancement",
    {| name := "Clarity Enhancement"; category := technical_cat; strength := 0.8;
       applicability := fun m => JS.ltb (clarity (technical m)) 0.8;
       apply := placeholder |});
  ("noise-reduction",
    {| name := "Noise Reduction"; category := technical_cat; strength := 0.7;
       applicability := fun m => JS.gtb (noise (technical m)) 0.3;
       apply := placeholder |});
  ("composition-balance",
    {| name := "Composition Balance"; category := artistic_cat; strength := 0.9;
       applicability := fun m => JS.ltb (composition (artistic m)) 0.7;
       apply := placeholder |});
  ("color-harmonization",
    {| name := "Color Harmonization"; category := artistic_cat; strength := 0.8;
       applicability := fun m => JS.ltb (colorHarmony (artistic m)) 0.7;
       apply := placeholder |});
  ("semantic-coherence",
    {| name := "Semantic Coherence"; category := semantic_cat; strength := 0.9;
       applicability := fun m => JS.ltb (coherence (semantic m)) 0.7;
       apply := placeholder |});
  ("conceptual-clarity",
    {| name := "Conceptual Clarity"; category := semantic_cat; strength := 0.8;
       applicability := fun m => JS.ltb (conceptualClarity (semantic m)) 0.7;
       apply := placeholder |})
].

(** The constructor. *)
Definition new : RefinementEngine := {|
  registry := initialTechniques;
  qualityHistory := [];
  refinementHistory := []
|}.

Definition score (currentQuality : QualityMetrics) (cfg : RefinementConfig)
  (tech : RefinementTechnique) : Q :=
  let s0 := strength tech in
  let s1 := match category tech with
            | technical_cat =>
                if JS.ltb (clarity (technical currentQuality)) 0.7
                then s0 + 0.3 else s0
            | artistic_cat =>
                if JS.ltb (composition (artistic currentQuality)) 0.7
                then s0 + 0.3 else s0
            | semantic_cat =>
                if JS.ltb (coherence (semantic currentQuality)) 0.7
                then s0 + 0.3 else s0
            | composite_cat => s0
            end in
  match adaptiveStrategy cfg with
  | aggressive => s1 * 1.2
  | conservative => s1 * 0.8
  | balanced => s1
  end.

(** [scoredTechniques.reduce((best, current) => ...)] without an initial
    value.  [refineImage] calls it with a non-empty array only, given here
    as its first element and the rest. *)
Definition selectBestTechnique (first : RefinementTechnique)
  (others : list RefinementTechnique)
  (currentQuality : QualityMetrics) (cfg : RefinementConfig)
  : RefinementTechnique :=
  fold_left
    (fun best current =>
       if JS.gtb (score currentQuality cfg current) (score currentQuality cfg best)
       then current else best)
    others first.

(** Both branches of [basicEnhancement] return the image; the backend is
    asked once. *)
Definition basicEnhancement (image : string) (reply : Reply) : string := image.

(** [applyRefinement]: the refined image, the techniques used and the
    number of backend requests made. *)
Definition applyRefinement (w : World) (requests : nat) (image : string)
  (first : RefinementTechnique) (others : list RefinementTechnique)
  (currentQuality : QualityMetrics) (targetPrompt : string)
  (cfg : RefinementConfig) : string * list string * nat :=
  let selectedTechnique := selectBestTechnique first others currentQuality cfg in
  let ctx := {| ctx_targetPrompt := targetPrompt;
                ctx_currentQuality := currentQuality;
                ctx_adaptiveStrategy := adaptiveStrategy cfg |} in
  match apply selectedTechnique image ctx with
  | Some refinedImage => (refinedImage, [name selectedTechnique], requests)
  | None =>
      (basicEnhancement image (backend w requests),
       ["basic-enhancement"], S requests)
  end.

(** *** The refinement loop *)

(** The local variables of [refineImage], the engine's histories, the
    number of backend requests made so far and the number of times the loop
    body has been entered. *)
Record LoopState := {
  ls_image : string;
  ls_quality : QualityMetrics;
  ls_iteration : nat;
  ls_converged : bool;
  ls_steps : list RefinementStep;
  ls_engine : RefinementEngine;
  ls_requests : nat;
  ls_entered : nat
}.

Inductive BodyResult :=
| Break (st : LoopState)
| Next (st : LoopState).

Definition push_histories (e : RefinementEngine) (step : RefinementStep)
  (q : QualityMetrics) : RefinementEngine :=
  {| registry := registry e;
     qualityHistory := qualityHistory e ++ [q];
     refinementHistory := refinementHistory e ++ [step] |}.

Definition entering (st : LoopState) : LoopState :=
  {| ls_image := ls_image st;
     ls_quality := ls_quality st;
     ls_iteration := ls_iteration st;
     ls_converged := ls_converged st;
     ls_steps := ls_steps st;
     ls_engine := ls_engine st;
     ls_requests := ls_requests st;
     ls_entered := S (ls_entered st) |}.

(** One pass through the body of the [while] loop. *)
Definition loopBody (w : World) (targetPrompt : string) (cfg : RefinementConfig)
  (st0 : LoopState) : BodyResult :=
  let st := entering st0 in
  let applicableTechniques :=
    filter (fun tech => applicability tech (ls_quality st)) (techniques cfg) in
  match applicableTechniques with
  | [] => Break st
  | first :: others =>
      let '(image, techniquesUsed, requests) :=
        applyRefinement w (ls_requests st) (ls_image st) first others
          (ls_quality st) targetPrompt cfg in
      let newQuality := assessQuality (backend w requests) in
      let step := {|
        iteration := ls_iteration st;
        inputImage := ls_image st;
        outputImage := image;
        qualityBefore := ls_quality st;
        qualityAfter := newQuality;
        improvements := calculateImprovements (ls_quality st) newQuality;
        techniquesApplied := techniquesUsed;
        processingTime := elapsed w (ls_iteration st) |} in
      Next {| ls_image := image;
              ls_quality := newQuality;
              ls_iteration := S (ls_iteration st);
              ls_converged := checkConvergence newQuality cfg;
              ls_steps := ls_steps st ++ [step];
              ls_engine := push_histories (ls_engine st) step newQuality;
              ls_requests := S requests;
              ls_entered := ls_entered st |}
  end.

(** [while (iteration < fullConfig.maxIterations && !converged)] *)
Definition guard (cfg : RefinementConfig) (st : LoopState) : bool :=
  (ls_iteration st <? maxIterations cfg)%nat && negb (ls_converged st).

Inductive Exit := GuardFalse | NoTechnique | OutOfFuel.

Fixpoint while (fuel : nat) (w : World) (targetPrompt : string)
  (cfg : RefinementConfig) (st : LoopState) : Exit * LoopState :=
  if guard cfg st then
    match fuel with
    | O => (OutOfFuel, st)
    | S fuel' =>
        match loopBody w targetPrompt cfg st with
        | Break st' => (NoTechnique, st')
        | Next st' => while fuel' w targetPrompt cfg st'
        end
    end
  else (GuardFalse, st).

Definition fullConfig (e : RefinementEngine) (config : PartialConfig)
  : RefinementConfig := {|
  maxIterations :=
    match p_maxIterations config with Some n => n | None => 5%nat end;
  qualityThreshold :=
    match p_qualityThreshold config with Some q => q | None => 0.85 end;
  improvementThreshold :=
    match p_improvementThreshold config with Some q => q | None => 0.02 end;
  techniques :=
    match p_techniques config with
    | Some ts => ts
    | None => AMap.values (registry e)
    end;
  adaptiveStrategy :=
    match p_adaptiveStrategy config with Some s => s | None => balanced end
|}.

(** The state in which [refineImage] reaches its loop. *)
Definition initialState (e : RefinementEngine) (w : World)
  (initialImage : string) : LoopState :=
  let currentQuality := assessQuality (backend w 0%nat) in
  {| ls_image := initialImage;
     ls_quality := currentQuality;
     ls_iteration := 0;
     ls_converged := false;
     ls_steps := [];
     ls_engine := {| registry := registry e;
                     qualityHistory := [currentQuality];
                     refinementHistory := refinementHistory e |};
     ls_requests := 1;
     ls_entered := 0 |}.

(** The loop of [refineImage] run to its end: [maxIterations] passes are
    enough fuel (lemma [refineLoop_terminates]). *)
Definition refineLoop (e : RefinementEngine) (w : World)
  (initialImage targetPrompt : string) (config : PartialConfig)
  : Exit * LoopState :=
  let cfg := fullConfig e config in
  while (maxIterations cfg) w targetPrompt cfg (initialState e w initialImage).

Record RefinementResult := {
  finalImage : string;
  quality : QualityMetrics;
  steps : list RefinementStep;
  totalImprovement : Q;
  converged : bool
}.

Definition refineImage (e : RefinementEngine) (w : World)
  (initialImage targetPrompt : string) (config : PartialConfig)
  : RefinementEngine * RefinementResult :=
  let st := snd (refineLoop e w initialImage targetPrompt config) in
  (ls_engine st,
   {| finalImage := ls_image st;
      quality := ls_quality st;
      steps := ls_steps st;
      totalImprovement := calculateTotalImprovement (ls_steps st);
      converged := ls_converged st |}).

End Refinement.

(** ** [StyleTransferEngine] (lib/socket.ts, second part) *)

Module StyleTransfer.

Record StyleTransferConfig := {
  strength : Q;
  preserveContent : Q;
  colorInfluence : Q;
  textureInfluence : Q;
  compositionInfluence : Q;
  adaptiveBlending : bool;
  multiStyle : bool;
  semanticAwareness : bool
}.

Record BrushworkCharacteristics := {
  technique : string;
  texture : Q;
  strokeDirection : list string;
  bw_consistency : Q;
  expressiveness : Q;
  fluidity : Q
}.

Record FocalPoint := { fp_x : Q; fp_y : Q; fp_strength : Q }.

Record CompositionCharacteristics := {
  balance : string;
  focalPoints : list FocalPoint;
  rhythm : string;
  flow : string;
  depth : Q;
  movement : string
}.

Record LightingCharacteristics := {
  lighting_type : string;
  direction : string;
  lt_intensity : Q;
  contrast : Q;
  shadows : Q;
  highlights : Q;
  lt_atmosphere : Q
}.

Record MoodCharacteristics := {
  primary : string;
  secondary : string;
  intensity : Q;
  emotionalImpact : Q;
  atmosphere : string;
  resonance : Q
}.

Record StyleProfile := {
  id : string;
  name : string;
  colorPalette : list string;
  brushwork : BrushworkCharacteristics;
  composition : CompositionCharacteristics;
  lighting : LightingCharacteristics;
  mood : MoodCharacteristics;
  artisticMovement : string;
  culturalContext : string;
  complexity : Q;
  adaptability : Q
}.

(** [getDefaultStyleProfile(index)] *)
Definition getDefaultStyleProfile (index : nat) : StyleProfile := {|
  id := "style_" ++ NilEmpty.string_of_uint (Nat.to_uint index);
  name := "Style " ++ NilEmpty.string_of_uint (Nat.to_uint (index + 1));
  colorPalette := [];
  brushwork := {|
    technique := "unknown"; texture := 0.5; strokeDirection := [];
    bw_consistency := 0.5; expressiveness := 0.5; fluidity := 0.5 |};
  composition := {|
    balance := "dynamic"; focalPoints := []; rhythm := "regular";
    flow := "smooth"; depth := 0.5; movement := "static" |};
  lighting := {|
    lighting_type := "natural"; direction := "frontal"; lt_intensity := 0.5;
    contrast := 0.5; shadows := 0.5; highlights := 0.5; lt_atmosphere := 0.5 |};
  mood := {|
    primary := "neutral"; secondary := "neutral"; intensity := 0.5;
    emotionalImpact := 0.5; atmosphere := "neutral"; resonance := 0.5 |};
  artisticMovement := "contemporary";
  culturalContext := "modern";
  complexity := 0.5;
  adaptability := 0.5
|}.

(** The configuration [transferStyle] uses when none is given, for
    [styleImages.length = n]. *)
Definition defaultConfig (n : nat) : StyleTransferConfig := {|
  strength := 0.7;
  preserveContent := 0.6;
  colorInfluence := 0.8;
  textureInfluence := 0.6;
  compositionInfluence := 0.5;
  adaptiveBlending := true;
  multiStyle := (1 <? n)%nat;
  semanticAwareness := true
|}.

Record Bounds := { x : Q; y : Q; width : Q; height : Q }.

(** A region of the content analysis (parsed JSON): every property may be
    absent. *)
Record Region := {
  r_bounds : option Bounds;
  r_mood : option string;
  r_complexity : option Q;
  r_concepts : option (list string)
}.

(** The content analysis (parsed JSON).  [ca_regions] is [None] when
    [contentAnalysis.regions] is absent or falsy; otherwise it lists the
    values [semanticRegions[0]], [semanticRegions[1]], ... that the loop of
    [generateFusionMap] reads below [semanticRegions.length].  An element
    [None] is a value that is [null] or [undefined]: reading a property of
    it throws.  Any other element is read through its properties. *)
Record ContentAnalysis := { ca_regions : option (list (option Region)) }.

Record FusionRegion := {
  fr_id : string;
  bounds : Bounds;
  dominantStyle : string;
  blendWeights : AMap.t Q;
  semanticContent : list string;
  adaptationLevel : Q
}.

Record FusionMap := {
  regions : list FusionRegion;
  blendMatrix : list (list Q);
  styleDistribution : AMap.t Q;
  semanticPreservation : Q
}.

(** [styleProfiles.length] as a number *)
Definition count {A : Type} (l : list A) : Q := inject_Z (Z.of_nat (List.length l)).

(** [region.mood && profile.mood.primary === region.mood] *)
Definition moodMatches (region : Region) (profile : StyleProfile) : bool :=
  match r_mood region with
  | Some m => negb (String.eqb m "") && String.eqb (primary (mood profile)) m
  | None => false
  end.

(** [region.complexity && Math.abs(profile.complexity - region.complexity) < 0.3] *)
Definition complexityMatches (region : Region) (profile : StyleProfile) : bool :=
  match r_complexity region with
  | Some c =>
      negb (Qeq_bool c 0) && JS.ltb (Qabs (complexity profile - c)) 0.3
  | None => false
  end.

Definition regionScore (region : Region) (profile : StyleProfile) : Q :=
  let s1 := if moodMatches region profile then 0 + 0.3 else 0 in
  let s2 := if complexityMatches region profile then s1 + 0.2 else s1 in
  s2 + adaptability profile * 0.2.

(** [None] when [styleProfiles] is empty: [styleProfiles[0]] is undefined. *)
Definition selectBestStyleForRegion (region : Region)
  (styleProfiles : list StyleProfile) : option StyleProfile :=
  fst (fold_left
         (fun (acc : option StyleProfile * Q) profile =>
            let score := regionScore region profile in
            if JS.gtb score (snd acc) then (Some profile, score) else acc)
         styleProfiles
         (hd_error styleProfiles, 0)).

(** The first [forEach] of [calculateBlendWeights]. *)
Definition rawWeights (region : Region) (styleProfiles : list StyleProfile)
  (cfg : StyleTransferConfig) : AMap.t Q :=
  fold_left
    (fun weights profile =>
       let w0 := 1 / count styleProfiles in
       let w1 := if moodMatches region profile then w0 * 1.2 else w0 in
       let weight := w1 * strength cfg in
       AMap.set (id profile) weight weights)
    styleProfiles AMap.empty.

(** [values.reduce((sum, w) => sum + w, 0)] *)
Definition total (ws : list Q) : Q := fold_left Qplus ws 0.

(** The weights in exact arithmetic; module [Doubles] below has them in the
    numbers of the engine. *)
Definition calculateBlendWeights (region : Region)
  (styleProfiles : list StyleProfile) (cfg : StyleTransferConfig) : AMap.t Q :=
  let weights := rawWeights region styleProfiles cfg in
  let totalWeight := total (AMap.values weights) in
  List.map (fun kv => (fst kv, snd kv / totalWeight)) weights.

Definition calculateAdaptationLevel (region : Region) (style : StyleProfile) : Q :=
  let a0 := 0.5 in
  let a1 := match r_complexity region with
            | Some c => if JS.gtb c 0.7 then a0 + 0.2 else a0
            | None => a0
            end in
  JS.min 1.0 (a1 + adaptability style * 0.3).

Definition generateBlendMatrix (rs : list FusionRegion)
  (styleProfiles : list StyleProfile) : list (list Q) :=
  List.map
    (fun region =>
       List.map
         (fun profile =>
            JS.or_default (AMap.get (id profile) (blendWeights region)) 0)
         styleProfiles)
    rs.

Definition regionId (i : nat) : string :=
  "region_" ++ NilEmpty.string_of_uint (Nat.to_uint i).

Definition defaultBounds : Bounds := {| x := 0; y := 0; width := 1; height := 1 |}.

(** The [for] loop of [generateFusionMap] from index [i] on; [None] when
    it throws: reading [region.concepts] of a region that is [null], or
    reading [bestStyle.id] when there is no profile. *)
Fixpoint fusionRegions (i : nat) (semanticRegions : list (option Region))
  (styleProfiles : list StyleProfile) (cfg : StyleTransferConfig)
  : option (list FusionRegion) :=
  match semanticRegions with
  | [] => Some []
  | None :: _ => None
  | Some region :: rest =>
      match selectBestStyleForRegion region styleProfiles with
      | None => None
      | Some bestStyle =>
          let fusionRegion := {|
            fr_id := regionId i;
            bounds := match r_bounds region with
                      | Some b => b
                      | None => defaultBounds
                      end;
            dominantStyle := id bestStyle;
            blendWeights := calculateBlendWeights region styleProfiles cfg;
            semanticContent := match r_concepts region with
                               | Some cs => cs
                               | None => []
                               end;
            adaptationLevel := calculateAdaptationLevel region bestStyle |} in
          match fusionRegions (S i) rest styleProfiles cfg with
          | Some more => Some (fusionRegion :: more)
          | None => None
          end
      end
  end.

Definition generateFusionMap (contentAnalysis : ContentAnalysis)
  (styleProfiles : list StyleProfile) (cfg : StyleTransferConfig)
  : option FusionMap :=
  let styleDistribution :=
    fold_left
      (fun m profile => AMap.set (id profile) (1 / count styleProfiles) m)
      styleProfiles AMap.empty in
  let semanticRegions :=
    match ca_regions contentAnalysis with Some rs => rs | None => [] end in
  match fusionRegions 0 semanticRegions styleProfiles cfg with
  | None => None
  | Some rs =>
      Some {| regions := rs;
              blendMatrix := generateBlendMatrix rs styleProfiles;
              styleDistribution := styleDistribution;
              semanticPreservation := preserveContent cfg |}
  end.

End StyleTransfer.

(** ** [calculateBlendWeights] in the numbers of the engine

    The numbers of the engine are IEEE 754 doubles, the numbers of this
    embedding are exact rationals.  Here the blend weights are computed as
    the engine computes them, on doubles, to tell where the two part: a
    product can underflow to 0, and 0 / 0 is [NaN].  [strength] is
    [config.strength]. *)

Module Doubles.
Import StyleTransfer.

#[local] Set Warnings "-inexact-float".

(** [styleProfiles.length] as a number *)
Definition count {A : Type} (l : list A) : float :=
  PrimFloat.of_uint63 (Uint63.of_Z (Z.of_nat (List.length l))).

(** The first [forEach] of [calculateBlendWeights]. *)
Definition rawWeights (region : Region) (styleProfiles : list StyleProfile)
  (strength : float) : AMap.t float :=
  fold_left
    (fun weights profile =>
       let w0 := (1 / count styleProfiles)%float in
       let w1 := if moodMatches region profile then (w0 * 1.2)%float else w0 in
       let weight := (w1 * strength)%float in
       AMap.set (id profile) weight weights)
    styleProfiles AMap.empty.

(** [values.reduce((sum, w) => sum + w, 0)] *)
Definition total (ws : list float) : float := fold_left PrimFloat.add ws 0%float.

Definition calculateBlendWeights (region : Region)
  (styleProfiles : list StyleProfile) (strength : float) : AMap.t float :=
  let weights := rawWeights region styleProfiles strength in
  let totalWeight := total (AMap.values weights) in
  List.map (fun kv => (fst kv, (snd kv / totalWeight)%float)) weights.

(** [Math.abs(sum - 1) <= 1e-6] *)
Definition sumsToOne (ws : list float) : bool :=
  (PrimFloat.abs (total ws - 1) <=? 0.000001)%float.

End Doubles.

(** ** [AMSSEngine] (lib/amss-engine.ts) *)

Module AMSS.

Record AMSSConfig := {
  maxIterations : nat;
  qualityThreshold : Q;
  ensembleSize : nat;
  refinementSteps : nat;
  styleTransferStrength : Q;
  semanticDepth : nat
}.

Definition defaultConfig : AMSSConfig := {|
  maxIterations := 5;
  qualityThreshold := 0.85;
  ensembleSize := 3;
  refinementSteps := 3;
  styleTransferStrength := 0.7;
  semanticDepth := 3
|}.

Record Improvements := {
  imp_quality : Q;
  imp_semanticCoherence : Q;
  imp_aestheticScore : Q
}.

Record HistoryEntry := {
  h_iteration : nat;
  h_quality : Q;
  h_improvements : Improvements
}.

Record Metadata := {
  modelsUsed : list string;
  techniquesApplied : list string;
  processingTime : Z;
  refinementHistory : list HistoryEntry
}.

Record GenerationResult := {
  imageData : string;
  qualityScore : Q;
  semanticCoherence : Q;
  aestheticScore : Q;
  iteration : nat;
  metadata : Metadata
}.

(** A method either returns or throws an [Error] with a message. *)
Inductive Outcome (A : Type) :=
| Returns (a : A)
| Throws (message : string).

Arguments Returns {A} a.
Arguments Throws {A} message.

(** What happens inside the [try] of [generateWithModel]: building the
    prompt or the backend request throws, or the request succeeds and three
    random numbers in [0, 1) and the elapsed time are drawn. *)
Inductive Attempt :=
| Failed (message : string)
| Generated (r1 r2 r3 : Q) (time : Z).

(** The outside world of one [generateImage] call. *)
Record World := {
  attempts : nat -> Attempt;
  refineRandom : nat -> Q;
  totalTime : Z
}.

Definition models : list string :=
  ["gemini-2.5-flash"; "gemini-2.5-flash-image-preview"; "gemini-pro-vision"].

Definition simulateImageGeneration : string :=
  "data:image/png;base64,iVBORw0KGgoAAAANSUhEUgAAAAEAAAABCAYAAAAfFcSJAAAADUlEQVR42mNkYPhfDwAChwGA60e6kgAAAABJRU5ErkJggg==".

Definition generateWithModel (w : World) (model : string) (variant : nat)
  : Outcome GenerationResult :=
  match attempts w variant with
  | Failed msg => Throws msg
  | Generated r1 r2 r3 time =>
      Returns {|
        imageData := simulateImageGeneration;
        qualityScore := 0.7 + r1 * 0.3;
        semanticCoherence := 0.8 + r2 * 0.2;
        aestheticScore := 0.75 + r3 * 0.25;
        iteration := 0;
        metadata := {|
          modelsUsed := [model];
          techniquesApplied := ["ensemble-generation"; "semantic-enhancement"];
          processingTime := time;
          refinementHistory := [] |} |}
  end.

(** The [for] loop of [generateEnsemble] over the models still to try,
    [i] being the index of the first of them. *)
Fixpoint ensembleLoop (w : World) (i : nat) (todo : list string)
  : list GenerationResult :=
  match todo with
  | [] => []
  | model :: rest =>
      match generateWithModel w model i with
      | Returns result => result :: ensembleLoop w (S i) rest
      | Throws _ => ensembleLoop w (S i) rest
      end
  end.

(** [i] ranges over [0 .. Math.min(config.ensembleSize, models.length) - 1]. *)
Definition generateEnsemble (w : World) (cfg : AMSSConfig)
  : list GenerationResult :=
  ensembleLoop w 0
    (firstn (Nat.min (ensembleSize cfg) (List.length models)) models).

(** [(a, b) => b.qualityScore - a.qualityScore] as a may-precede test. *)
Definition byQuality (a b : GenerationResult) : bool :=
  Qle_bool (qualityScore b - qualityScore a) 0.

(** [[...new Set(l)]]: the first occurrence of every element. *)
Fixpoint uniqueFrom (seen l : list string) : list string :=
  match l with
  | [] => []
  | s :: rest =>
      if existsb (String.eqb s) seen then uniqueFrom seen rest
      else s :: uniqueFrom (s :: seen) rest
  end.

Definition noCandidates : string := "No ensemble results to fuse".

Definition adaptiveFusion (ensembleResults : list GenerationResult)
  : Outcome GenerationResult :=
  match JSArray.sort byQuality ensembleResults with
  | [] => Throws noCandidates
  | best :: others =>
      Returns {|
        imageData := imageData best;
        qualityScore := qualityScore best;
        semanticCoherence := semanticCoherence best;
        aestheticScore := aestheticScore best;
        iteration := 0;
        metadata := {|
          modelsUsed :=
            uniqueFrom []
              (flat_map (fun r => modelsUsed (metadata r)) (best :: others));
          techniquesApplied := ["adaptive-fusion"; "quality-weighting"];
          processingTime := 0;
          refinementHistory := [] |} |}
  end.

Definition with_metadata (r : GenerationResult) (m : Metadata) : GenerationResult :=
  {| imageData := imageData r;
     qualityScore := qualityScore r;
     semanticCoherence := semanticCoherence r;
     aestheticScore := aestheticScore r;
     iteration := iteration r;
     metadata := m |}.

(** [refineImage] of the engine, [rnd] being its [Math.random()]. *)
Definition refineImage (r : GenerationResult) (rnd : Q) : GenerationResult :=
  let qualityImprovement := 0.05 + rnd * 0.1 in
  {| imageData := imageData r;
     qualityScore := JS.min 1.0 (qualityScore r + qualityImprovement);
     semanticCoherence :=
       JS.min 1.0 (semanticCoherence r + qualityImprovement * 0.8);
     aestheticScore := JS.min 1.0 (aestheticScore r + qualityImprovement * 0.9);
     iteration := iteration r + 1;
     metadata := {|
       modelsUsed := modelsUsed (metadata r);
       techniquesApplied :=
         techniquesApplied (metadata r) ++ ["iterative-refinement"];
       processingTime := processingTime (metadata r);
       refinementHistory := refinementHistory (metadata r) |} |}.

Definition calculateImprovements (previous current : GenerationResult)
  : Improvements := {|
  imp_quality := qualityScore current - qualityScore previous;
  imp_semanticCoherence := semanticCoherence current - semanticCoherence previous;
  imp_aestheticScore := aestheticScore current - aestheticScore previous
|}.

(** The [for] loop of [iterativeRefinement]: [todo] steps remain, [i] is the
    loop counter. *)
Fixpoint refinementLoop (w : World) (cfg : AMSSConfig) (todo i : nat)
  (currentResult : GenerationResult) (history : list HistoryEntry)
  : GenerationResult * list HistoryEntry :=
  match todo with
  | O => (currentResult, history)
  | S todo' =>
      let refinedResult := refineImage currentResult (refineRandom w i) in
      let history' :=
        history ++ [{| h_iteration := i;
                       h_quality := qualityScore refinedResult;
                       h_improvements :=
                         calculateImprovements currentResult refinedResult |}] in
      if JS.geb (qualityScore refinedResult) (qualityThreshold cfg)
      then (refinedResult, history')
      else refinementLoop w cfg todo' (S i) refinedResult history'
  end.

Definition iterativeRefinement (w : World) (result : GenerationResult)
  (cfg : AMSSConfig) : GenerationResult :=
  let (currentResult, history) :=
    refinementLoop w cfg (refinementSteps cfg) 0 result [] in
  with_metadata currentResult
    {| modelsUsed := modelsUsed (metadata currentResult);
       techniquesApplied := techniquesApplied (metadata currentResult);
       processingTime := processingTime (metadata currentResult);
       refinementHistory := history |}.

(** [comprehensiveQualityAssessment] fixes clarity at 0.85 and colour
    harmony at 0.92; only coherence varies. *)
Definition applyFinalOptimizations (r : GenerationResult) : GenerationResult :=
  let o1 := if JS.ltb 0.85 0.9 then ["clarity-enhancement"] else [] in
  let o2 := if JS.ltb 0.92 0.9 then o1 ++ ["color-optimization"] else o1 in
  let optimizations :=
    if JS.ltb (semanticCoherence r) 0.85
    then o2 ++ ["semantic-refinement"] else o2 in
  {| imageData := imageData r;
     qualityScore := JS.min 1.0 (qualityScore r + 0.05);
     semanticCoherence := semanticCoherence r;
     aestheticScore := aestheticScore r;
     iteration := iteration r;
     metadata := {|
       modelsUsed := modelsUsed (metadata r);
       techniquesApplied :=
         techniquesApplied (metadata r) ++ optimizations ++ ["final-optimization"];
       processingTime := processingTime (metadata r);
       refinementHistory := refinementHistory (metadata r) |} |}.

Definition assessAndOptimize (r : GenerationResult) : GenerationResult :=
  applyFinalOptimizations r.

(** [generateImage] once phase 1 (the semantic analysis, whose result only
    enters the prompts) has returned: phases 2 to 5. *)
Definition generateImage (w : World) (cfg : AMSSConfig)
  : Outcome GenerationResult :=
  let ensembleResults := generateEnsemble w cfg in
  match adaptiveFusion ensembleResults with
  | Throws msg => Throws msg
  | Returns fusedResult =>
      let refinedResult := iterativeRefinement w fusedResult cfg in
      let finalResult := assessAndOptimize refinedResult in
      Returns (with_metadata finalResult
        {| modelsUsed := modelsUsed (metadata finalResult);
           techniquesApplied := techniquesApplied (metadata finalResult);
           processingTime := totalTime w;
           refinementHistory := refinementHistory (metadata finalResult) |})
  end.

End AMSS.

(** ** [SemanticAnalyzer] (semantic analysis module) *)

Module Semantic.

Inductive Depth := basic | detailed | comprehensive.

(** One own property of the [options] object; [None] is a property set to
    [undefined]. *)
Inductive Property :=
| depth (d : option Depth)
| includeStyle (b : option bool)
| includeEmotional (b : option bool)
| includeCultural (b : option bool).

(** The [options] object: its own properties in insertion order. *)
Definition Options := list Property.

Definition dquote : string := String (ascii_of_nat 34) EmptyString.

Definition quoted (s : string) : string := dquote ++ s ++ dquote.

Definition depthName (d : Depth) : string :=
  match d with
  | basic => "basic"
  | detailed => "detailed"
  | comprehensive => "comprehensive"
  end.

Definition boolName (b : bool) : string := if b then "true" else "false".

(** A property as [JSON.stringify] prints it; undefined ones are left out. *)
Definition member (p : Property) : list string :=
  match p with
  | depth (Some d) =>
      [(quoted "depth" ++ ":" ++ quoted (depthName d))%string]
  | includeStyle (Some b) =>
      [(quoted "includeStyle" ++ ":" ++ boolName b)%string]
  | includeEmotional (Some b) =>
      [(quoted "includeEmotional" ++ ":" ++ boolName b)%string]
  | includeCultural (Some b) =>
      [(quoted "includeCultural" ++ ":" ++ boolName b)%string]
  | _ => []
  end.

(** [JSON.stringify(options)] *)
Definition stringify (options : Options) : string :=
  "{" ++ String.concat "," (flat_map member options) ++ "}".

Definition generateCacheKey (imageData : string) (options : Options) : string :=
  let optionsStr := stringify options in
  String.substring 0 50 imageData ++ "_" ++ optionsStr.

(** The destructuring [const { depth = 'detailed', ... } = options]. *)
Fixpoint get_depth (options : Options) : Depth :=
  match options with
  | [] => detailed
  | depth (Some d) :: _ => d
  | depth None :: _ => detailed
  | _ :: rest => get_depth rest
  end.

Fixpoint get_includeStyle (options : Options) : bool :=
  match options with
  | [] => true
  | includeStyle (Some b) :: _ => b
  | includeStyle None :: _ => true
  | _ :: rest => get_includeStyle rest
  end.

Fixpoint get_includeEmotional (options : Options) : bool :=
  match options with
  | [] => true
  | includeEmotional (Some b) :: _ => b
  | includeEmotional None :: _ => true
  | _ :: rest => get_includeEmotional rest
  end.

Fixpoint get_includeCultural (options : Options) : bool :=
  match options with
  | [] => false
  | includeCultural (Some b) :: _ => b
  | includeCultural None :: _ => false
  | _ :: rest => get_includeCultural rest
  end.

Section Analyzer.

(** What the five phases of an analysis produce.  None of the phases
    throws: each backend request sits in a [try] whose [catch] returns a
    default. *)
Context {Concepts Graph StyleSignature Emotional Cultural : Type}.

Record Analysis := {
  concepts : Concepts;
  graph : Graph;
  styleSignature : option StyleSignature;
  emotionalProfile : option Emotional;
  culturalContext : option Cultural
}.

(** The phases as they behave during one call of [analyzeImage] (their
    results depend on the backend's replies at that time). *)
Record Phases := {
  extractConcepts : string -> Depth -> Concepts;
  buildSemanticGraph : Concepts -> Graph;
  analyzeStyle : string -> StyleSignature;
  analyzeEmotionalContent : string -> Concepts -> Emotional;
  analyzeCulturalContext : string -> Concepts -> Cultural
}.

Record SemanticAnalyzer := { analysisCache : AMap.t Analysis }.

Definition analyzeImage (ph : Phases) (a : SemanticAnalyzer)
  (imageData : string) (options : Options) : SemanticAnalyzer * Analysis :=
  let cacheKey := generateCacheKey imageData options in
  match AMap.get cacheKey (analysisCache a) with
  | Some cached => (a, cached)
  | None =>
      let cs := extractConcepts ph imageData (get_depth options) in
      let result := {|
        concepts := cs;
        graph := buildSemanticGraph ph cs;
        styleSignature :=
          if get_includeStyle options
          then Some (analyzeStyle ph imageData) else None;
        emotionalProfile :=
          if get_includeEmotional options
          then Some (analyzeEmotionalContent ph imageData cs) else None;
        culturalContext :=
          if get_includeCultural options
          then Some (analyzeCulturalContext ph imageData cs) else None |} in
      ({| analysisCache := AMap.set cacheKey result (analysisCache a) |}, result)
  end.

Definition clearCache (a : SemanticAnalyzer) : SemanticAnalyzer :=
  {| analysisCache := AMap.empty |}.

End Analyzer.

Arguments Analysis : clear implicits.
Arguments Phases : clear implicits.
Arguments SemanticAnalyzer : clear implicits.

End Semantic.

(** ** [RealTimeOptimizer]: the cycles under way

    [runOptimizationCycle] is started by the timer callback, which tests
    [isOptimizing] first, and by the [force-optimization] action of the
    optimizer route, which calls it directly.  A cycle sets [isOptimizing]
    when it starts, before its first [await], and clears it in its
    [finally] block.  The state here is that flag together with the number
    of cycles that have started and not yet reached their [finally]; what
    the body of a cycle does to the rest of the object is left out. *)

Module InFlight.

Inductive Call :=
| TimerFires           (* the callback handed to [setInterval] runs *)
| ForceOptimization    (* the route calls [runOptimizationCycle] *)
| CycleEnds.           (* a cycle under way reaches its [finally] *)

Record State := { isOptimizing : bool; inFlight : nat }.

(** A new optimizer: [isOptimizing = false], no cycle under way. *)
Definition idle : State := {| isOptimizing := false; inFlight := 0 |}.

(** The start of [runOptimizationCycle]: [this.isOptimizing = true]. *)
Definition runOptimizationCycle (s : State) : State :=
  {| isOptimizing := true; inFlight := S (inFlight s) |}.

(** [if (!this.isOptimizing) await this.runOptimizationCycle()] *)
Definition timerCallback (s : State) : State :=
  if negb (isOptimizing s) then runOptimizationCycle s else s.

(** [finally { this.isOptimizing = false }] of one of the cycles under
    way. *)
Definition finally (s : State) : State :=
  match inFlight s with
  | O => s
  | S n => {| isOptimizing := false; inFlight := n |}
  end.

Definition step (s : State) (c : Call) : State :=
  match c with
  | TimerFires => timerCallback s
  | ForceOptimization => runOptimizationCycle s
  | CycleEnds => finally s
  end.

Definition run (s : State) (calls : list Call) : State := fold_left step calls s.

End InFlight.

(** ** [RealTimeOptimizer]: metric collection and statistics *)

Module OptimizerStats.
Import Optimizer.

(** [collectMetrics]; [rnd i] is the value of the [i]-th call of
    [Math.random()], a number in [0, 1).  The sums are exact here; the
    engine rounds them, so that one of its sums can reach the upper end of
    its range (example [memoryUsage_can_reach_threshold]). *)
Definition collectMetrics (rnd : nat -> Q) : OptimizationMetrics := {|
  performance := {|
    processingSpeed := 0.7 + rnd 0%nat * 0.3;
    memoryUsage := 0.4 + rnd 1%nat * 0.4;
    responseTime := 0.6 + rnd 2%nat * 0.3;
    throughput := 0.8 + rnd 3%nat * 0.2;
    perf_scalability := 0.75 + rnd 4%nat * 0.25 |};
  quality := {|
    accuracy := 0.8 + rnd 5%nat * 0.2;
    consistency := 0.85 + rnd 6%nat * 0.15;
    robustness := 0.75 + rnd 7%nat * 0.25;
    fidelity := 0.8 + rnd 8%nat * 0.2;
    innovation := 0.7 + rnd 9%nat * 0.3 |};
  efficiency := {|
    resourceUtilization := 0.6 + rnd 10%nat * 0.3;
    energyEfficiency := 0.7 + rnd 11%nat * 0.2;
    costEffectiveness := 0.8 + rnd 12%nat * 0.2;
    timeEfficiency := 0.75 + rnd 13%nat * 0.25;
    eff_scalability := 0.8 + rnd 14%nat * 0.2 |};
  userSatisfaction := {|
    engagement := 0.7 + rnd 15%nat * 0.3;
    retention := 0.8 + rnd 16%nat * 0.2;
    satisfaction := 0.75 + rnd 17%nat * 0.25;
    feedbackScore := 0.7 + rnd 18%nat * 0.3;
    recommendation := 0.8 + rnd 19%nat * 0.2 |}
|}.

(** The object [getStats] returns. *)
Record Stats := {
  totalOptimizations : nat;
  successfulOptimizations : nat;
  successRate : Q;
  averageImprovement : Q;
  activeFeedbackLoops : nat;
  metricsHistoryLength : nat;
  stats_config : OptimizationConfig;
  stats_predictionModel : option PredictionModel
}.

(** An array length as a number. *)
Definition num (n : nat) : Q := inject_Z (Z.of_nat n).

Definition getStats (o : RealTimeOptimizer) : Stats :=
  let total := List.length (optimizationHistory o) in
  let successful := List.length (filter success (optimizationHistory o)) in
  {| totalOptimizations := total;
     successfulOptimizations := successful;
     successRate :=
       if (0 <? total)%nat then num successful / num total else 0;
     averageImprovement :=
       if (0 <? total)%nat
       then fold_left (fun sum r => sum + improvement r)
              (optimizationHistory o) 0 / num total
       else 0;
     activeFeedbackLoops := AMap.size (feedbackLoops o);
     metricsHistoryLength := List.length (metricsHistory o);
     stats_config := config o;
     stats_predictionModel := predictionModel o |}.

End OptimizerStats.

(** ** [StyleTransferEngine]: style profiles, refinement and [transferStyle] *)

Module StyleTransferMore.
Import StyleTransfer.

(** [x || d] for a string property: [undefined] and the empty string are
    falsy. *)
Definition str_or (x : option string) (d : string) : string :=
  match x with
  | Some s => if String.eqb s "" then d else s
  | None => d
  end.

(** [x || []] for an array property: every array is truthy. *)
Definition list_or {A : Type} (x : option (list A)) : list A :=
  match x with
  | Some l => l
  | None => []
  end.

(** The parsed reply of a style analysis: an object whose properties, where
    present, have the types the [StyleProfile] interface declares. *)
Record BrushworkData := {
  b_technique : option string;
  b_texture : option Q;
  b_strokeDirection : option (list string);
  b_consistency : option Q;
  b_expressiveness : option Q;
  b_fluidity : option Q
}.

Record CompositionData := {
  c_balance : option string;
  c_focalPoints : option (list FocalPoint);
  c_rhythm : option string;
  c_flow : option string;
  c_depth : option Q;
  c_movement : option string
}.

Record LightingData := {
  l_type : option string;
  l_direction : option string;
  l_intensity : option Q;
  l_contrast : option Q;
  l_shadows : option Q;
  l_highlights : option Q;
  l_atmosphere : option Q
}.

Record MoodData := {
  m_primary : option string;
  m_secondary : option string;
  m_intensity : option Q;
  m_emotionalImpact : option Q;
  m_atmosphere : option string;
  m_resonance : option Q
}.

Record StyleData := {
  s_name : option string;
  s_colorPalette : option (list string);
  s_brushwork : option BrushworkData;
  s_composition : option CompositionData;
  s_lighting : option LightingData;
  s_mood : option MoodData;
  s_artisticMovement : option string;
  s_culturalContext : option string;
  s_complexity : option Q;
  s_adaptability : option Q
}.

(** [data.sub?.field] *)
Definition opt {D A : Type} (d : option D) (field : D -> option A) : option A :=
  match d with
  | Some s => field s
  | None => None
  end.

Definition decimal (n : nat) : string := NilEmpty.string_of_uint (Nat.to_uint n).

Definition processStyleProfile (data : StyleData) (index : nat) : StyleProfile := {|
  id := "style_" ++ decimal index;
  name := str_or (s_name data) ("Style " ++ decimal (index + 1));
  colorPalette := list_or (s_colorPalette data);
  brushwork := {|
    technique := str_or (opt (s_brushwork data) b_technique) "unknown";
    texture := JS.or_default (opt (s_brushwork data) b_texture) 0.5;
    strokeDirection := list_or (opt (s_brushwork data) b_strokeDirection);
    bw_consistency := JS.or_default (opt (s_brushwork data) b_consistency) 0.5;
    expressiveness := JS.or_default (opt (s_brushwork data) b_expressiveness) 0.5;
    fluidity := JS.or_default (opt (s_brushwork data) b_fluidity) 0.5 |};
  composition := {|
    balance := str_or (opt (s_composition data) c_balance) "dynamic";
    focalPoints := list_or (opt (s_composition data) c_focalPoints);
    rhythm := str_or (opt (s_composition data) c_rhythm) "regular";
    flow := str_or (opt (s_composition data) c_flow) "smooth";
    depth := JS.or_default (opt (s_composition data) c_depth) 0.5;
    movement := str_or (opt (s_composition data) c_movement) "static" |};
  lighting := {|
    lighting_type := str_or (opt (s_lighting data) l_type) "natural";
    direction := str_or (opt (s_lighting data) l_direction) "frontal";
    lt_intensity := JS.or_default (opt (s_lighting data) l_intensity) 0.5;
    contrast := JS.or_default (opt (s_lighting data) l_contrast) 0.5;
    shadows := JS.or_default (opt (s_lighting data) l_shadows) 0.5;
    highlights := JS.or_default (opt (s_lighting data) l_highlights) 0.5;
    lt_atmosphere := JS.or_default (opt (s_lighting data) l_atmosphere) 0.5 |};
  mood := {|
    primary := str_or (opt (s_mood data) m_primary) "neutral";
    secondary := str_or (opt (s_mood data) m_secondary) "neutral";
    intensity := JS.or_default (opt (s_mood data) m_intensity) 0.5;
    emotionalImpact := JS.or_default (opt (s_mood data) m_emotionalImpact) 0.5;
    atmosphere := str_or (opt (s_mood data) m_atmosphere) "neutral";
    resonance := JS.or_default (opt (s_mood data) m_resonance) 0.5 |};
  artisticMovement := str_or (s_artisticMovement data) "contemporary";
  culturalContext := str_or (s_culturalContext data) "modern";
  complexity := JS.or_default (s_complexity data) 0.5;
  adaptability := JS.or_default (s_adaptability data) 0.5
|}.

(** A backend reply, as a request of the engine sees it: the request
    rejects (or the response has no [choices] array), the content is
    missing or empty, it does not parse, it parses to [null], or it parses
    to data. *)
Inductive Reply (D : Type) :=
| CallFails
| NoContent
| Unparsable
| ParsedNull
| Parsed (data : D).

Arguments CallFails {D}.
Arguments NoContent {D}.
Arguments Unparsable {D}.
Arguments ParsedNull {D}.
Arguments Parsed {D} data.

(** [analyzeStyleImage]: every failure is answered by the default
    profile (reading a property of [null] throws into the [catch]). *)
Definition analyzeStyleImage (reply : Reply StyleData) (index : nat)
  : StyleProfile :=
  match reply with
  | Parsed data => processStyleProfile data index
  | _ => getDefaultStyleProfile index
  end.

(** The [for] loop of [extractStyleProfiles] from index [i] on;
    [replies i] answers the request for the [i]-th style image.  The [catch]
    of the loop is never entered, [analyzeStyleImage] does not throw. *)
Fixpoint extractFrom (replies : nat -> Reply StyleData) (i : nat)
  (styleImages : list string) : list StyleProfile :=
  match styleImages with
  | [] => []
  | _ :: rest =>
      analyzeStyleImage (replies i) i :: extractFrom replies (S i) rest
  end.

Definition extractStyleProfiles (replies : nat -> Reply StyleData)
  (styleImages : list string) : list StyleProfile :=
  extractFrom replies 0 styleImages.

(** [analyzeContentStructure]: [None] is the value [null], which
    [JSON.parse] gives for the content [null]; every failure gives the
    empty object. *)
Definition analyzeContentStructure (reply : Reply ContentAnalysis)
  : option ContentAnalysis :=
  match reply with
  | Parsed data => Some data
  | ParsedNull => None
  | _ => Some {| ca_regions := None |}
  end.

Record FusionQuality := {
  fq_overall : Q;
  styleFidelity : Q;
  contentPreservation : Q;
  aestheticHarmony : Q;
  technicalQuality : Q;
  fq_semanticCoherence : Q
}.

Record FusionQualityData := {
  q_overall : option Q;
  q_styleFidelity : option Q;
  q_contentPreservation : option Q;
  q_aestheticHarmony : option Q;
  q_technicalQuality : option Q;
  q_semanticCoherence : option Q
}.

Definition processFusionQuality (data : FusionQualityData) : FusionQuality := {|
  fq_overall := JS.or_default (q_overall data) 0.5;
  styleFidelity := JS.or_default (q_styleFidelity data) 0.5;
  contentPreservation := JS.or_default (q_contentPreservation data) 0.5;
  aestheticHarmony := JS.or_default (q_aestheticHarmony data) 0.5;
  technicalQuality := JS.or_default (q_technicalQuality data) 0.5;
  fq_semanticCoherence := JS.or_default (q_semanticCoherence data) 0.5
|}.

Definition getDefaultFusionQuality : FusionQuality := {|
  fq_overall := 0.5;
  styleFidelity := 0.5;
  contentPreservation := 0.5;
  aestheticHarmony := 0.5;
  technicalQuality := 0.5;
  fq_semanticCoherence := 0.5
|}.

Definition assessFusionQuality (reply : Reply FusionQualityData) : FusionQuality :=
  match reply with
  | Parsed data => processFusionQuality data
  | _ => getDefaultFusionQuality
  end.

(** Both branches of [performAdaptiveTransfer] return the content image. *)
Definition performAdaptiveTransfer (contentImage : string) : string :=
  contentImage.

Definition enhanceStyleFidelity (image : string) : string := image.
Definition enhanceContentPreservation (image : string) : string := image.
Definition enhanceAestheticHarmony (image : string) : string := image.

Record AdaptationStep := {
  as_iteration : nat;
  adaptationType : string;
  targetRegion : string;
  as_qualityBefore : Q;
  as_qualityAfter : Q;
  as_improvement : Q
}.

Record Refined := {
  rf_image : string;
  rf_quality : FusionQuality;
  rf_techniques : list string;
  rf_adaptationHistory : list AdaptationStep
}.

Definition refineFusion (image : string) (quality : FusionQuality) : Refined :=
  let '(i1, t1) :=
    if JS.ltb (styleFidelity quality) 0.7
    then (enhanceStyleFidelity image, ["style-fidelity-enhancement"])
    else (image, []) in
  let '(i2, t2) :=
    if JS.ltb (contentPreservation quality) 0.7
    then (enhanceContentPreservation i1,
          t1 ++ ["content-preservation-enhancement"])
    else (i1, t1) in
  let '(i3, t3) :=
    if JS.ltb (aestheticHarmony quality) 0.7
    then (enhanceAestheticHarmony i2, t2 ++ ["aesthetic-harmony-enhancement"])
    else (i2, t2) in
  {| rf_image := i3;
     rf_quality := quality;
     rf_techniques := t3;
     rf_adaptationHistory := [] |}.

Definition compositeProfile : StyleProfile := {|
  id := "composite";
  name := "Composite Style";
  colorPalette := [];
  brushwork := {|
    technique := "mixed"; texture := 0.5; strokeDirection := [];
    bw_consistency := 0.5; expressiveness := 0.5; fluidity := 0.5 |};
  composition := {|
    balance := "dynamic"; focalPoints := []; rhythm := "mixed";
    flow := "adaptive"; depth := 0.5; movement := "dynamic" |};
  lighting := {|
    lighting_type := "mixed"; direction := "adaptive"; lt_intensity := 0.5;
    contrast := 0.5; shadows := 0.5; highlights := 0.5; lt_atmosphere := 0.5 |};
  mood := {|
    primary := "mixed"; secondary := "balanced"; intensity := 0.5;
    emotionalImpact := 0.5; atmosphere := "harmonious"; resonance := 0.5 |};
  artisticMovement := "fusion";
  culturalContext := "contemporary";
  complexity := 0.7;
  adaptability := 0.8
|}.

Definition createCompositeProfile (styleProfiles : list StyleProfile)
  : StyleProfile :=
  match styleProfiles with
  | [only] => only
  | _ => compositeProfile
  end.

Record FusionMetadata := {
  fm_processingTime : Z;
  fm_techniquesApplied : list string;
  fm_adaptationHistory : list AdaptationStep
}.

Record FusionResult := {
  fusedImage : string;
  styleProfile : StyleProfile;
  fusionMap : FusionMap;
  fr_quality : FusionQuality;
  fr_metadata : FusionMetadata
}.

(** [Partial<StyleTransferConfig>] *)
Record PartialConfig := {
  p_strength : option Q;
  p_preserveContent : option Q;
  p_colorInfluence : option Q;
  p_textureInfluence : option Q;
  p_compositionInfluence : option Q;
  p_adaptiveBlending : option bool;
  p_multiStyle : option bool;
  p_semanticAwareness : option bool
}.

Definition noConfig : PartialConfig := {|
  p_strength := None;
  p_preserveContent := None;
  p_colorInfluence := None;
  p_textureInfluence := None;
  p_compositionInfluence := None;
  p_adaptiveBlending := None;
  p_multiStyle := None;
  p_semanticAwareness := None
|}.

Definition fullConfig (styleImages : list string) (config : PartialConfig)
  : StyleTransferConfig := {|
  strength := match p_strength config with Some v => v | None => 0.7 end;
  preserveContent :=
    match p_preserveContent config with Some v => v | None => 0.6 end;
  colorInfluence :=
    match p_colorInfluence config with Some v => v | None => 0.8 end;
  textureInfluence :=
    match p_textureInfluence config with Some v => v | None => 0.6 end;
  compositionInfluence :=
    match p_compositionInfluence config with Some v => v | None => 0.5 end;
  adaptiveBlending :=
    match p_adaptiveBlending config with Some v => v | None => true end;
  multiStyle :=
    match p_multiStyle config with
    | Some v => v
    | None => (1 <? List.length styleImages)%nat
    end;
  semanticAwareness :=
    match p_semanticAwareness config with Some v => v | None => true end
|}.

Section Engine.

(** [JSON.stringify] on a configuration object (the printing of numbers is
    not modelled). *)
Variable stringify : StyleTransferConfig -> string.

Definition generateCacheKey (contentImage : string)
  (styleImages : list string) (cfg : StyleTransferConfig) : string :=
  let configStr := stringify cfg in
  let styleStr := String.concat "|" styleImages in
  String.substring 0 50 contentImage ++ "_"
  ++ String.substring 0 50 styleStr ++ "_" ++ configStr.

Record StyleTransferEngine := {
  styleProfiles : AMap.t StyleProfile;
  fusionCache : AMap.t FusionResult
}.

(** The constructor. *)
Definition new : StyleTransferEngine :=
  {| styleProfiles := AMap.empty; fusionCache := AMap.empty |}.

(** The outside world of one [transferStyle] call. *)
Record World := {
  styleReplies : nat -> Reply StyleData;
  contentReply : Reply ContentAnalysis;
  qualityReply : Reply FusionQualityData;
  elapsed : Z
}.

(** [transferStyle]; [None] in the second component when the call rejects
    with the [TypeError] of [generateFusionMap]. *)
Definition transferStyle (w : World) (eng : StyleTransferEngine)
  (contentImage : string) (styleImages : list string) (config : PartialConfig)
  : StyleTransferEngine * option FusionResult :=
  let cfg := fullConfig styleImages config in
  let cacheKey := generateCacheKey contentImage styleImages cfg in
  match AMap.get cacheKey (fusionCache eng) with
  | Some cached => (eng, Some cached)
  | None =>
      let profiles := extractStyleProfiles (styleReplies w) styleImages in
      match analyzeContentStructure (contentReply w) with
      | None => (eng, None)
      | Some contentAnalysis =>
          match generateFusionMap contentAnalysis profiles cfg with
          | None => (eng, None)
          | Some map =>
              let fused := performAdaptiveTransfer contentImage in
              let quality := assessFusionQuality (qualityReply w) in
              let finalResult := refineFusion fused quality in
              let result := {|
                fusedImage := rf_image finalResult;
                styleProfile := createCompositeProfile profiles;
                fusionMap := map;
                fr_quality := rf_quality finalResult;
                fr_metadata := {|
                  fm_processingTime := elapsed w;
                  fm_techniquesApplied := rf_techniques finalResult;
                  fm_adaptationHistory := rf_adaptationHistory finalResult |} |} in
              ({| styleProfiles := styleProfiles eng;
                  fusionCache := AMap.set cacheKey result (fusionCache eng) |},
               Some result)
          end
      end
  end.

Definition clearCache (eng : StyleTransferEngine) : StyleTransferEngine :=
  {| styleProfiles := styleProfiles eng; fusionCache := AMap.empty |}.

End Engine.

End StyleTransferMore.

(** ** [SemanticAnalyzer]: concepts and the semantic graph *)

Module SemanticGraphs.

Record Position := { px : Q; py : Q; pwidth : Q; pheight : Q }.

Record Relationship := {
  rel_type : string;
  target : string;
  strength : Q;
  description : string
}.

(** A relationship as the backend reports it: every property may be
    absent. *)
Record RawRelationship := {
  raw_type : option string;
  raw_target : option string;
  raw_strength : option Q;
  raw_description : option string
}.

(** [x || d] for a string property *)
Definition str_or (x : option string) (d : string) : string :=
  match x with
  | Some s => if String.eqb s "" then d else s
  | None => d
  end.

Definition processRelationships (rawRelationships : list RawRelationship)
  : list Relationship :=
  List.map
    (fun rel => {| rel_type := str_or (raw_type rel) "functional";
                   target := str_or (raw_target rel) "";
                   strength := JS.or_default (raw_strength rel) 0.5;
                   description := str_or (raw_description rel) "" |})
    rawRelationships.

Section Concepts.

(** The attribute bag of a concept ([Record<string, any>]) is carried along
    unread; [noAttributes] is the empty object. *)
Context {Attributes : Type}.
Variable noAttributes : Attributes.

Record SemanticConcept := {
  id : string;
  label : string;
  confidence : Q;
  category : string;
  attributes : Attributes;
  relationships : list Relationship;
  spatialPosition : option Position;
  emotionalWeight : Q;
  culturalContext : option string
}.

Record RawConcept := {
  raw_label : option string;
  raw_confidence : option Q;
  raw_category : option string;
  raw_attributes : option Attributes;
  raw_relationships : option (list RawRelationship);
  raw_spatialPosition : option Position;
  raw_emotionalWeight : option Q;
  raw_culturalContext : option string
}.

(** [rawConcepts.map((concept, index) => ...)] from index [i] on *)
Fixpoint processFrom (i : nat) (rawConcepts : list RawConcept)
  : list SemanticConcept :=
  match rawConcepts with
  | [] => []
  | concept :: rest =>
      {| id := "concept_" ++ StyleTransferMore.decimal i;
         label := str_or (raw_label concept) "unknown";
         confidence := JS.or_default (raw_confidence concept) 0.5;
         category := str_or (raw_category concept) "object";
         attributes := match raw_attributes concept with
                       | Some a => a
                       | None => noAttributes
                       end;
         relationships :=
           processRelationships
             (match raw_relationships concept with
              | Some rs => rs
              | None => []
              end);
         spatialPosition := raw_spatialPosition concept;
         emotionalWeight := JS.or_default (raw_emotionalWeight concept) 0.5;
         culturalContext := raw_culturalContext concept |}
      :: processFrom (S i) rest
  end.

Definition processConcepts (rawConcepts : list RawConcept)
  : list SemanticConcept :=
  processFrom 0 rawConcepts.

Record SemanticNode := {
  node_id : string;
  concept : SemanticConcept;
  centrality : Q;
  cluster : string
}.

Record SemanticEdge := {
  source : string;
  edge_target : string;
  relationship : Relationship;
  weight : Q
}.

(** [complexity] is [None] when the computed number is not finite. *)
Record Metadata := {
  totalConcepts : nat;
  complexity : option Q;
  dominantTheme : string;
  emotionalTone : string
}.

Record SemanticGraph := {
  nodes : list SemanticNode;
  edges : list SemanticEdge;
  metadata : Metadata
}.

(** An array length as a number. *)
Definition num (n : nat) : Q := inject_Z (Z.of_nat n).

Definition calculateCentrality (c : SemanticConcept)
  (allConcepts : list SemanticConcept) : Q :=
  let relationshipCount := List.length (relationships c) in
  let incomingRelationships :=
    List.length
      (filter (fun c' => existsb (fun r => String.eqb (target r) (id c))
                           (relationships c'))
         allConcepts) in
  (num relationshipCount + num incomingRelationships)
  / num (List.length allConcepts).

Definition assignCluster (c : SemanticConcept)
  (allConcepts : list SemanticConcept) : string :=
  if String.eqb (category c) "style" then "style"
  else if String.eqb (category c) "emotion" then "emotion"
  else if String.eqb (category c) "setting" then "environment"
  else
    let strongRelationships :=
      filter (fun r => JS.gtb (strength r) 0.7) (relationships c) in
    if (0 <? List.length strongRelationships)%nat then "connected"
    else "isolated".

(** [calculateComplexity].  With exactly one edge the density is the
    quotient [1 / 0], which is [Infinity] in JavaScript, and so is the
    result: [None]. *)
Definition calculateComplexity (es : list SemanticEdge) : option Q :=
  match es with
  | [] => Some 0
  | [_] => None
  | _ =>
      let n := num (List.length es) in
      let density := n / (n * (n - 1) / 2) in
      let avgWeight := fold_left (fun sum e => sum + weight e) es 0 / n in
      Some ((density + avgWeight) / 2)
  end.

(** The first loop of [findDominantTheme]: the number of concepts per
    category, in a [Map]. *)
Definition themeCounts (concepts : list SemanticConcept) : AMap.t nat :=
  fold_left
    (fun counts c =>
       let theme := category c in
       AMap.set theme
         (match AMap.get theme counts with
          | Some n => n
          | None => 0
          end + 1)%nat
         counts)
    concepts AMap.empty.

Definition findDominantTheme (concepts : list SemanticConcept) : string :=
  snd (fold_left
         (fun (acc : nat * string) entry =>
            if (fst acc <? snd entry)%nat then (snd entry, fst entry) else acc)
         (themeCounts concepts) (0%nat, "general")).

Definition calculateEmotionalTone (concepts : list SemanticConcept) : string :=
  let emotionalConcepts :=
    filter (fun c => String.eqb (category c) "emotion") concepts in
  match emotionalConcepts with
  | [] => "neutral"
  | _ =>
      let avgEmotionalWeight :=
        fold_left (fun sum c => sum + emotionalWeight c) emotionalConcepts 0
        / num (List.length emotionalConcepts) in
      if JS.gtb avgEmotionalWeight 0.7 then "intense"
      else if JS.gtb avgEmotionalWeight 0.4 then "moderate"
      else "subtle"
  end.

Definition buildSemanticGraph (concepts : list SemanticConcept) : SemanticGraph :=
  let ns :=
    List.map
      (fun c => {| node_id := id c;
                   concept := c;
                   centrality := calculateCentrality c concepts;
                   cluster := assignCluster c concepts |})
      concepts in
  let es :=
    flat_map
      (fun c =>
         List.map
           (fun rel => {| source := id c;
                          edge_target := target rel;
                          relationship := rel;
                          weight := strength rel |})
           (relationships c))
      concepts in
  {| nodes := ns;
     edges := es;
     metadata := {| totalConcepts := List.length concepts;
                    complexity := calculateComplexity es;
                    dominantTheme := findDominantTheme concepts;
                    emotionalTone := calculateEmotionalTone concepts |} |}.

End Concepts.

End SemanticGraphs.

(** * Vocabulary of the statements and example inputs *)

Section OptimizerVocabulary.
Import Optimizer.

(** The names of the members every object literal inherits from
    [Object.prototype].  For these names [thresholds[metricName]] is the
    inherited member and not an entry of the table. *)
Definition inheritedNames : list string :=
  ["constructor"; "hasOwnProperty"; "isPrototypeOf"; "propertyIsEnumerable";
   "toLocaleString"; "toString"; "valueOf"; "__proto__";
   "__defineGetter__"; "__defineSetter__";
   "__lookupGetter__"; "__lookupSetter__"].

(** The severity of the feedback loop [evaluateMetric] returned, if any. *)
Definition severityOf (f : option FeedbackLoop) : option Severity :=
  option_map (fun l => severity (trigger l)) f.



(** A cycle with five breaches, detected in the order processingSpeed (9),
    accuracy (9), robustness (5), energyEfficiency (7), engagement (8), and
    the default [maxOptimizationsPerCycle = 3]. *)
Definition fiveBreaches : OptimizationMetrics := {|
  performance := {|
    processingSpeed := 0.2; memoryUsage := 0.9; responseTime := 0.9;
    throughput := 0.9; perf_scalability := 0.9 |};
  quality := {|
    accuracy := 0.4; consistency := 0.9; robustness := 0.7;
    fidelity := 0.9; innovation := 0.9 |};
  efficiency := {|
    resourceUtilization := 0.9; energyEfficiency := 0.5;
    costEffectiveness := 0.9; timeEfficiency := 0.9; eff_scalability := 0.9 |};
  userSatisfaction := {|
    engagement := 0.3; retention := 0.9; satisfaction := 0.9;
    feedbackScore := 0.9; recommendation := 0.9 |}
|}.

(** An environment for that cycle. *)
Definition exampleEnv : CycleEnv := {|
  currentMetrics := fiveBreaches;
  stamps := fun i =>
    {| stamp_id := "feedback_" ++ NilEmpty.string_of_uint (Nat.to_uint i);
       stamp_now := 0 |};
  samples := fun _ =>
    {| randomFactor := 1; collected := fiveBreaches; elapsed := 250 |};
  predictionUpdate := None
|}.

End OptimizerVocabulary.

Section RefinementVocabulary.
Import Refinement.

(** The replies to which [assessQuality] answers with the default: a
    failed request, no content, content that does not parse, and content
    that parses to [null]. *)
Definition unusable (reply : Reply) : bool :=
  match reply with
  | Parsed _ => false
  | _ => true
  end.

(** The 23 sub-scores of a quality record. *)
Definition subScores (q : QualityMetrics) : list Q :=
  [ resolution (technical q); clarity (technical q); noise (technical q);
    artifacts (technical q); compression (technical q); sharpness (technical q);
    composition (artistic q); colorHarmony (artistic q); balance (artistic q);
    contrast (artistic q); creativity (artistic q); originality (artistic q);
    aestheticAppeal (artistic q);
    coherence (semantic q); relevance (semantic q); depth (semantic q);
    consistency (semantic q); conceptualClarity (semantic q);
    meaningFulness (semantic q);
    styleAlignment (userPreference q); promptAdherence (userPreference q);
    emotionalResonance (userPreference q);
    visualSatisfaction (userPreference q) ].

(** Every step starts from the quality the previous one ended with. *)
Fixpoint chain (q0 : QualityMetrics) (l : list RefinementStep)
  (q : QualityMetrics) : Prop :=
  match l with
  | [] => q = q0
  | s :: rest => qualityBefore s = q0 /\ chain (qualityAfter s) rest q
  end.

(** A reply that carries an overall score and nothing else: every
    sub-score becomes 0.5. *)
Definition overallOnly (q : Q) : Reply :=
  Parsed {| d_overall := Some q;
            d_technical := None;
            d_artistic := None;
            d_semantic := None;
            d_userPreference := None |}.

(** A backend that rates the input 0.6, then 0.7, then 0.9. *)
Definition improvingWorld : World := {|
  backend := fun n =>
    match n with
    | 0%nat => overallOnly 0.6
    | 1%nat => overallOnly 0.7
    | _ => overallOnly 0.9
    end;
  elapsed := fun _ => 0%Z
|}.

(** A backend that rates the input 0.6 and every refined image 0.3. *)
Definition decliningWorld : World := {|
  backend := fun n =>
    match n with
    | 0%nat => overallOnly 0.6
    | _ => overallOnly 0.3
    end;
  elapsed := fun _ => 0%Z
|}.

Section LoopInvariant.
Variable cfg : RefinementConfig.
Variable q0 : QualityMetrics.

(** What holds of the loop state whenever control is in the loop or has
    left it. *)
Record Post (st : LoopState) : Prop := {
  post_length : List.length (ls_steps st) = ls_iteration st;
  post_bound : (ls_iteration st <= maxIterations cfg)%nat;
  post_entered : (ls_entered st <= maxIterations cfg)%nat;
  post_entered_conv : ls_converged st = true -> ls_entered st = ls_iteration st;
  post_index :
    forall k s, nth_error (ls_steps st) k = Some s -> iteration s = k;
  post_conv :
    forall k s, nth_error (ls_steps st) k = Some s ->
      checkConvergence (qualityAfter s) cfg = true ->
      S k = List.length (ls_steps st) /\ ls_converged st = true;
  post_chain : chain q0 (ls_steps st) (ls_quality st)
}.

(** At the loop test, moreover, every entered pass has been completed. *)
Definition Inv (st : LoopState) : Prop :=
  Post st /\ ls_entered st = ls_iteration st.

End LoopInvariant.

End RefinementVocabulary.

Section FusionVocabulary.
Import StyleTransfer.

(** The sum of a list of numbers. *)
Fixpoint qsum (l : list Q) : Q :=
  match l with
  | [] => 0
  | v :: rest => v + qsum rest
  end.

(** The weight the first loop stores for a profile. *)
Definition rawWeight (region : Region) (styleProfiles : list StyleProfile)
  (cfg : StyleTransferConfig) (profile : StyleProfile) : Q :=
  (if moodMatches region profile
   then 1 / count styleProfiles * 1.2 else 1 / count styleProfiles)
  * strength cfg.

(** The first loop, started from any map of weights. *)
Definition storeAll (region : Region) (styleProfiles : list StyleProfile)
  (cfg : StyleTransferConfig) (l : list StyleProfile) (acc : AMap.t Q)
  : AMap.t Q :=
  fold_left
    (fun weights profile =>
       AMap.set (id profile) (rawWeight region styleProfiles cfg profile) weights)
    l acc.

(** The strengths for which no product or sum of [calculateBlendWeights]
    leaves the range of the normal doubles: those between 2^-1000 and
    2^1000.  For them the doubles of the engine differ from the exact
    numbers by rounding only. *)
Definition minStrength : Q := 1 # (2 ^ 1000).

Definition maxStrength : Q := inject_Z (2 ^ 1000).

Definition normalStrength (s : Q) : Prop := minStrength <= s /\ s <= maxStrength.

(** A region without properties. *)
Definition plainRegion : Region :=
  {| r_bounds := None; r_mood := None; r_complexity := None; r_concepts := None |}.

(** The smallest double above 0, about 4.9e-324. *)
Definition tinyStrength : float := 0x1p-1074%float.

(** Two default profiles, and a content analysis with one region whose mood
    is that of the profiles and one region without properties. *)
Definition twoStyles : list StyleProfile :=
  [getDefaultStyleProfile 0; getDefaultStyleProfile 1].

(** The blend weights of the engine, on doubles, for a region without
    properties, the two default profiles and the strength [tinyStrength]. *)
Definition underflowWeights : AMap.t float :=
  Doubles.calculateBlendWeights plainRegion twoStyles tinyStrength.

Definition twoRegions : ContentAnalysis := {|
  ca_regions := Some [
    Some {| r_bounds := None; r_mood := Some "neutral";
            r_complexity := Some 0.8; r_concepts := Some ["sky"] |};
    Some {| r_bounds := None; r_mood := None;
            r_complexity := None; r_concepts := None |} ]
|}.

End FusionVocabulary.

Section EnsembleVocabulary.
Import AMSS.



(** Three models are asked; the second fails. *)
Definition secondModelFails : World := {|
  attempts := fun i =>
    match i with
    | 0%nat => Generated 0.5 0.5 0.5 10
    | 1%nat => Failed "backend unavailable"
    | _ => Generated 0.9 0.5 0.5 10
    end;
  refineRandom := fun _ => 0.5;
  totalTime := 100
|}.

Definition allModelsFail : World := {|
  attempts := fun _ => Failed "backend unavailable";
  refineRandom := fun _ => 0.5;
  totalTime := 100
|}.

End EnsembleVocabulary.

Section CacheVocabulary.
Import Semantic.

(** Two image strings of 54 characters that differ in the last two. *)
Definition imageA : string :=
  "data:image/png;base64,iVBORw0KGgoAAAANSUhEUgAAAAEAAAAA".

Definition imageB : string :=
  "data:image/png;base64,iVBORw0KGgoAAAANSUhEUgAAAAEAAAZZ".

(** Phases that describe an image by its length, or by twice its length. *)
Definition phasesA : Phases nat nat nat nat nat := {|
  extractConcepts := fun image _ => String.length image;
  buildSemanticGraph := fun cs => cs;
  analyzeStyle := fun image => String.length image;
  analyzeEmotionalContent := fun image cs => cs;
  analyzeCulturalContext := fun image cs => cs
|}.

Definition phasesB : Phases nat nat nat nat nat := {|
  extractConcepts := fun image _ => (2 * String.length image)%nat;
  buildSemanticGraph := fun cs => cs;
  analyzeStyle := fun image => (2 * String.length image)%nat;
  analyzeEmotionalContent := fun image cs => cs;
  analyzeCulturalContext := fun image cs => cs
|}.

Definition emptyAnalyzer : SemanticAnalyzer nat nat nat nat nat :=
  {| analysisCache := AMap.empty |}.

End CacheVocabulary.

Section OptimizerRunVocabulary.
Import Optimizer.

(** Number of [Start] events of a run. *)
Definition starts (es : list Event) : nat :=
  List.length (filter (fun e => match e with Start => true | _ => false end) es).

(** A source of random numbers that always gives one half. *)
Definition halves : nat -> Q := fun _ => 0.5.

End OptimizerRunVocabulary.

Section RefinementMoreVocabulary.
Import Refinement.

(** A backend that rates every image 0.95. *)
Definition acceptingWorld : World := {|
  backend := fun _ => overallOnly 0.95;
  elapsed := fun _ => 0%Z
|}.

(** A configuration that only sets [maxIterations]. *)
Definition onlyMaxIterations (n : nat) : PartialConfig := {|
  p_maxIterations := Some n;
  p_qualityThreshold := None;
  p_improvementThreshold := None;
  p_techniques := None;
  p_adaptiveStrategy := None
|}.

(** The techniques of [cfg] that apply to quality [q]. *)
Definition applicable (cfg : RefinementConfig) (q : QualityMetrics)
  : list RefinementTechnique :=
  filter (fun tech => applicability tech q) (techniques cfg).

End RefinementMoreVocabulary.

Section FusionMoreVocabulary.
Import StyleTransfer StyleTransferMore.

(** A partial configuration that only sets the strength, to one half. *)
Definition halfStrength : PartialConfig := {|
  p_strength := Some 0.5;
  p_preserveContent := None;
  p_colorInfluence := None;
  p_textureInfluence := None;
  p_compositionInfluence := None;
  p_adaptiveBlending := None;
  p_multiStyle := None;
  p_semanticAwareness := None
|}.

(** The regions of a content analysis: [contentAnalysis.regions || []]. *)
Definition regionsOf (contentAnalysis : ContentAnalysis)
  : list (option Region) :=
  match ca_regions contentAnalysis with
  | Some rs => rs
  | None => []
  end.

(** A backend whose every request fails. *)
Definition silentWorld : World := {|
  styleReplies := fun _ => CallFails;
  contentReply := CallFails;
  qualityReply := CallFails;
  elapsed := 0
|}.

(** A backend that finds one region in the content image and fails
    otherwise. *)
Definition oneRegionWorld : World := {|
  styleReplies := fun _ => CallFails;
  contentReply :=
    Parsed {| ca_regions := Some [
      Some {| r_bounds := None; r_mood := None;
              r_complexity := None; r_concepts := None |} ] |};
  qualityReply := CallFails;
  elapsed := 0
|}.

(** A stand-in for [JSON.stringify] on configurations. *)
Definition constantStringify : StyleTransferConfig -> string := fun _ => "{}".

End FusionMoreVocabulary.

Section SemanticMoreVocabulary.
Import SemanticGraphs.

(** How many of the concepts have the category [theme]. *)
Definition occurrences {Attributes : Type} (theme : string)
  (concepts : list (@SemanticConcept Attributes)) : nat :=
  List.length (filter (fun c => String.eqb (category c) theme) concepts).

(** How many relationships the backend reported over all raw concepts. *)
Fixpoint reported {Attributes : Type} (rawConcepts : list (@RawConcept Attributes))
  : nat :=
  match rawConcepts with
  | [] => 0%nat
  | raw :: rest =>
      (match raw_relationships raw with
       | Some rs => List.length rs
       | None => 0%nat
       end + reported rest)%nat
  end.

Definition linked (w : Q) : Relationship :=
  {| rel_type := "functional"; target := "concept_0"; strength := w;
     description := "" |}.

Definition edge (sourceId : string) (w : Q) : SemanticEdge :=
  {| source := sourceId; edge_target := "concept_0";
     relationship := linked w; weight := w |}.

(** Two edges of full weight. *)
Definition twoEdges : list SemanticEdge :=
  [edge "concept_1" 1; edge "concept_2" 1].

Definition conceptOf (theme : string) : @SemanticConcept unit :=
  {| id := "concept_0"; label := "unknown"; confidence := 0.5;
     category := theme; attributes := tt; relationships := [];
     spatialPosition := None; emotionalWeight := 0.5;
     culturalContext := None |}.

(** Three concepts, two of them of the category [style]. *)
Definition threeConcepts : list (@SemanticConcept unit) :=
  [conceptOf "object"; conceptOf "style"; conceptOf "style"].

End SemanticMoreVocabulary.

(** * Properties *)

(** ** Comparisons *)

Lemma ltb_lt (x y : Q) : JS.ltb x y = true <-> x < y.
Proof.
  unfold JS.ltb. rewrite negb_true_iff. split; intro H.
  - apply Qnot_le_lt. intro L. apply Qle_bool_iff in L. congruence.
  - destruct (Qle_bool y x) eqn:E; [|reflexivity].
    apply Qle_bool_iff in E. lra.
Qed.

Lemma ltb_ge (x y : Q) : JS.ltb x y = false <-> y <= x.
Proof. unfold JS.ltb. rewrite negb_false_iff. apply Qle_bool_iff. Qed.

Lemma geb_ge (x y : Q) : JS.geb x y = true <-> y <= x.
Proof. apply Qle_bool_iff. Qed.

Lemma geb_lt (x y : Q) : JS.geb x y = false <-> x < y.
Proof.
  unfold JS.geb. split; intro H.
  - apply Qnot_le_lt. intro L. apply Qle_bool_iff in L. congruence.
  - destruct (Qle_bool y x) eqn:E; [|reflexivity].
    apply Qle_bool_iff in E. lra.
Qed.

(** ** Maps *)

Section AMapFacts.
Context {V : Type}.

Lemma get_set_same (k : string) (v : V) (m : AMap.t V) :
  AMap.get k (AMap.set k v m) = Some v.
Proof.
  induction m as [|[k' v'] m IH]; simpl.
  - now rewrite String.eqb_refl.
  - destruct (String.eqb k' k) eqn:E; simpl.
    + now rewrite String.eqb_refl.
    + now rewrite E.
Qed.

Lemma keys_set_in (k k0 : string) (v : V) (m : AMap.t V) :
  In k0 (AMap.keys (AMap.set k v m)) <-> k0 = k \/ In k0 (AMap.keys m).
Proof.
  induction m as [|[k' v'] m IH]; simpl.
  - intuition auto.
  - destruct (String.eqb k' k) eqn:E; simpl.
    + apply String.eqb_eq in E. subst k'. intuition auto.
    + rewrite IH. intuition auto.
Qed.

Lemma keys_set_NoDup (k : string) (v : V) (m : AMap.t V) :
  NoDup (AMap.keys m) -> NoDup (AMap.keys (AMap.set k v m)).
Proof.
  unfold AMap.keys. induction m as [|[k' v'] m IH]; simpl; intro N.
  - constructor; [intros []|constructor].
  - inversion N as [|? ? Nk Nm]; subst.
    destruct (String.eqb k' k) eqn:E; simpl.
    + apply String.eqb_eq in E. subst k'. now constructor.
    + constructor; [|now apply IH].
      intro H. apply keys_set_in in H. destruct H as [H|H].
      * subst k'. rewrite String.eqb_refl in E. discriminate.
      * contradiction.
Qed.

Lemma set_not_empty (k : string) (v : V) (m : AMap.t V) :
  AMap.set k v m <> [].
Proof.
  destruct m as [|[k' v'] m]; simpl; [discriminate|].
  destruct (String.eqb k' k); discriminate.
Qed.

Lemma values_set_Forall (P : V -> Prop) (k : string) (v : V) (m : AMap.t V) :
  P v -> Forall P (AMap.values m) -> Forall P (AMap.values (AMap.set k v m)).
Proof.
  intros Hv. induction m as [|[k' v'] m IH]; simpl; intro H.
  - constructor; auto.
  - inversion H; subst.
    destruct (String.eqb k' k); simpl; constructor; auto.
Qed.

End AMapFacts.

(** ** Stable sorting *)

Section SortFacts.
Context {A : Type}.
Variable precedes : A -> A -> bool.

Lemma insert_perm (x : A) (l : list A) :
  Permutation (JSArray.insert precedes x l) (x :: l).
Proof.
  induction l as [|y l IH]; simpl.
  - apply Permutation_refl.
  - destruct (precedes x y).
    + apply Permutation_refl.
    + eapply perm_trans; [apply perm_skip, IH | apply perm_swap].
Qed.

Lemma sort_perm (l : list A) : Permutation (JSArray.sort precedes l) l.
Proof.
  induction l as [|x l IH]; simpl.
  - constructor.
  - eapply perm_trans; [apply insert_perm | now apply perm_skip].
Qed.


(** The comparison function is a total preorder. *)
Hypothesis precedes_total :
  forall a b, precedes a b = false -> precedes b a = true.
Hypothesis precedes_trans :
  forall a b c, precedes a b = true -> precedes b c = true -> precedes a c = true.

Let ordered (a b : A) : Prop := precedes a b = true.

Lemma insert_sorted (x : A) (l : list A) :
  StronglySorted ordered l -> StronglySorted ordered (JSArray.insert precedes x l).
Proof.
  induction l as [|y l IH]; simpl; intro S.
  - repeat constructor.
  - inversion S as [|? ? S' F]; subst.
    destruct (precedes x y) eqn:E.
    + constructor; [assumption|].
      constructor; [exact E|].
      eapply Forall_impl; [|exact F].
      intros z Hz. unfold ordered in *. eauto.
    + constructor; [auto|].
      assert (F' : Forall (ordered y) (x :: l))
        by (constructor; [apply precedes_total; exact E | exact F]).
      rewrite Forall_forall in *. intros z Hz. apply F'.
      eapply Permutation_in; [apply insert_perm | exact Hz].
Qed.

Lemma sort_sorted (l : list A) : StronglySorted ordered (JSArray.sort precedes l).
Proof.
  induction l as [|x l IH]; simpl.
  - constructor.
  - now apply insert_sorted.
Qed.

(** Stability: the members of a class of mutually tied elements keep
    their order. *)
Variable tied : A -> bool.
Hypothesis tied_precedes :
  forall a b, tied a = true -> tied b = true -> precedes a b = true.

Lemma insert_filter (x : A) (l : list A) :
  filter tied (JSArray.insert precedes x l) = filter tied (x :: l).
Proof.
  induction l as [|y l IH]; simpl.
  - reflexivity.
  - destruct (precedes x y) eqn:E; simpl.
    + reflexivity.
    + simpl in IH. rewrite IH.
      destruct (tied x) eqn:Tx, (tied y) eqn:Ty; try reflexivity.
      rewrite tied_precedes in E by assumption. discriminate.
Qed.

Lemma sort_stable (l : list A) :
  filter tied (JSArray.sort precedes l) = filter tied l.
Proof.
  induction l as [|x l IH]; simpl.
  - reflexivity.
  - rewrite insert_filter. simpl. now rewrite IH.
Qed.

End SortFacts.



(** ** The feedback optimizer *)

Section OptimizerFacts.
Import Optimizer.

(** A value under the [critical] entry of its metric is always reported as
    critical: the first test of [evaluateMetric]. *)
Lemma evaluateMetric_below_critical loops st name v ty :
  v < critical (getThresholds name) ->
  severityOf (evaluateMetric loops st name v ty) = Some Critical.
Proof.
  intro H. unfold evaluateMetric.
  apply ltb_lt in H. now rewrite H.
Qed.

(** Where the three entries increase (low is bad), a value at or above
    [medium] is no breach. *)
Lemma evaluateMetric_at_least_medium loops st name v ty :
  critical (getThresholds name) <= low (getThresholds name) ->
  low (getThresholds name) <= medium (getThresholds name) ->
  medium (getThresholds name) <= v ->
  evaluateMetric loops st name v ty = None.
Proof.
  intros Hc Hl Hm. unfold evaluateMetric.
  assert (E1 : JS.ltb v (critical (getThresholds name)) = false)
    by (apply ltb_ge; lra).
  assert (E2 : JS.ltb v (low (getThresholds name)) = false)
    by (apply ltb_ge; lra).
  assert (E3 : JS.ltb v (medium (getThresholds name)) = false)
    by (apply ltb_ge; lra).
  now rewrite E1, E2, E3.
Qed.

(** C1 (the code departs from the claim).  The claim asks for a
    direction-aware evaluation: for memory usage and resource utilization a
    high value is the breach.  [evaluateMetric] compares with [<] for every
    metric, against a table whose entries for these two metrics decrease
    (critical 0.8, low 0.6, medium 0.4).  A memory usage or resource
    utilization of 0.9, above the critical entry, yields no feedback loop,
    and a memory usage of 0.3, below even the medium entry, yields a
    critical one. *)
Theorem evaluateMetric_ignores_direction :
  forall loops st,
    evaluateMetric loops st "memoryUsage" 0.9 "performance" = None /\
    evaluateMetric loops st "resourceUtilization" 0.9 "efficiency" = None /\
    severityOf (evaluateMetric loops st "memoryUsage" 0.3 "performance")
      = Some Critical.
Proof.
  intros loops st.
  split; [reflexivity | split; reflexivity].
Qed.

(** [stop] leaves the timers and a running cycle alone. *)
Lemma stop_keeps_timers_and_cycle o :
  intervals (stop o) = intervals o /\ isOptimizing (stop o) = isOptimizing o.
Proof. split; reflexivity. Qed.

(** After [stop], a timer that fires while no cycle runs starts one. *)
Lemma timer_after_stop_starts_cycle o :
  (0 < intervals o)%nat -> isOptimizing o = false ->
  snd (step (stop o) TimerFires) = [CycleStarted].
Proof.
  intros Hi Hn. simpl.
  destruct (intervals o) as [|n] eqn:E; [lia|].
  unfold timerCallback. simpl. now rewrite Hn.
Qed.

(** A cycle in flight when [stop] is called still completes. *)
Lemma cycle_in_flight_completes o env :
  isOptimizing o = true ->
  snd (step (stop o) (CycleCompletes env))
  = [CycleCompleted (snd (cycleBody (stop o) env))].
Proof.
  intro H. simpl. rewrite H.
  destruct (cycleBody (stop o) env). reflexivity.
Qed.

(** C3 (the code departs from the claim).  The claim: after [stop()] no new
    optimization cycle starts.  [stop] only clears the flag
    [enableRealTimeOptimization]; the timer registered by [initialize] is
    never cleared and its callback tests [isOptimizing] alone.  On a fresh
    optimizer, after [initialize()] and [stop()], the next firing of the
    timer starts a cycle. *)
Theorem stop_does_not_prevent_new_cycles :
  let o := fst (run (new defaultConfig) [Initialize; Stop]) in
  enableRealTimeOptimization (config o) = false /\
  isOptimizing o = false /\
  snd (step o TimerFires) = [CycleStarted] /\
  isOptimizing (fst (step o TimerFires)) = true.
Proof.
  cbn zeta.
  split; [reflexivity|].
  split; [reflexivity|].
  split; reflexivity.
Qed.

(** *** Selection of the optimizations of a cycle *)





(** The loop over the selected opportunities executes each of them, in
    order: [executeOptimization] has no failing path. *)
Lemma executeAll_executes_all o samples i l :
  snd (executeAll o samples i l) = l.
Proof.
  revert o i. induction l as [|f l IH]; intros o i; simpl.
  - reflexivity.
  - match goal with
    | |- context [executeAll ?a ?b ?c l] =>
        specialize (IH a c); destruct (executeAll a b c l) as [o3 done]
    end.
    simpl in *. now subst done.
Qed.

Lemma cycleBody_executed o env :
  snd (cycleBody o env)
  = firstn (maxOptimizationsPerCycle (config o))
      (JSArray.sort byPriority
         (detect (feedbackLoops o) (stamps env) 0
            (metricEntries (currentMetrics env)))).
Proof.
  unfold cycleBody, identifyOptimizationOpportunities, JSArray.slice0.
  cbv zeta.
  change (feedbackLoops (with_metricsHistory o _)) with (feedbackLoops o).
  change (config (with_metricsHistory o _)) with (config o).
  generalize (firstn (maxOptimizationsPerCycle (config o))
      (JSArray.sort byPriority
         (detect (feedbackLoops o) (stamps env) 0
            (metricEntries (currentMetrics env))))).
  intro opts.
  generalize (with_metricsHistory o (metricsHistory o ++ [currentMetrics env])).
  intro o1.
  pose proof (executeAll_executes_all o1 (samples env) 0 opts) as H.
  destruct (executeAll o1 (samples env) 0 opts) as [o2 done].
  exact H.
Qed.

Lemma runOptimizationCycle_executed o env :
  snd (runOptimizationCycle o env)
  = firstn (maxOptimizationsPerCycle (config o))
      (JSArray.sort byPriority
         (detect (feedbackLoops o) (stamps env) 0
            (metricEntries (currentMetrics env)))).
Proof.
  unfold runOptimizationCycle. cbv zeta.
  pose proof (cycleBody_executed (with_isOptimizing o true) env) as H.
  change (feedbackLoops (with_isOptimizing o true)) with (feedbackLoops o) in H.
  change (config (with_isOptimizing o true)) with (config o) in H.
  destruct (cycleBody (with_isOptimizing o true) env) as [o2 done].
  exact H.
Qed.


Example cycle_of_five_breaches :
  List.map (fun f => (metric (trigger f), priority (action f)))
    (detect AMap.empty (stamps exampleEnv) 0 (metricEntries fiveBreaches))
  = [("processingSpeed", 9%Z); ("accuracy", 9%Z); ("robustness", 5%Z);
     ("energyEfficiency", 7%Z); ("engagement", 8%Z)] /\
  List.map (fun f => (metric (trigger f), priority (action f)))
    (snd (runOptimizationCycle (new defaultConfig) exampleEnv))
  = [("processingSpeed", 9%Z); ("accuracy", 9%Z); ("engagement", 8%Z)].
Proof. split; vm_compute; reflexivity. Qed.

End OptimizerFacts.

(** ** The refinement engine *)

Section RefinementFacts.
Import Refinement.

(** C8.  When the backend call fails or its response is missing or does not
    parse, [assessQuality] returns (it does not throw) the default record,
    whose overall score and 23 sub-scores are all 0.5. *)
Theorem assessQuality_neutral_on_failure :
  forall reply,
    unusable reply = true ->
    assessQuality reply = getDefaultQualityMetrics /\
    overall (assessQuality reply) = 0.5 /\
    Forall (fun s => s = 0.5) (subScores (assessQuality reply)).
Proof.
  intros reply H.
  assert (E : assessQuality reply = getDefaultQualityMetrics).
  { destruct reply; simpl in H; try reflexivity. discriminate. }
  rewrite E. split; [reflexivity|]. split; [reflexivity|].
  unfold subScores, getDefaultQualityMetrics; simpl.
  repeat constructor.
Qed.

Lemma assessQuality_neutral_on_failure_witness :
  unusable (Unparsable "not json") = true /\
  overall (assessQuality (Unparsable "not json")) = 0.5.
Proof.
  split; [reflexivity|].
  apply (assessQuality_neutral_on_failure (Unparsable "not json")).
  reflexivity.
Defined.

(** *** Invariants of the refinement loop *)

Lemma chain_snoc q0 l q s :
  chain q0 l q -> qualityBefore s = q -> chain q0 (l ++ [s]) (qualityAfter s).
Proof.
  revert q0. induction l as [|a l IH]; simpl; intros q0 H Hs.
  - subst. auto.
  - destruct H as [Ha H]. split; [exact Ha|]. now apply IH.
Qed.

Variable w : World.
Variable targetPrompt : string.
Variable cfg : RefinementConfig.
Variable q0 : QualityMetrics.

Lemma guard_true st :
  guard cfg st = true ->
  (ls_iteration st < maxIterations cfg)%nat /\ ls_converged st = false.
Proof.
  unfold guard. rewrite andb_true_iff, Nat.ltb_lt, negb_true_iff. tauto.
Qed.

Lemma loopBody_break st st' :
  Inv cfg q0 st -> guard cfg st = true ->
  loopBody w targetPrompt cfg st = Break st' -> Post cfg q0 st'.
Proof.
  intros [P E] G B. apply guard_true in G. destruct G as [Glt Gc].
  unfold loopBody in B.
  destruct (filter _ _) as [|first others]; cbv zeta in B.
  - injection B as <-. destruct P.
    constructor; simpl; auto; try lia.
    rewrite Gc. discriminate.
  - destruct (applyRefinement _ _ _ _ _ _ _ _) as [[image used] requests].
    discriminate.
Qed.

Lemma loopBody_next st st' :
  Inv cfg q0 st -> guard cfg st = true ->
  loopBody w targetPrompt cfg st = Next st' -> Inv cfg q0 st'.
Proof.
  intros [P E] G B. apply guard_true in G. destruct G as [Glt Gc].
  unfold loopBody in B.
  destruct (filter _ _) as [|first others]; cbv zeta in B; [discriminate|].
  destruct (applyRefinement _ _ _ _ _ _ _ _) as [[image used] requests].
  injection B as <-. destruct P.
  split; [|simpl; lia].
  constructor; simpl.
  - rewrite length_app. simpl. lia.
  - lia.
  - lia.
  - intros _. lia.
  - intros k s H.
    destruct (Nat.lt_ge_cases k (List.length (ls_steps st))) as [L|L].
    + rewrite nth_error_app1 in H by exact L. eauto.
    + rewrite nth_error_app2 in H by exact L.
      destruct (k - List.length (ls_steps st))%nat as [|d] eqn:D.
      * simpl in H. injection H as <-. simpl. lia.
      * simpl in H. destruct d; discriminate.
  - intros k s H C. rewrite length_app. simpl.
    destruct (Nat.lt_ge_cases k (List.length (ls_steps st))) as [L|L].
    + rewrite nth_error_app1 in H by exact L.
      destruct (post_conv0 k s H C) as [_ Hc]. congruence.
    + rewrite nth_error_app2 in H by exact L.
      destruct (k - List.length (ls_steps st))%nat as [|d] eqn:D.
      * simpl in H. injection H as <-. simpl in C. split; [lia | exact C].
      * simpl in H. destruct d; discriminate.
  - apply chain_snoc with (q := ls_quality st); auto.
Qed.

(** The loop leaves through its test or its [break] before [fuel] runs out,
    in a state that satisfies [Post]. *)
Lemma while_post fuel st :
  Inv cfg q0 st -> (maxIterations cfg - ls_iteration st <= fuel)%nat ->
  fst (while fuel w targetPrompt cfg st) <> OutOfFuel /\
  Post cfg q0 (snd (while fuel w targetPrompt cfg st)).
Proof.
  revert st. induction fuel as [|fuel IH]; intros st I F; simpl.
  - destruct (guard cfg st) eqn:G.
    + apply guard_true in G. lia.
    + simpl. split; [discriminate | apply I].
  - destruct (guard cfg st) eqn:G.
    + destruct (loopBody w targetPrompt cfg st) as [st'|st'] eqn:B.
      * simpl. split; [discriminate|]. eapply loopBody_break; eauto.
      * pose proof (loopBody_next st st' I G B) as I'.
        apply IH; [exact I'|].
        assert (ls_iteration st' = S (ls_iteration st)).
        { unfold loopBody in B.
          destruct (filter _ _) as [|first others]; cbv zeta in B;
            [discriminate|].
          destruct (applyRefinement _ _ _ _ _ _ _ _) as [[image used] requests].
          injection B as <-. reflexivity. }
        lia.
    + simpl. split; [discriminate | apply I].
Qed.

End RefinementFacts.

Section RefineImageFacts.
Import Refinement.

Lemma initialState_inv e w initialImage cfg :
  Inv cfg (assessQuality (backend w 0%nat)) (initialState e w initialImage).
Proof.
  split; [|reflexivity].
  constructor; simpl.
  - reflexivity.
  - lia.
  - lia.
  - discriminate.
  - intros [|k] s H; discriminate.
  - intros [|k] s H; discriminate.
  - reflexivity.
Qed.

(** [maxIterations] passes of fuel are enough: the loop of [refineImage]
    ends by its test or its [break], in a state satisfying [Post]. *)
Lemma refineLoop_terminates e w initialImage targetPrompt config :
  fst (refineLoop e w initialImage targetPrompt config) <> OutOfFuel /\
  Post (fullConfig e config) (assessQuality (backend w 0%nat))
    (snd (refineLoop e w initialImage targetPrompt config)).
Proof.
  unfold refineLoop. cbv zeta.
  apply while_post.
  - apply initialState_inv.
  - simpl. lia.
Qed.

(** C5.  With [maxIterations = N] the loop of [refineImage] ends, its body
    is entered at most [N] times, and the result holds at most [N] steps. *)
Theorem refineImage_at_most_maxIterations :
  forall e w initialImage targetPrompt config,
    let N := maxIterations (fullConfig e config) in
    let loop := refineLoop e w initialImage targetPrompt config in
    let r := snd (refineImage e w initialImage targetPrompt config) in
    fst loop <> OutOfFuel /\
    (ls_entered (snd loop) <= N)%nat /\
    (ls_iteration (snd loop) <= N)%nat /\
    (List.length (steps r) <= N)%nat.
Proof.
  intros e w initialImage targetPrompt config N loop r.
  destruct (refineLoop_terminates e w initialImage targetPrompt config)
    as [T P].
  destruct P.
  split; [exact T|].
  split; [exact post_entered0|].
  split; [exact post_bound0|].
  unfold r, refineImage. simpl steps. fold loop in post_length0 |- *.
  unfold loop, N in *. lia.
Qed.

(** C6.  If the quality assessed at the end of iteration [k] reaches
    [qualityThreshold], then [k < maxIterations], the loop ends after that
    iteration (its body has been entered [k + 1] times), the result is
    reported converged and holds exactly [k + 1] steps. *)
Theorem refineImage_stops_at_convergence :
  forall e w initialImage targetPrompt config k s,
    let cfg := fullConfig e config in
    let loop := refineLoop e w initialImage targetPrompt config in
    let r := snd (refineImage e w initialImage targetPrompt config) in
    nth_error (steps r) k = Some s ->
    qualityThreshold cfg <= overall (qualityAfter s) ->
    (k < maxIterations cfg)%nat /\
    iteration s = k /\
    ls_entered (snd loop) = S k /\
    converged r = true /\
    List.length (steps r) = S k.
Proof.
  intros e w initialImage targetPrompt config k s cfg loop r Hk Hq.
  destruct (refineLoop_terminates e w initialImage targetPrompt config)
    as [_ P].
  fold loop cfg in P. destruct P.
  unfold r, refineImage in *. simpl steps in *. simpl converged.
  fold loop in Hk |- *.
  assert (C : checkConvergence (qualityAfter s) cfg = true)
    by (apply geb_ge; exact Hq).
  destruct (post_conv0 k s Hk C) as [L Cv].
  specialize (post_entered_conv0 Cv).
  repeat split; auto; lia.
Qed.

Lemma refineImage_stops_at_convergence_witness :
  converged (snd (refineImage new improvingWorld "image" "prompt" noConfig))
  = true /\
  List.length
    (steps (snd (refineImage new improvingWorld "image" "prompt" noConfig)))
  = 2%nat.
Proof.
  set (r := snd (refineImage new improvingWorld "image" "prompt" noConfig)).
  assert (H : exists s,
             nth_error (steps r) 1 = Some s /\
             qualityThreshold (fullConfig new noConfig)
             <= overall (qualityAfter s)).
  { eexists. split.
    - vm_compute. reflexivity.
    - vm_compute. discriminate. }
  destruct H as (s & Hs & Hq).
  destruct (refineImage_stops_at_convergence
              new improvingWorld "image" "prompt" noConfig 1 s Hs Hq)
    as (_ & _ & _ & C & L).
  split; assumption.
Defined.

(** C2 as stated fails: with the default configuration and a backend that
    rates the input 0.6 and every refined image 0.3, the returned overall
    score is below the initial one and [totalImprovement] is negative. *)
Lemma refineImage_can_lower_quality :
  overall
    (quality (snd (refineImage new decliningWorld "image" "prompt" noConfig)))
  < overall (assessQuality (backend decliningWorld 0%nat)) /\
  totalImprovement
    (snd (refineImage new decliningWorld "image" "prompt" noConfig))
  < 0.
Proof.
  vm_compute. split; reflexivity.
Qed.

(** That run in full: five iterations, each applying the first technique
    of highest score, and no convergence. *)
Example declining_run :
  List.map techniquesApplied
    (steps (snd (refineImage new decliningWorld "image" "prompt" noConfig)))
  = [["Composition Balance"]; ["Composition Balance"]; ["Composition Balance"];
     ["Composition Balance"]; ["Composition Balance"]] /\
  converged (snd (refineImage new decliningWorld "image" "prompt" noConfig))
  = false.
Proof. vm_compute. split; reflexivity. Qed.

Lemma chain_monotone q0 l q :
  chain q0 l q ->
  (forall s, In s l -> overall (qualityBefore s) <= overall (qualityAfter s)) ->
  overall q0 <= overall q.
Proof.
  revert q0. induction l as [|a l IH]; simpl; intros q0 C M.
  - subst. lra.
  - destruct C as [Ha C].
    assert (overall (qualityBefore a) <= overall (qualityAfter a))
      by (apply M; now left).
    assert (overall (qualityAfter a) <= overall q)
      by (apply IH; [exact C | intros s Hs; apply M; now right]).
    rewrite Ha in *. lra.
Qed.

Lemma chain_last q0 a l q d :
  chain q0 (a :: l) q -> qualityAfter (last (a :: l) d) = q.
Proof.
  revert q0 a. induction l as [|b l IH]; intros q0 a C.
  - simpl in *. destruct C as [_ C]. now symmetry.
  - destruct C as [_ C].
    change (last (a :: b :: l) d) with (last (b :: l) d).
    eapply IH. exact C.
Qed.

Lemma chain_total q0 l q :
  chain q0 l q -> calculateTotalImprovement l == overall q - overall q0.
Proof.
  destruct l as [|a l]; intro C.
  - simpl in *. subst. ring.
  - unfold calculateTotalImprovement.
    rewrite (chain_last q0 a l q a C). destruct C as [-> _]. reflexivity.
Qed.

(** The quality the loop holds is the backend's answer to the last request
    made so far, which was a request for an assessment. *)
Lemma while_last_assessment fuel w targetPrompt cfg st :
  ls_quality st = assessQuality (backend w (pred (ls_requests st))) ->
  ls_quality (snd (while fuel w targetPrompt cfg st))
  = assessQuality
      (backend w (pred (ls_requests (snd (while fuel w targetPrompt cfg st))))).
Proof.
  revert st. induction fuel as [|fuel IH]; intros st H; simpl.
  - destruct (guard cfg st); exact H.
  - destruct (guard cfg st); [|exact H].
    destruct (loopBody w targetPrompt cfg st) as [st'|st'] eqn:B.
    + unfold loopBody in B. cbv zeta in B.
      destruct (filter _ _) as [|first others].
      * injection B as <-. exact H.
      * destruct (applyRefinement _ _ _ _ _ _ _ _) as [[image used] requests].
        discriminate.
    + apply IH. unfold loopBody in B. cbv zeta in B.
      destruct (filter _ _) as [|first others]; [discriminate|].
      destruct (applyRefinement _ _ _ _ _ _ _ _) as [[image used] requests].
      injection B as <-. reflexivity.
Qed.

Lemma last_default {A : Type} (x : A) (l : list A) (d1 d2 : A) :
  last (x :: l) d1 = last (x :: l) d2.
Proof.
  revert x. induction l as [|y l IH]; intro x; [reflexivity|].
  change (last (x :: y :: l) d1) with (last (y :: l) d1).
  change (last (x :: y :: l) d2) with (last (y :: l) d2).
  apply IH.
Qed.

Lemma chain_last_quality q0 l q :
  chain q0 l q -> q = last (List.map qualityAfter l) q0.
Proof.
  revert q0. induction l as [|a l IH]; intros q0 C.
  - simpl in *. now symmetry.
  - destruct C as [_ C]. specialize (IH _ C).
    destruct l as [|b l]; [exact IH|].
    rewrite IH.
    change (List.map qualityAfter (a :: b :: l))
      with (qualityAfter a :: qualityAfter b :: List.map qualityAfter l).
    change (List.map qualityAfter (b :: l))
      with (qualityAfter b :: List.map qualityAfter l).
    change (last (qualityAfter a :: qualityAfter b :: List.map qualityAfter l) q0)
      with (last (qualityAfter b :: List.map qualityAfter l) q0).
    apply last_default.
Qed.

(** C2, amended.  In every run of [refineImage] the reported
    [totalImprovement] is the returned overall score minus the overall score
    assessed for the initial image, and the returned quality is the last
    assessment the backend gave: the one made after the last recorded step,
    or the initial one when there is no step.  The returned score is not
    lower than the initial one ([totalImprovement] is not negative) in
    every run in which no recorded step ends with a lower overall score than
    it started with. *)
Theorem refineImage_no_loss_when_steps_improve :
  forall e w initialImage targetPrompt config,
    let r := snd (refineImage e w initialImage targetPrompt config) in
    let initial := assessQuality (backend w 0%nat) in
    let requests :=
      ls_requests (snd (refineLoop e w initialImage targetPrompt config)) in
    totalImprovement r == overall (quality r) - overall initial /\
    quality r = assessQuality (backend w (pred requests)) /\
    quality r = last (List.map qualityAfter (steps r)) initial /\
    ((forall s, In s (steps r) ->
        overall (qualityBefore s) <= overall (qualityAfter s)) ->
     overall initial <= overall (quality r) /\ 0 <= totalImprovement r).
Proof.
  intros e w initialImage targetPrompt config r initial requests.
  destruct (refineLoop_terminates e w initialImage targetPrompt config)
    as [_ P].
  destruct P as [_ _ _ _ _ _ C].
  pose proof (chain_total _ _ _ C) as Tot.
  pose proof (chain_last_quality _ _ _ C) as Last.
  unfold r, requests, refineImage in *.
  cbn [snd steps quality totalImprovement] in *.
  fold initial in Tot, Last.
  split; [exact Tot|]. split; [|split; [exact Last|]].
  - unfold refineLoop. cbv zeta. apply while_last_assessment. reflexivity.
  - intro M. pose proof (chain_monotone _ _ _ C M) as Mono.
    fold initial in Mono. split; [exact Mono|]. rewrite Tot. lra.
Qed.

Lemma refineImage_no_loss_when_steps_improve_witness :
  overall (assessQuality (backend improvingWorld 0%nat))
  <= overall
       (quality (snd (refineImage new improvingWorld "image" "prompt" noConfig))).
Proof.
  destruct (refineImage_no_loss_when_steps_improve
              new improvingWorld "image" "prompt" noConfig)
    as (_ & _ & _ & H).
  apply H.
  intros s Hs. vm_compute in Hs.
  destruct Hs as [<-|[<-|[]]]; vm_compute; discriminate.
Defined.

End RefineImageFacts.

(** ** Adaptive fusion: blend weights *)

Section FusionFacts.
Import StyleTransfer.

Lemma fold_left_Qplus (l : list Q) (a : Q) : fold_left Qplus l a == a + qsum l.
Proof.
  revert a. induction l as [|v l IH]; intro a; simpl.
  - ring.
  - rewrite IH. ring.
Qed.

Lemma total_qsum (l : list Q) : total l == qsum l.
Proof. unfold total. rewrite fold_left_Qplus. ring. Qed.

Lemma qsum_positive (l : list Q) :
  l <> [] -> Forall (fun v => 0 < v) l -> 0 < qsum l.
Proof.
  induction l as [|v l IH]; intros N F; [congruence|].
  inversion F as [|? ? Hv F']; subst. simpl.
  destruct l as [|v' l].
  - simpl. lra.
  - assert (0 < qsum (v' :: l)) by (apply IH; [discriminate | exact F']).
    lra.
Qed.

Lemma qsum_scaled (l : list Q) (t : Q) :
  qsum (List.map (fun v => v / t) l) == qsum l / t.
Proof.
  induction l as [|v l IH]; simpl.
  - unfold Qdiv. ring.
  - rewrite IH. unfold Qdiv. ring.
Qed.

Lemma count_positive {A : Type} (l : list A) : l <> [] -> 0 < count l.
Proof.
  intro N. destruct l as [|a l]; [congruence|].
  unfold count. simpl List.length.
  change 0 with (inject_Z 0). rewrite <- Zlt_Qlt. lia.
Qed.

Section Weights.
Variable region : Region.
Variable styleProfiles : list StyleProfile.
Variable cfg : StyleTransferConfig.
Hypothesis nonempty : styleProfiles <> [].
Hypothesis positive : 0 < strength cfg.

Lemma rawWeight_positive profile : 0 < rawWeight region styleProfiles cfg profile.
Proof.
  unfold rawWeight.
  assert (C : 0 < count styleProfiles) by (apply count_positive, nonempty).
  assert (I : 0 < 1 / count styleProfiles).
  { unfold Qdiv. rewrite Qmult_1_l. now apply Qinv_lt_0_compat. }
  apply Qmult_lt_0_compat; [|exact positive].
  destruct (moodMatches region profile); [|exact I].
  apply Qmult_lt_0_compat; [exact I | reflexivity].
Qed.

Lemma rawWeights_storeAll :
  rawWeights region styleProfiles cfg = storeAll region styleProfiles cfg styleProfiles AMap.empty.
Proof. reflexivity. Qed.

Lemma storeAll_positive l acc :
  Forall (fun v => 0 < v) (AMap.values acc) ->
  Forall (fun v => 0 < v) (AMap.values (storeAll region styleProfiles cfg l acc)).
Proof.
  revert acc. induction l as [|p l IH]; intros acc F; simpl.
  - exact F.
  - apply IH. apply values_set_Forall; [apply rawWeight_positive | exact F].
Qed.

Lemma storeAll_not_empty l acc :
  l <> [] \/ acc <> [] -> storeAll region styleProfiles cfg l acc <> [].
Proof.
  revert acc. induction l as [|p l IH]; intros acc H; simpl.
  - destruct H as [H|H]; [congruence | exact H].
  - apply IH. right. apply set_not_empty.
Qed.

Lemma storeAll_keys l acc k :
  In k (AMap.keys acc) \/ In k (List.map id l) ->
  In k (AMap.keys (storeAll region styleProfiles cfg l acc)).
Proof.
  revert acc. induction l as [|p l IH]; intros acc H; simpl.
  - destruct H as [H|[]]. exact H.
  - apply IH. destruct H as [H|[H|H]].
    + left. apply keys_set_in. now right.
    + left. apply keys_set_in. now left.
    + now right.
Qed.

Lemma has_of_key (m : AMap.t Q) k : In k (AMap.keys m) -> AMap.has k m = true.
Proof.
  unfold AMap.has. induction m as [|[k' v] m IH]; simpl; intro H.
  - destruct H.
  - destruct (String.eqb k' k) eqn:E; [reflexivity|].
    destruct H as [H|H]; [|now apply IH].
    subst k'. now rewrite String.eqb_refl in E.
Qed.

Lemma normalized_values (m : AMap.t Q) (t : Q) :
  AMap.values (List.map (fun kv => (fst kv, snd kv / t)) m)
  = List.map (fun v => v / t) (AMap.values m).
Proof.
  unfold AMap.values. rewrite !map_map. reflexivity.
Qed.

Lemma normalized_keys (m : AMap.t Q) (t : Q) :
  AMap.keys (List.map (fun kv => (fst kv, snd kv / t)) m) = AMap.keys m.
Proof.
  unfold AMap.keys. rewrite map_map. reflexivity.
Qed.

(** The weights of one region add up to 1. *)
Lemma calculateBlendWeights_total :
  total (AMap.values (calculateBlendWeights region styleProfiles cfg)) == 1.
Proof.
  unfold calculateBlendWeights. cbv zeta.
  rewrite rawWeights_storeAll.
  set (weights := storeAll region styleProfiles cfg styleProfiles AMap.empty).
  assert (T : 0 < total (AMap.values weights)).
  { rewrite total_qsum. apply qsum_positive.
    - unfold AMap.values, weights. intro E.
      apply map_eq_nil in E. revert E. apply storeAll_not_empty. now left.
    - apply storeAll_positive. constructor. }
  rewrite normalized_values, total_qsum, qsum_scaled, <- total_qsum.
  field. lra.
Qed.

(** Every profile has its entry. *)
Lemma calculateBlendWeights_has profile :
  In profile styleProfiles ->
  AMap.has (id profile) (calculateBlendWeights region styleProfiles cfg) = true.
Proof.
  intro H. apply has_of_key.
  unfold calculateBlendWeights. cbv zeta.
  rewrite normalized_keys, rawWeights_storeAll.
  apply storeAll_keys. right. now apply in_map.
Qed.

End Weights.

Lemma selectBestStyleForRegion_some region styleProfiles :
  styleProfiles <> [] ->
  exists best, selectBestStyleForRegion region styleProfiles = Some best.
Proof.
  intro N. unfold selectBestStyleForRegion.
  destruct styleProfiles as [|p0 rest]; [congruence|].
  simpl hd_error.
  generalize (p0 :: rest) as l. generalize p0 as b. generalize 0 as sc.
  intros sc b l. revert sc b.
  induction l as [|p l IH]; intros sc b; simpl.
  - now exists b.
  - destruct (JS.gtb (regionScore region p) sc); apply IH.
Qed.

Lemma storeAll_keys_iff region styleProfiles cfg l acc k :
  In k (AMap.keys (storeAll region styleProfiles cfg l acc)) <->
  In k (AMap.keys acc) \/ In k (List.map id l).
Proof.
  revert acc. induction l as [|p l IH]; intro acc; simpl.
  - tauto.
  - rewrite IH, keys_set_in. intuition auto.
Qed.

Lemma storeAll_NoDup region styleProfiles cfg l acc :
  NoDup (AMap.keys acc) ->
  NoDup (AMap.keys (storeAll region styleProfiles cfg l acc)).
Proof.
  revert acc. induction l as [|p l IH]; intros acc N; simpl.
  - exact N.
  - apply IH. now apply keys_set_NoDup.
Qed.

(** The keys of the blend weights are the ids of the profiles, each once. *)
Lemma calculateBlendWeights_keys region styleProfiles cfg :
  NoDup (AMap.keys (calculateBlendWeights region styleProfiles cfg)) /\
  (forall k, In k (AMap.keys (calculateBlendWeights region styleProfiles cfg))
             <-> In k (List.map id styleProfiles)).
Proof.
  unfold calculateBlendWeights. cbv zeta.
  rewrite normalized_keys.
  change (rawWeights region styleProfiles cfg)
    with (storeAll region styleProfiles cfg styleProfiles AMap.empty).
  split.
  - apply storeAll_NoDup. constructor.
  - intro k. rewrite storeAll_keys_iff. simpl. tauto.
Qed.

Lemma minStrength_positive : 0 < minStrength.
Proof. reflexivity. Qed.

Lemma normalStrength_positive (s : Q) : normalStrength s -> 0 < s.
Proof.
  intros [L _]. eapply Qlt_le_trans; [apply minStrength_positive | exact L].
Qed.

(** The loop over the regions throws only at a [null] region or without a
    profile; the regions it builds are one per region of the content
    analysis, each with the blend weights computed for a region. *)
Lemma fusionRegions_built i semanticRegions styleProfiles cfg :
  (styleProfiles <> [] -> ~ In None semanticRegions ->
   exists built, fusionRegions i semanticRegions styleProfiles cfg = Some built) /\
  (forall built,
      fusionRegions i semanticRegions styleProfiles cfg = Some built ->
      List.length built = List.length semanticRegions /\
      Forall (fun fr => exists region,
                blendWeights fr = calculateBlendWeights region styleProfiles cfg)
             built).
Proof.
  revert i.
  induction semanticRegions as [|[region|] rest IH]; intro i; simpl.
  - split; [intros _ _; now exists []|].
    intros built H. injection H as <-. split; [reflexivity | constructor].
  - destruct (IH (S i)) as [IE IS]. split.
    + intros N H.
      destruct (selectBestStyleForRegion_some region styleProfiles N)
        as [best ->].
      destruct (IE N) as [more ->]; [intro M; apply H; now right|].
      eexists. reflexivity.
    + intros built H.
      destruct (selectBestStyleForRegion region styleProfiles) as [best|];
        [|discriminate].
      destruct (fusionRegions (S i) rest styleProfiles cfg) as [more|];
        [|discriminate].
      injection H as <-. destruct (IS more eq_refl) as [L F].
      split; [simpl; now rewrite L|].
      constructor; [|exact F]. exists region. reflexivity.
  - split; [|discriminate].
    intros _ H. elim H. now left.
Qed.

(** C4, amended.  For a non-empty list of style profiles and a strength
    between 2^-1000 and 2^1000: [generateFusionMap] returns a fusion map
    when no region of the content analysis is [null]; a map it returns has
    one fusion region per region of the content analysis, and in each of
    them the blend weights have exactly the ids of the style profiles as
    keys, each once, and sum to 1 (hence to 1.0 within 1e-6). *)
Theorem blend_weights_sum_to_one :
  forall contentAnalysis styleProfiles cfg,
    styleProfiles <> [] ->
    normalStrength (strength cfg) ->
    (~ In None (regionsOf contentAnalysis) ->
     exists fusionMap,
       generateFusionMap contentAnalysis styleProfiles cfg = Some fusionMap) /\
    (forall fusionMap,
        generateFusionMap contentAnalysis styleProfiles cfg = Some fusionMap ->
        List.length (regions fusionMap)
        = List.length (regionsOf contentAnalysis) /\
        Forall (fun fr =>
                  Qabs (total (AMap.values (blendWeights fr)) - 1) <= 0.000001 /\
                  NoDup (AMap.keys (blendWeights fr)) /\
                  (forall k, In k (AMap.keys (blendWeights fr)) <->
                             In k (List.map id styleProfiles)))
               (regions fusionMap)).
Proof.
  intros contentAnalysis styleProfiles cfg N S.
  apply normalStrength_positive in S.
  unfold generateFusionMap, regionsOf. cbv zeta.
  destruct (fusionRegions_built 0
              (match ca_regions contentAnalysis with
               | Some rs => rs
               | None => []
               end) styleProfiles cfg) as [E B].
  split.
  - intro H. destruct (E N H) as [built ->]. eexists. reflexivity.
  - intros fusionMap H.
    destruct (fusionRegions 0 _ styleProfiles cfg) as [built|];
      [|discriminate].
    injection H as <-. simpl regions.
    destruct (B built eq_refl) as [L F].
    split; [exact L|].
    eapply Forall_impl; [|exact F].
    intros fr [region ->]. split.
    + rewrite (calculateBlendWeights_total region styleProfiles cfg N S).
      vm_compute. discriminate.
    + apply calculateBlendWeights_keys.
Qed.

Lemma blend_weights_sum_to_one_witness :
  exists fusionMap,
    generateFusionMap twoRegions twoStyles (defaultConfig 2) = Some fusionMap /\
    List.length (regions fusionMap) = 2%nat /\
    Forall (fun fr =>
              Qabs (total (AMap.values (blendWeights fr)) - 1) <= 0.000001 /\
              NoDup (AMap.keys (blendWeights fr)) /\
              (forall k, In k (AMap.keys (blendWeights fr)) <->
                         In k (List.map id twoStyles)))
           (regions fusionMap).
Proof.
  destruct (blend_weights_sum_to_one twoRegions twoStyles (defaultConfig 2))
    as [E B].
  - discriminate.
  - split; vm_compute; discriminate.
  - destruct E as [fusionMap G].
    + intros [H|[H|[]]]; discriminate.
    + exists fusionMap. split; [exact G|]. exact (B fusionMap G).
Defined.

(** The claim of C4 as first stated (every strength above 0) fails on the
    doubles of the engine: with the strength 2^-1074, two profiles and a
    region without a mood, both raw weights underflow to 0, the total is 0
    and both normalized weights are [NaN], so that their sum is not within
    1e-6 of 1. *)
Lemma blend_weights_underflow :
  (0 <? tinyStrength)%float = true /\
  AMap.keys underflowWeights = ["style_0"; "style_1"] /\
  forallb PrimFloat.is_nan (AMap.values underflowWeights) = true /\
  Doubles.sumsToOne (AMap.values underflowWeights) = false.
Proof. vm_compute. repeat split. Qed.

(** The map built for these inputs: two regions, each with the two
    weights one half. *)
Example fusion_of_two_styles :
  option_map
    (fun fm => List.map (fun fr => (fr_id fr, dominantStyle fr,
                                    List.map (fun kv => (fst kv, Qred (snd kv)))
                                      (blendWeights fr)))
                 (regions fm))
    (generateFusionMap twoRegions twoStyles (defaultConfig 2))
  = Some [ ("region_0", "style_0", [("style_0", 1 # 2); ("style_1", 1 # 2)]);
           ("region_1", "style_0", [("style_0", 1 # 2); ("style_1", 1 # 2)]) ].
Proof. vm_compute. reflexivity. Qed.

End FusionFacts.

(** ** Ensemble generation and fusion *)

Section EnsembleFacts.
Import AMSS.







Example generation_with_one_failure :
  List.map (fun r => modelsUsed (metadata r))
    (generateEnsemble secondModelFails defaultConfig)
  = [["gemini-2.5-flash"]; ["gemini-pro-vision"]] /\
  match generateImage secondModelFails defaultConfig with
  | Returns r => modelsUsed (metadata r)
  | Throws _ => []
  end = ["gemini-pro-vision"; "gemini-2.5-flash"].
Proof. split; vm_compute; reflexivity. Qed.

Example generation_with_all_failures :
  generateImage allModelsFail defaultConfig = Throws noCandidates.
Proof. reflexivity. Qed.

End EnsembleFacts.

(** ** The analysis cache *)

Section CacheFacts.
Import Semantic.

Variables Concepts Graph StyleSignature Emotional Cultural : Type.

Let Analyzer : Type :=
  SemanticAnalyzer Concepts Graph StyleSignature Emotional Cultural.
Let AnalysisPhases : Type :=
  Phases Concepts Graph StyleSignature Emotional Cultural.

Lemma generateCacheKey_prefix imageData1 imageData2 options :
  String.substring 0 50 imageData1 = String.substring 0 50 imageData2 ->
  generateCacheKey imageData1 options = generateCacheKey imageData2 options.
Proof. unfold generateCacheKey. intros ->. reflexivity. Qed.

Lemma analyzeImage_caches (ph : AnalysisPhases) (a : Analyzer) imageData options :
  AMap.get (generateCacheKey imageData options)
    (analysisCache (fst (analyzeImage ph a imageData options)))
  = Some (snd (analyzeImage ph a imageData options)).
Proof.
  unfold analyzeImage. cbv zeta.
  destruct (AMap.get (generateCacheKey imageData options) (analysisCache a))
    as [cached|] eqn:E; simpl.
  - exact E.
  - apply get_set_same.
Qed.

(** C10.  The cache key is made of the first 50 characters of the image
    data and the serialized options.  When two image data strings share
    their first 50 characters and the options are the same, the second of
    two consecutive [analyzeImage] calls returns the result of the first
    and leaves the analyzer unchanged, whatever the backend would have
    answered for the second image. *)
Theorem analyzeImage_hits_cache_on_shared_prefix :
  forall (ph1 ph2 : AnalysisPhases) (a : Analyzer) imageData1 imageData2 options,
    String.substring 0 50 imageData1 = String.substring 0 50 imageData2 ->
    let first := analyzeImage ph1 a imageData1 options in
    let second := analyzeImage ph2 (fst first) imageData2 options in
    generateCacheKey imageData1 options = generateCacheKey imageData2 options /\
    snd second = snd first /\
    fst second = fst first.
Proof.
  intros ph1 ph2 a imageData1 imageData2 options H first second.
  pose proof (generateCacheKey_prefix imageData1 imageData2 options H) as K.
  split; [exact K|].
  pose proof (analyzeImage_caches ph1 a imageData1 options) as C.
  fold first in C. rewrite K in C.
  unfold second, analyzeImage. cbv zeta. rewrite C. simpl. auto.
Qed.

End CacheFacts.

Section CacheExample.
Import Semantic.

Lemma analyzeImage_hits_cache_on_shared_prefix_witness :
  imageA <> imageB /\
  snd (analyzeImage phasesB
         (fst (analyzeImage phasesA emptyAnalyzer imageA [depth (Some basic)]))
         imageB [depth (Some basic)])
  = snd (analyzeImage phasesA emptyAnalyzer imageA [depth (Some basic)]).
Proof.
  split; [discriminate|].
  apply (analyzeImage_hits_cache_on_shared_prefix
           nat nat nat nat nat phasesA phasesB emptyAnalyzer imageA imageB
           [depth (Some basic)]).
  reflexivity.
Defined.

Example cache_key_of_imageA :
  generateCacheKey imageA [depth (Some basic); includeStyle (Some false)]
  = (String.substring 0 50 imageA
     ++ "_{" ++ quoted "depth" ++ ":" ++ quoted "basic" ++ ","
     ++ quoted "includeStyle" ++ ":false}")%string.
Proof. reflexivity. Qed.

End CacheExample.

(** * Further properties of the code *)

(** ** The feedback optimizer: detection *)

Section DetectionFacts.
Import Optimizer OptimizerStats.

(** X1.  For a metric name that is not the name of a member inherited from
    [Object.prototype], [evaluateMetric] returns no feedback loop exactly
    when the value is
    below none of the three thresholds of its metric; a loop it returns
    records the metric, the category and the value, carries the first of
    the thresholds critical, low, medium that lies above the value with the
    severity critical, high, medium, and starts with an unsuccessful empty
    result. *)
Theorem evaluateMetric_classifies :
  forall loops st name v ty,
    ~ In name inheritedNames ->
    (evaluateMetric loops st name v ty = None <->
     critical (getThresholds name) <= v /\
     low (getThresholds name) <= v /\
     medium (getThresholds name) <= v) /\
    (forall f, evaluateMetric loops st name v ty = Some f ->
       metric (trigger f) = name /\
       type f = ty /\
       currentValue (trigger f) = v /\
       v < threshold (trigger f) /\
       trend (trigger f) = declining /\
       result f = emptyResult /\
       iteration f = (AMap.size loops + 1)%nat /\
       ((severity (trigger f) = Critical /\
         threshold (trigger f) = critical (getThresholds name)) \/
        (severity (trigger f) = High /\
         threshold (trigger f) = low (getThresholds name) /\
         critical (getThresholds name) <= v) \/
        (severity (trigger f) = Medium /\
         threshold (trigger f) = medium (getThresholds name) /\
         critical (getThresholds name) <= v /\
         low (getThresholds name) <= v))).
Proof.
  intros loops st name v ty _. unfold evaluateMetric. cbv zeta.
  destruct (JS.ltb v (critical (getThresholds name))) eqn:E1;
    [|destruct (JS.ltb v (low (getThresholds name))) eqn:E2;
      [|destruct (JS.ltb v (medium (getThresholds name))) eqn:E3]].
  - apply ltb_lt in E1. split.
    + split; [discriminate|]. intros (H & _). lra.
    + intros f H. injection H as <-. simpl.
      repeat split; auto.
  - apply ltb_ge in E1. apply ltb_lt in E2. split.
    + split; [discriminate|]. intros (_ & H & _). lra.
    + intros f H. injection H as <-. simpl.
      repeat split; auto.
  - apply ltb_ge in E1. apply ltb_ge in E2. apply ltb_lt in E3. split.
    + split; [discriminate|]. intros (_ & _ & H). lra.
    + intros f H. injection H as <-. simpl.
      repeat split; auto.
      right. right. auto.
  - apply ltb_ge in E1. apply ltb_ge in E2. apply ltb_ge in E3. split.
    + split; auto.
    + intros f H. discriminate.
Qed.

Lemma evaluateMetric_classifies_witness :
  evaluateMetric AMap.empty (stamps exampleEnv 0%nat) "throughput" 0.9
    "performance" = None.
Proof.
  destruct (evaluateMetric_classifies AMap.empty (stamps exampleEnv 0%nat)
              "throughput" 0.9 "performance") as [[_ H] _].
  - simpl. intuition discriminate.
  - apply H. repeat split; vm_compute; discriminate.
Defined.

Lemma detect_none loops stamps i ty name v rest :
  evaluateMetric loops (stamps i) name v ty = None ->
  detect loops stamps i ((ty, (name, v)) :: rest)
  = detect loops stamps (S i) rest.
Proof. intro H. simpl. now rewrite H. Qed.

Lemma detect_some loops stamps i ty name v rest f :
  evaluateMetric loops (stamps i) name v ty = Some f ->
  detect loops stamps i ((ty, (name, v)) :: rest)
  = f :: detect loops stamps (S i) rest.
Proof. intro H. simpl. now rewrite H. Qed.

(** A metric whose thresholds are [c <= l <= m] and whose value is at
    least [m]. *)
Lemma no_breach loops st name v ty c l m :
  getThresholds name = mkT c l m -> c <= l -> l <= m -> m <= v ->
  evaluateMetric loops st name v ty = None.
Proof.
  intros T Hc Hl Hm.
  apply evaluateMetric_at_least_medium; rewrite T; simpl; assumption.
Qed.

Lemma collected_entries rnd :
  metricEntries (collectMetrics rnd) =
  [ ("performance", ("processingSpeed", 0.7 + rnd 0%nat * 0.3));
    ("performance", ("memoryUsage", 0.4 + rnd 1%nat * 0.4));
    ("performance", ("responseTime", 0.6 + rnd 2%nat * 0.3));
    ("performance", ("throughput", 0.8 + rnd 3%nat * 0.2));
    ("performance", ("scalability", 0.75 + rnd 4%nat * 0.25));
    ("quality", ("accuracy", 0.8 + rnd 5%nat * 0.2));
    ("quality", ("consistency", 0.85 + rnd 6%nat * 0.15));
    ("quality", ("robustness", 0.75 + rnd 7%nat * 0.25));
    ("quality", ("fidelity", 0.8 + rnd 8%nat * 0.2));
    ("quality", ("innovation", 0.7 + rnd 9%nat * 0.3));
    ("efficiency", ("resourceUtilization", 0.6 + rnd 10%nat * 0.3));
    ("efficiency", ("energyEfficiency", 0.7 + rnd 11%nat * 0.2));
    ("efficiency", ("costEffectiveness", 0.8 + rnd 12%nat * 0.2));
    ("efficiency", ("timeEfficiency", 0.75 + rnd 13%nat * 0.25));
    ("efficiency", ("scalability", 0.8 + rnd 14%nat * 0.2));
    ("userSatisfaction", ("engagement", 0.7 + rnd 15%nat * 0.3));
    ("userSatisfaction", ("retention", 0.8 + rnd 16%nat * 0.2));
    ("userSatisfaction", ("satisfaction", 0.75 + rnd 17%nat * 0.25));
    ("userSatisfaction", ("feedbackScore", 0.7 + rnd 18%nat * 0.3));
    ("userSatisfaction", ("recommendation", 0.8 + rnd 19%nat * 0.2)) ].
Proof. reflexivity. Qed.

Ltac skip_metric R :=
  rewrite detect_none;
  [| eapply no_breach;
     [ reflexivity
     | vm_compute; discriminate
     | vm_compute; discriminate
     | match goal with
       | |- _ <= _ + _ ?i * _ => pose proof (R i); lra
       end ] ].

(** X2.  On the metrics that [collectMetrics] produces, the only breaches the
    detection can find are a critical one for memory usage, a medium one
    for response time and a critical one for resource utilization, each
    with an action of priority 8: three at most.  The breach
    for memory usage is found exactly when the collected value is below
    0.8, which excludes only a sum [0.4 + r * 0.4] that reaches 0.8.
    ([rnd i] stands for a value of [Math.random()]; the bound 1 is
    admitted, so that a sum that is rounded up to the end of its range is
    covered.) *)
Theorem collected_metrics_breaches :
  forall rnd loops stamps,
    (forall i, 0 <= rnd i /\ rnd i <= 1) ->
    let collected := collectMetrics rnd in
    let detected := detect loops stamps 0 (metricEntries collected) in
    Forall (fun f =>
              In (metric (trigger f), severity (trigger f))
                 [("memoryUsage", Critical); ("responseTime", Medium);
                  ("resourceUtilization", Critical)] /\
              priority (action f) = 8%Z)
           detected /\
    (List.length detected <= 3)%nat /\
    (memoryUsage (performance collected) < 0.8 ->
     exists f rest,
       detected = f :: rest /\
       metric (trigger f) = "memoryUsage" /\
       severity (trigger f) = Critical) /\
    (0.8 <= memoryUsage (performance collected) ->
     Forall (fun f => metric (trigger f) <> "memoryUsage") detected).
Proof.
  intros rnd loops stamps R collected detected. unfold detected, collected.
  rewrite collected_entries.
  change (memoryUsage (performance (collectMetrics rnd)))
    with (0.4 + rnd 1%nat * 0.4).
  skip_metric R.
  assert (M : (0.8 <= 0.4 + rnd 1%nat * 0.4 /\
               evaluateMetric loops (stamps 1%nat) "memoryUsage"
                 (0.4 + rnd 1%nat * 0.4) "performance" = None) \/
              (0.4 + rnd 1%nat * 0.4 < 0.8 /\
               evaluateMetric loops (stamps 1%nat) "memoryUsage"
                 (0.4 + rnd 1%nat * 0.4) "performance"
               = Some (createFeedbackLoop loops (stamps 1%nat) "memoryUsage"
                         (0.4 + rnd 1%nat * 0.4) 0.8 "performance" Critical))).
  { unfold evaluateMetric. cbv zeta.
    change (critical (getThresholds "memoryUsage")) with 0.8.
    change (low (getThresholds "memoryUsage")) with 0.6.
    change (medium (getThresholds "memoryUsage")) with 0.4.
    destruct (JS.ltb (0.4 + rnd 1%nat * 0.4) 0.8) eqn:L.
    - right. split; [now apply ltb_lt | reflexivity].
    - apply ltb_ge in L. left. split; [exact L|].
      assert (L2 : JS.ltb (0.4 + rnd 1%nat * 0.4) 0.6 = false)
        by (apply ltb_ge; lra).
      assert (L3 : JS.ltb (0.4 + rnd 1%nat * 0.4) 0.4 = false)
        by (apply ltb_ge; lra).
      now rewrite L2, L3. }
  assert (RT : evaluateMetric loops (stamps 2%nat) "responseTime"
                 (0.6 + rnd 2%nat * 0.3) "performance" = None \/
               evaluateMetric loops (stamps 2%nat) "responseTime"
                 (0.6 + rnd 2%nat * 0.3) "performance"
               = Some (createFeedbackLoop loops (stamps 2%nat) "responseTime"
                         (0.6 + rnd 2%nat * 0.3) 0.7 "performance" Medium)).
  { unfold evaluateMetric. cbv zeta.
    change (critical (getThresholds "responseTime")) with 0.3.
    change (low (getThresholds "responseTime")) with 0.5.
    change (medium (getThresholds "responseTime")) with 0.7.
    assert (L1 : JS.ltb (0.6 + rnd 2%nat * 0.3) 0.3 = false)
      by (apply ltb_ge; pose proof (R 2%nat); lra).
    assert (L2 : JS.ltb (0.6 + rnd 2%nat * 0.3) 0.5 = false)
      by (apply ltb_ge; pose proof (R 2%nat); lra).
    rewrite L1, L2.
    destruct (JS.ltb (0.6 + rnd 2%nat * 0.3) 0.7); auto. }
  assert (RU : evaluateMetric loops (stamps 10%nat) "resourceUtilization"
                 (0.6 + rnd 10%nat * 0.3) "efficiency" = None \/
               evaluateMetric loops (stamps 10%nat) "resourceUtilization"
                 (0.6 + rnd 10%nat * 0.3) "efficiency"
               = Some (createFeedbackLoop loops (stamps 10%nat)
                         "resourceUtilization"
                         (0.6 + rnd 10%nat * 0.3) 0.8 "efficiency" Critical)).
  { unfold evaluateMetric. cbv zeta.
    change (critical (getThresholds "resourceUtilization")) with 0.8.
    change (low (getThresholds "resourceUtilization")) with 0.6.
    change (medium (getThresholds "resourceUtilization")) with 0.4.
    destruct (JS.ltb (0.6 + rnd 10%nat * 0.3) 0.8) eqn:L; auto.
    apply ltb_ge in L.
    assert (L2 : JS.ltb (0.6 + rnd 10%nat * 0.3) 0.6 = false)
      by (apply ltb_ge; pose proof (R 10%nat); lra).
    assert (L3 : JS.ltb (0.6 + rnd 10%nat * 0.3) 0.4 = false)
      by (apply ltb_ge; lra).
    rewrite L2, L3. auto. }
  assert (Tail : detect loops stamps 11
                   [ ("efficiency", ("energyEfficiency", 0.7 + rnd 11%nat * 0.2));
                     ("efficiency", ("costEffectiveness", 0.8 + rnd 12%nat * 0.2));
                     ("efficiency", ("timeEfficiency", 0.75 + rnd 13%nat * 0.25));
                     ("efficiency", ("scalability", 0.8 + rnd 14%nat * 0.2));
                     ("userSatisfaction", ("engagement", 0.7 + rnd 15%nat * 0.3));
                     ("userSatisfaction", ("retention", 0.8 + rnd 16%nat * 0.2));
                     ("userSatisfaction", ("satisfaction", 0.75 + rnd 17%nat * 0.25));
                     ("userSatisfaction", ("feedbackScore", 0.7 + rnd 18%nat * 0.3));
                     ("userSatisfaction", ("recommendation", 0.8 + rnd 19%nat * 0.2)) ]
                 = []).
  { do 9 skip_metric R. reflexivity. }
  destruct M as [[MV M]|[MV M]];
    [rewrite (detect_none _ _ _ _ _ _ _ M)
    |rewrite (detect_some _ _ _ _ _ _ _ _ M)];
    (destruct RT as [RT|RT];
     [rewrite (detect_none _ _ _ _ _ _ _ RT)
     |rewrite (detect_some _ _ _ _ _ _ _ _ RT)]);
    do 7 skip_metric R;
    (destruct RU as [RU|RU];
     [rewrite (detect_none _ _ _ _ _ _ _ RU)
     |rewrite (detect_some _ _ _ _ _ _ _ _ RU)]);
    rewrite Tail;
    (split;
     [repeat (apply Forall_cons || apply Forall_nil);
      (split; [simpl; auto 6 | reflexivity])|]);
    (split; [simpl; lia|]);
    (split;
     [intro V;
      first [lra
            | eexists; eexists; split; [reflexivity | split; reflexivity]]
     |intro V;
      first [lra
            | repeat (apply Forall_cons || apply Forall_nil);
              simpl; discriminate]]).
Qed.

#[local] Set Warnings "-inexact-float".

(** On the doubles of the engine, the sum for memory usage is 0.8 for the
    largest value of [Math.random()], 1 - 2^-53. *)
Example memoryUsage_can_reach_threshold :
  (0x1.fffffffffffffp-1 <? 1)%float = true /\
  (0.4 + 0x1.fffffffffffffp-1 * 0.4 <? 0.8)%float = false.
Proof. vm_compute. split; reflexivity. Qed.

Lemma collected_metrics_breaches_witness :
  exists f rest,
    detect AMap.empty (stamps exampleEnv) 0
      (metricEntries (collectMetrics halves)) = f :: rest /\
    metric (trigger f) = "memoryUsage" /\
    severity (trigger f) = Critical.
Proof.
  destruct (collected_metrics_breaches halves AMap.empty (stamps exampleEnv))
    as (_ & _ & H & _).
  - intro i. unfold halves. split; discriminate.
  - apply H. vm_compute. reflexivity.
Defined.

End DetectionFacts.

(** ** The feedback optimizer: history, statistics and the scheduled loop *)

Section OptimizerStateFacts.
Import Optimizer OptimizerStats.

Lemma slice_last_length {A : Type} (n : nat) (l : list A) :
  List.length (JSArray.slice_last n l) = Nat.min n (List.length l).
Proof. unfold JSArray.slice_last. rewrite length_skipn. lia. Qed.

Lemma recordOptimizationResult_length o r :
  (List.length (optimizationHistory (recordOptimizationResult o r)) <= 100)%nat.
Proof.
  unfold recordOptimizationResult. cbv zeta.
  cbn [optimizationHistory with_optimizationHistory].
  destruct (100 <? List.length (optimizationHistory o ++ [r]))%nat eqn:E.
  - rewrite slice_last_length. lia.
  - now apply Nat.ltb_ge in E.
Qed.

(** X3.  [recordOptimizationResult] keeps the history at 100 entries at most,
    whatever its length before: the stored history is the end of the old
    history followed by the new result, which comes last. *)
Theorem recordOptimizationResult_bounded :
  forall o r,
    let h := optimizationHistory (recordOptimizationResult o r) in
    (List.length h <= 100)%nat /\
    (exists dropped, optimizationHistory o ++ [r] = dropped ++ h) /\
    (forall d, last h d = r) /\
    ((List.length (optimizationHistory o) < 100)%nat ->
     h = optimizationHistory o ++ [r]).
Proof.
  intros o r h. unfold h, recordOptimizationResult. cbv zeta.
  cbn [optimizationHistory with_optimizationHistory].
  set (old := optimizationHistory o).
  destruct (100 <? List.length (old ++ [r]))%nat eqn:E.
  - apply Nat.ltb_lt in E.
    split; [rewrite slice_last_length; lia|].
    split; [exists (firstn (List.length (old ++ [r]) - 100) (old ++ [r]));
            unfold JSArray.slice_last; now rewrite firstn_skipn|].
    split.
    + intro d. unfold JSArray.slice_last.
      rewrite length_app in *. simpl List.length in *.
      rewrite skipn_app.
      replace (List.length old + 1 - 100 - List.length old)%nat with 0%nat by lia.
      simpl skipn. apply last_last.
    + rewrite length_app in E. simpl in E. lia.
  - apply Nat.ltb_ge in E.
    split; [exact E|].
    split; [now exists []|].
    split; [intro d; apply last_last | reflexivity].
Qed.

Lemma executeAll_cons o samples i f l :
  executeAll o samples i (f :: l)
  = (fst (executeAll
            (recordOptimizationResult
               (fst (executeOptimization o f (samples i)))
               (snd (executeOptimization o f (samples i))))
            samples (S i) l),
     f :: l).
Proof.
  pose proof (executeAll_executes_all o samples i (f :: l)) as E.
  cbn [executeAll] in *.
  destruct (executeOptimization o f (samples i)) as [o1 r].
  cbn [fst snd].
  destruct (executeAll (recordOptimizationResult o1 r) samples (S i) l)
    as [o3 done].
  cbn [fst snd] in *. now rewrite E.
Qed.

Lemma executeAll_history_bounded o samples i l :
  (List.length (optimizationHistory o) <= 100)%nat ->
  (List.length (optimizationHistory (fst (executeAll o samples i l))) <= 100)%nat.
Proof.
  revert o i. induction l as [|f l IH]; intros o i H.
  - exact H.
  - rewrite executeAll_cons. cbn [fst].
    apply IH. apply recordOptimizationResult_length.
Qed.

Lemma executeAll_intervals o samples i l :
  intervals (fst (executeAll o samples i l)) = intervals o.
Proof.
  revert o i. induction l as [|f l IH]; intros o i.
  - reflexivity.
  - rewrite executeAll_cons. cbn [fst]. rewrite IH. reflexivity.
Qed.

Lemma updatePredictionModel_history o upd :
  optimizationHistory (updatePredictionModel o upd) = optimizationHistory o.
Proof. destruct upd; reflexivity. Qed.

Lemma cycleBody_history_bounded o env :
  (List.length (optimizationHistory o) <= 100)%nat ->
  (List.length (optimizationHistory (fst (cycleBody o env))) <= 100)%nat.
Proof.
  intro H. unfold cycleBody. cbv zeta.
  match goal with
  | |- context [executeAll ?a ?b ?c ?d] =>
      pose proof (executeAll_history_bounded a b c d H) as B;
      destruct (executeAll a b c d) as [o2 done]
  end.
  simpl in B. cbn [fst].
  destruct (adaptiveLearning (config o2));
    [rewrite updatePredictionModel_history|]; exact B.
Qed.

Lemma step_history_bounded o e :
  (List.length (optimizationHistory o) <= 100)%nat ->
  (List.length (optimizationHistory (fst (step o e))) <= 100)%nat.
Proof.
  intro H. destruct e; simpl.
  - unfold initialize, startOptimizationCycle.
    destruct (enableRealTimeOptimization (config o)); exact H.
  - exact H.
  - exact H.
  - lia.
  - destruct (intervals o); [exact H|].
    unfold timerCallback. destruct (negb (isOptimizing o)); exact H.
  - destruct (isOptimizing o); [|exact H].
    pose proof (cycleBody_history_bounded o env H) as B.
    destruct (cycleBody o env) as [o1 done]. exact B.
Qed.

Lemma run_history_bounded es o :
  (List.length (optimizationHistory o) <= 100)%nat ->
  (List.length (optimizationHistory (fst (run o es))) <= 100)%nat.
Proof.
  revert o. induction es as [|e es IH]; intros o H; simpl.
  - exact H.
  - pose proof (step_history_bounded o e H) as B.
    destruct (step o e) as [o1 obs1]. simpl in B.
    specialize (IH o1 B).
    destruct (run o1 es) as [o2 obs2]. exact IH.
Qed.

(** X4.  Whatever happens to an optimizer after its construction (timer
    firings, cycles, [start], [stop], [clearHistory]), its optimization
    history never holds more than 100 results. *)
Theorem optimizationHistory_never_exceeds_cap :
  forall cfg es,
    (List.length (optimizationHistory (fst (run (new cfg) es))) <= 100)%nat.
Proof.
  intros cfg es. apply run_history_bounded. simpl. lia.
Qed.

Lemma num_nonneg n : 0 <= num n.
Proof.
  unfold num. change 0 with (inject_Z 0). rewrite <- Zle_Qle. lia.
Qed.

Lemma num_le n m : (n <= m)%nat -> num n <= num m.
Proof. intro H. unfold num. rewrite <- Zle_Qle. lia. Qed.

Lemma num_pos n : (0 < n)%nat -> 0 < num n.
Proof.
  intro H. unfold num. change 0 with (inject_Z 0). rewrite <- Zlt_Qlt. lia.
Qed.

Lemma fold_improvements (h : list OptimizationResult) (a : Q) :
  fold_left (fun sum r => sum + improvement r) h a
  == a + qsum (List.map improvement h).
Proof.
  revert a. induction h as [|r h IH]; intro a; simpl.
  - ring.
  - rewrite IH. ring.
Qed.

(** X5.  The statistics are well formed for every state: the successes are
    counted among the recorded results, the success rate lies between 0 and
    1, the average improvement times the number of results is the sum of
    the recorded improvements, and with an empty history both quotients are
    0 (nothing is divided by zero). *)
Theorem getStats_well_formed :
  forall o,
    let s := getStats o in
    totalOptimizations s = List.length (optimizationHistory o) /\
    (successfulOptimizations s <= totalOptimizations s)%nat /\
    0 <= successRate s /\ successRate s <= 1 /\
    averageImprovement s * num (totalOptimizations s)
      == qsum (List.map improvement (optimizationHistory o)) /\
    (optimizationHistory o = [] ->
     successRate s = 0 /\ averageImprovement s = 0).
Proof.
  intros o s. unfold s, getStats. cbv zeta.
  cbn [totalOptimizations successfulOptimizations successRate averageImprovement].
  set (h := optimizationHistory o).
  assert (F : (List.length (filter success h) <= List.length h)%nat)
    by apply filter_length_le.
  assert (S : fold_left (fun sum r => sum + improvement r) h 0
              == qsum (List.map improvement h)).
  { rewrite fold_improvements. ring. }
  split; [reflexivity|]. split; [exact F|].
  destruct (0 <? List.length h)%nat eqn:E.
  - apply Nat.ltb_lt in E. pose proof (num_pos _ E) as P.
    split; [|split; [|split]].
    + apply Qle_shift_div_l; [exact P|]. rewrite Qmult_0_l. apply num_nonneg.
    + apply Qle_shift_div_r; [exact P|]. rewrite Qmult_1_l. now apply num_le.
    + rewrite S. field. lra.
    + intro N. rewrite N in E. simpl in E. lia.
  - apply Nat.ltb_ge in E.
    assert (N : h = []) by (destruct h; [reflexivity | simpl in E; lia]).
    split; [lra|]. split; [lra|]. split.
    + rewrite N. simpl. unfold num. simpl. ring.
    + auto.
Qed.

(** X6.  Timers only accumulate: no event removes one, and every call of
    [start] registers a further one. *)
Theorem timers_only_accumulate :
  forall es o,
    (intervals o + starts es <= intervals (fst (run o es)))%nat.
Proof.
  induction es as [|e es IH]; intro o; simpl.
  - unfold starts. simpl. lia.
  - assert (B : (intervals o
                 + (match e with Start => 1 | _ => 0 end)
                 <= intervals (fst (step o e)))%nat).
    { destruct e; simpl; try lia.
      - unfold initialize, startOptimizationCycle.
        destruct (enableRealTimeOptimization (config o)); simpl; lia.
      - destruct (intervals o) eqn:I; [simpl; lia|].
        unfold timerCallback.
        destruct (negb (isOptimizing o)); simpl; lia.
      - destruct (isOptimizing o); [|simpl; lia].
        unfold cycleBody. cbv zeta.
        match goal with
        | |- context [executeAll ?a ?b ?c ?d] =>
            pose proof (executeAll_intervals a b c d) as K;
            destruct (executeAll a b c d) as [o2 done]
        end.
        simpl in K. cbn [fst].
        destruct (adaptiveLearning (config o2));
          [destruct (predictionUpdate env)|]; simpl; lia. }
    specialize (IH (fst (step o e))).
    destruct (step o e) as [o1 obs1]. simpl in *.
    destruct (run o1 es) as [o2 obs2]. simpl in *.
    unfold starts in *. simpl.
    destruct e; simpl in *; lia.
Qed.

End OptimizerStateFacts.

Section InFlightFacts.
Import InFlight.

(** With the timer as the only caller, the flag tells whether a cycle is
    under way, and there is at most one. *)
Lemma run_timer_only (calls : list Call) (s : State) :
  ~ In ForceOptimization calls ->
  inFlight s = (if isOptimizing s then 1 else 0)%nat ->
  inFlight (run s calls)
  = (if isOptimizing (run s calls) then 1 else 0)%nat.
Proof.
  revert s. induction calls as [|c calls IH]; intros s N H; simpl.
  - exact H.
  - apply IH; [intro M; apply N; now right|].
    destruct c; simpl.
    + unfold timerCallback. destruct (isOptimizing s) eqn:E; simpl.
      * rewrite E. exact H.
      * rewrite H. reflexivity.
    + elim N. now left.
    + unfold finally. destruct (inFlight s) as [|n] eqn:F; simpl.
      * rewrite F. exact H.
      * destruct (isOptimizing s); [|discriminate]. now injection H as ->.
Qed.

(** X7.  As long as [runOptimizationCycle] is started by the timer callback
    only, cycles never overlap: after any sequence of timer firings and
    cycle ends on a new optimizer at most one cycle is under way, and
    [isOptimizing] is set exactly while one is.  (The route's
    [force-optimization] calls [runOptimizationCycle] without the test, and
    then cycles do overlap: example [forced_cycle_overlaps].) *)
Theorem timer_cycles_do_not_overlap :
  forall calls,
    ~ In ForceOptimization calls ->
    (inFlight (run idle calls) <= 1)%nat /\
    (isOptimizing (run idle calls) = true <->
     inFlight (run idle calls) = 1%nat).
Proof.
  intros calls N.
  pose proof (run_timer_only calls idle N eq_refl) as H.
  rewrite H. destruct (isOptimizing (run idle calls)).
  - split; [lia | tauto].
  - split; [lia|]. split; discriminate.
Qed.

Lemma timer_cycles_do_not_overlap_witness :
  (inFlight (run idle [TimerFires; TimerFires; CycleEnds; TimerFires]) <= 1)%nat.
Proof.
  apply (timer_cycles_do_not_overlap
           [TimerFires; TimerFires; CycleEnds; TimerFires]).
  simpl. intuition discriminate.
Defined.

(** A forced cycle that starts and ends while a timer cycle is under way
    clears [isOptimizing], and the next timer firing starts a second timer
    cycle beside the first. *)
Example forced_cycle_overlaps :
  inFlight (run idle [TimerFires; ForceOptimization; CycleEnds; TimerFires])
  = 2%nat.
Proof. reflexivity. Qed.

End InFlightFacts.

Section CycleEffects.
Import Optimizer.

Lemma get_set_other {V : Type} (k k0 : string) (v : V) (m : AMap.t V) :
  k <> k0 -> AMap.get k0 (AMap.set k v m) = AMap.get k0 m.
Proof.
  intro N. induction m as [|[k' v'] m IH]; simpl.
  - destruct (String.eqb k k0) eqn:E; [|reflexivity].
    apply String.eqb_eq in E. contradiction.
  - destruct (String.eqb k' k) eqn:E; simpl.
    + apply String.eqb_eq in E. subst k'.
      destruct (String.eqb k k0) eqn:E0; [|reflexivity].
      apply String.eqb_eq in E0. contradiction.
    + now rewrite IH.
Qed.

(** A loop stored under [k] with a successful result. *)
Let stored (k : string) (o : RealTimeOptimizer) : Prop :=
  exists f, AMap.get k (feedbackLoops o) = Some f /\
            success (result f) = true /\ id f = k.

Lemma executeAll_stored l o samples i k :
  In k (List.map id l) \/ stored k o ->
  stored k (fst (executeAll o samples i l)).
Proof.
  revert o i. induction l as [|f l IH]; intros o i H.
  - destruct H as [[]|H]. exact H.
  - rewrite executeAll_cons. cbn [fst]. apply IH.
    destruct (string_dec (id f) k) as [E|N].
    + right. subst k. unfold stored.
      cbn [executeOptimization fst snd recordOptimizationResult
           with_optimizationHistory with_feedbackLoops feedbackLoops].
      eexists. split; [apply get_set_same|]. split; reflexivity.
    + destruct H as [[H|H]|H]; [contradiction | now left |].
      right. destruct H as (g & G & S & I). exists g.
      cbn [executeOptimization fst snd recordOptimizationResult
           with_optimizationHistory with_feedbackLoops feedbackLoops].
      rewrite get_set_other by exact N. auto.
Qed.

Lemma executeAll_frame o samples i l :
  metricsHistory (fst (executeAll o samples i l)) = metricsHistory o /\
  config (fst (executeAll o samples i l)) = config o /\
  predictionModel (fst (executeAll o samples i l)) = predictionModel o.
Proof.
  revert o i. induction l as [|f l IH]; intros o i.
  - auto.
  - rewrite executeAll_cons. cbn [fst].
    destruct (IH (recordOptimizationResult
                    (fst (executeOptimization o f (samples i)))
                    (snd (executeOptimization o f (samples i)))) (S i))
      as (-> & -> & ->).
    auto.
Qed.

(** X8.  One optimization cycle appends exactly the collected metrics to the
    metrics history, leaves the configuration and the timers as they were
    and [isOptimizing] false, and stores every loop it executed in the map
    of feedback loops, under the loop's id and with a successful result. *)
Theorem runOptimizationCycle_effects :
  forall o env,
    let o' := fst (runOptimizationCycle o env) in
    let executed := snd (runOptimizationCycle o env) in
    metricsHistory o' = metricsHistory o ++ [currentMetrics env] /\
    isOptimizing o' = false /\
    config o' = config o /\
    intervals o' = intervals o /\
    (forall f, In f executed ->
       exists g, AMap.get (id f) (feedbackLoops o') = Some g /\
                 success (result g) = true /\ id g = id f).
Proof.
  intros o env o' executed.
  pose proof (runOptimizationCycle_executed o env) as X. fold executed in X.
  unfold o', executed in *. clear o' executed.
  unfold runOptimizationCycle, cycleBody, identifyOptimizationOpportunities,
    JSArray.slice0 in *.
  cbv zeta in *.
  change (feedbackLoops (with_metricsHistory (with_isOptimizing o true) _))
    with (feedbackLoops o) in *.
  change (config (with_metricsHistory (with_isOptimizing o true) _))
    with (config o) in *.
  change (metricsHistory (with_isOptimizing o true)) with (metricsHistory o) in *.
  revert X.
  generalize (firstn (maxOptimizationsPerCycle (config o))
      (JSArray.sort byPriority
         (detect (feedbackLoops o) (stamps env) 0
            (metricEntries (currentMetrics env))))).
  intros opts X.
  set (o1 := with_metricsHistory (with_isOptimizing o true)
               (metricsHistory o ++ [currentMetrics env])) in *.
  pose proof (executeAll_frame o1 (samples env) 0 opts) as (F1 & F2 & F3).
  pose proof (executeAll_intervals o1 (samples env) 0 opts) as F4.
  pose proof (fun k => executeAll_stored opts o1 (samples env) 0 k) as S.
  pose proof (executeAll_executes_all o1 (samples env) 0 opts) as D.
  destruct (executeAll o1 (samples env) 0 opts) as [o2 done].
  cbn [fst snd] in *. subst done.
  assert (U : forall (b : bool) upd,
             let o3 := if b then updatePredictionModel o2 upd else o2 in
             metricsHistory o3 = metricsHistory o2 /\
             config o3 = config o2 /\
             intervals o3 = intervals o2 /\
             feedbackLoops o3 = feedbackLoops o2).
  { intros [|] [p|]; simpl; auto. }
  destruct (U (adaptiveLearning (config o2)) (predictionUpdate env))
    as (U1 & U2 & U3 & U4).
  cbv zeta in *.
  cbn [metricsHistory isOptimizing config intervals feedbackLoops
       with_isOptimizing].
  rewrite U1, U2, U3, U4, F1, F2, F4.
  repeat split.
  intros f H.
  destruct (S (id f)) as (g & G); [left; now apply in_map|].
  exists g. exact G.
Qed.

End CycleEffects.

(** ** The refinement engine: assessment, selection and the loop *)

Section AssessmentFacts.
Import Refinement.

Lemma or_default_nonzero (x : option Q) : ~ JS.or_default x 0.5 == 0.
Proof.
  unfold JS.or_default. destruct x as [v|]; [|discriminate].
  destruct (Qeq_bool v 0) eqn:E; [discriminate|].
  now apply Qeq_bool_neq.
Qed.

Lemma or_default_passes (v : Q) : ~ v == 0 -> JS.or_default (Some v) 0.5 = v.
Proof.
  intro N. unfold JS.or_default.
  destruct (Qeq_bool v 0) eqn:E; [|reflexivity].
  apply Qeq_bool_iff in E. contradiction.
Qed.

(** X9.  [processQualityMetrics] never produces a score of 0: a score the
    backend reports as 0, like a missing one, is replaced by 0.5, while any
    other reported overall score is passed on unchanged. *)
Theorem processQualityMetrics_never_zero :
  forall data,
    ~ overall (processQualityMetrics data) == 0 /\
    Forall (fun s => ~ s == 0) (subScores (processQualityMetrics data)) /\
    (forall v, d_overall data = Some v ->
       overall (processQualityMetrics data) = if Qeq_bool v 0 then 0.5 else v).
Proof.
  intro data. split; [|split].
  - apply or_default_nonzero.
  - unfold subScores, processQualityMetrics, sub. simpl.
    repeat (apply Forall_cons; [apply or_default_nonzero|]).
    apply Forall_nil.
  - intros v H. simpl. rewrite H. reflexivity.
Qed.

Section ArgMax.
Context {A : Type}.
Variable sc : A -> Q.

Let pick (best current : A) : A :=
  if JS.gtb (sc current) (sc best) then current else best.

Lemma fold_pick_first_maximum (l pre post : list A) (best : A) :
  (forall t, In t pre -> sc t < sc best) ->
  (forall t, In t post -> sc t <= sc best) ->
  exists before after,
    pre ++ best :: post ++ l = before ++ fold_left pick l best :: after /\
    (forall t, In t before -> sc t < sc (fold_left pick l best)) /\
    (forall t, In t after -> sc t <= sc (fold_left pick l best)).
Proof.
  revert pre post best. induction l as [|x l IH]; intros pre post best Hpre Hpost.
  - exists pre, post. rewrite app_nil_r. auto.
  - simpl fold_left.
    destruct (JS.gtb (sc x) (sc best)) eqn:E.
    + replace (pick best x) with x by (unfold pick; now rewrite E).
      apply ltb_lt in E.
      destruct (IH (pre ++ best :: post) [] x) as (before & after & Eq & Hb & Ha).
      * intros t Ht. apply in_app_or in Ht. destruct Ht as [Ht|[<-|Ht]].
        -- specialize (Hpre t Ht). lra.
        -- exact E.
        -- specialize (Hpost t Ht). lra.
      * intros t [].
      * exists before, after. split; [|auto].
        rewrite <- Eq. simpl. rewrite <- !app_assoc. reflexivity.
    + replace (pick best x) with best by (unfold pick; now rewrite E).
      apply ltb_ge in E.
      destruct (IH pre (post ++ [x]) best) as (before & after & Eq & Hb & Ha).
      * exact Hpre.
      * intros t Ht. apply in_app_or in Ht. destruct Ht as [Ht|[<-|[]]]; auto.
      * exists before, after. split; [|auto].
        rewrite <- Eq. rewrite <- !app_assoc. reflexivity.
Qed.

End ArgMax.

(** X10.  [selectBestTechnique] returns one of the techniques it is given, with
    the highest score; among several of that score, the first in the
    order of the list. *)
Theorem selectBestTechnique_first_maximum :
  forall first others q cfg,
    let best := selectBestTechnique first others q cfg in
    exists before after,
      first :: others = before ++ best :: after /\
      (forall t, In t before -> score q cfg t < score q cfg best) /\
      (forall t, In t after -> score q cfg t <= score q cfg best).
Proof.
  intros first others q cfg best.
  destruct (fold_pick_first_maximum (score q cfg) others [] [] first)
    as (before & after & Eq & Hb & Ha).
  - intros t [].
  - intros t [].
  - exists before, after. split; [exact Eq | split; assumption].
Qed.

Lemma selectBestTechnique_in first others q cfg :
  In (selectBestTechnique first others q cfg) (first :: others).
Proof.
  destruct (fold_pick_first_maximum (score q cfg) others [] [] first)
    as (before & after & Eq & _); [intros t []|intros t []|].
  assert (Eq' : first :: others
                = before ++ selectBestTechnique first others q cfg :: after)
    by exact Eq.
  rewrite Eq'. apply in_or_app. right. now left.
Qed.

End AssessmentFacts.

Section LoopFacts.
Import Refinement.

Variable w : World.
Variable targetPrompt : string.
Variable cfg : RefinementConfig.

(** What one pass through the loop body does. *)
Lemma loopBody_cases st :
  (applicable cfg (ls_quality st) = [] /\
   loopBody w targetPrompt cfg st = Break (entering st)) \/
  (exists first others image used requests,
      applicable cfg (ls_quality st) = first :: others /\
      applyRefinement w (ls_requests st) (ls_image st) first others
        (ls_quality st) targetPrompt cfg = (image, used, requests) /\
      loopBody w targetPrompt cfg st =
      Next {| ls_image := image;
              ls_quality := assessQuality (backend w requests);
              ls_iteration := S (ls_iteration st);
              ls_converged :=
                checkConvergence (assessQuality (backend w requests)) cfg;
              ls_steps := ls_steps st ++ [{|
                iteration := ls_iteration st;
                inputImage := ls_image st;
                outputImage := image;
                qualityBefore := ls_quality st;
                qualityAfter := assessQuality (backend w requests);
                improvements :=
                  calculateImprovements (ls_quality st)
                    (assessQuality (backend w requests));
                techniquesApplied := used;
                processingTime := elapsed w (ls_iteration st) |}];
              ls_engine :=
                push_histories (ls_engine st)
                  {| iteration := ls_iteration st;
                     inputImage := ls_image st;
                     outputImage := image;
                     qualityBefore := ls_quality st;
                     qualityAfter := assessQuality (backend w requests);
                     improvements :=
                       calculateImprovements (ls_quality st)
                         (assessQuality (backend w requests));
                     techniquesApplied := used;
                     processingTime := elapsed w (ls_iteration st) |}
                  (assessQuality (backend w requests));
              ls_requests := S requests;
              ls_entered := S (ls_entered st) |}).
Proof.
  unfold loopBody, applicable. cbv zeta.
  cbn [entering ls_quality ls_image ls_requests ls_iteration ls_steps
       ls_engine ls_entered].
  destruct (filter (fun tech => applicability tech (ls_quality st))
              (techniques cfg)) as [|first others].
  - left. split; reflexivity.
  - right.
    destruct (applyRefinement w (ls_requests st) (ls_image st) first others
                (ls_quality st) targetPrompt cfg)
      as [[image used] requests] eqn:X.
    exists first, others, image, used, requests.
    split; [reflexivity|]. split; [exact X | reflexivity].
Qed.

(** An invariant of the loop head that the body preserves holds when the
    loop is left, with what the exit itself tells. *)
Lemma while_rule (P : LoopState -> Prop) (R : Exit -> LoopState -> Prop) :
  (forall st, P st -> guard cfg st = false -> R GuardFalse st) ->
  (forall st, P st -> guard cfg st = true ->
     applicable cfg (ls_quality st) = [] -> R NoTechnique (entering st)) ->
  (forall st st', P st -> guard cfg st = true ->
     loopBody w targetPrompt cfg st = Next st' -> P st') ->
  (forall st, R OutOfFuel st) ->
  forall fuel st, P st ->
    R (fst (while fuel w targetPrompt cfg st))
      (snd (while fuel w targetPrompt cfg st)).
Proof.
  intros HG HB HN HF fuel. induction fuel as [|fuel IH]; intros st H; simpl.
  - destruct (guard cfg st) eqn:G; simpl; auto.
  - destruct (guard cfg st) eqn:G; simpl; auto.
    destruct (loopBody_cases st) as [[A B]|(f & o & i & u & r & A & X & B)];
      rewrite B; simpl.
    + auto.
    + apply IH. eapply HN; eauto.
Qed.

End LoopFacts.

Section RefineImageMore.
Import Refinement.

(** X11.  Without an iteration to run ([maxIterations = 0]) or without a
    technique that applies to the initial assessment, [refineImage] returns
    the input image with its initial assessment, no steps and a total
    improvement of 0, and reports it as not converged, whatever the initial
    overall score is. *)
Theorem refineImage_without_steps :
  forall e w initialImage targetPrompt config,
    let cfg := fullConfig e config in
    let initial := assessQuality (backend w 0%nat) in
    maxIterations cfg = 0%nat \/ applicable cfg initial = [] ->
    snd (refineImage e w initialImage targetPrompt config)
    = {| finalImage := initialImage;
         quality := initial;
         steps := [];
         totalImprovement := 0;
         converged := false |}.
Proof.
  intros e w initialImage targetPrompt config cfg initial H.
  unfold refineImage, refineLoop. cbv zeta. fold cfg.
  destruct (maxIterations cfg) as [|n] eqn:M.
  - simpl while. unfold guard. rewrite M. simpl. reflexivity.
  - destruct H as [H|H]; [discriminate|].
    simpl while. unfold guard. rewrite M. simpl andb. cbv iota.
    destruct (loopBody_cases w targetPrompt cfg (initialState e w initialImage))
      as [[A B]|(f & o & i & u & r & A & _)].
    + rewrite B. simpl. reflexivity.
    + simpl in A. fold initial in A. rewrite H in A. discriminate.
Qed.

Lemma refineImage_without_steps_witness :
  converged
    (snd (refineImage new acceptingWorld "image" "prompt" (onlyMaxIterations 0)))
  = false /\
  qualityThreshold (fullConfig new (onlyMaxIterations 0))
  <= overall
       (quality
          (snd (refineImage new acceptingWorld "image" "prompt"
                  (onlyMaxIterations 0)))).
Proof.
  rewrite (refineImage_without_steps new acceptingWorld "image" "prompt"
             (onlyMaxIterations 0)).
  - split; [reflexivity | vm_compute; discriminate].
  - left. reflexivity.
Defined.

(** X12.  The [converged] flag of the result: it is set exactly when at least
    one step was made and the returned overall score reaches the
    threshold; when it is not set, either [maxIterations] steps were made
    or no technique applies to the returned quality. *)
Theorem refineImage_converged_flag :
  forall e w initialImage targetPrompt config,
    let cfg := fullConfig e config in
    let r := snd (refineImage e w initialImage targetPrompt config) in
    (converged r = true <->
     steps r <> [] /\ qualityThreshold cfg <= overall (quality r)) /\
    (converged r = false ->
     List.length (steps r) = maxIterations cfg \/
     applicable cfg (quality r) = []).
Proof.
  intros e w initialImage targetPrompt config cfg r.
  destruct (refineLoop_terminates e w initialImage targetPrompt config)
    as [T P].
  fold cfg in P.
  pose (Inv0 := fun st : LoopState =>
    (ls_steps st = [] -> ls_converged st = false) /\
    (ls_steps st <> [] ->
     ls_converged st = checkConvergence (ls_quality st) cfg)).
  pose (R := fun (ex : Exit) (st : LoopState) =>
    ex = OutOfFuel \/
    (Inv0 st /\
     (ls_converged st = false ->
      (maxIterations cfg <= ls_iteration st)%nat \/
      applicable cfg (ls_quality st) = []))).
  assert (X : R (fst (refineLoop e w initialImage targetPrompt config))
                (snd (refineLoop e w initialImage targetPrompt config))).
  { unfold refineLoop. cbv zeta. fold cfg.
    apply (while_rule w targetPrompt cfg Inv0 R).
    - intros st I G. right. split; [exact I|].
      intro C. left. unfold guard in G. rewrite C in G. simpl in G.
      rewrite andb_true_r in G. now apply Nat.ltb_ge in G.
    - intros st I G A. right. split; [exact I|]. intros _. now right.
    - intros st st' I G B.
      destruct (loopBody_cases w targetPrompt cfg st)
        as [[A B']|(f & o & i & u & q & A & _ & B')]; rewrite B' in B;
        [discriminate|].
      injection B as <-. split; simpl.
      + intro N. now apply app_eq_nil in N.
      + reflexivity.
    - intro st. now left.
    - split; [reflexivity|]. intro N. now elim N. }
  destruct X as [X|[[I1 I2] X]]; [contradiction|].
  destruct P as [PL PB _ _ _ _ _].
  unfold r, refineImage. cbn [snd steps quality converged].
  set (st := snd (refineLoop e w initialImage targetPrompt config)) in *.
  split.
  - split.
    + intro C.
      assert (N : ls_steps st <> []).
      { intro N. rewrite (I1 N) in C. discriminate. }
      split; [exact N|]. rewrite (I2 N) in C. now apply geb_ge in C.
    + intros [N Q]. rewrite (I2 N). now apply geb_ge.
  - intro C. destruct (X C) as [L|A]; [left; lia | now right].
Qed.

(** The techniques of the registry return the image they are given. *)
Lemma builtin_techniques_keep_image :
  Forall (fun t => forall image ctx, apply t image ctx = Some image)
         (AMap.values (registry new)).
Proof. repeat constructor. Qed.

(** X13.  With the registered techniques (no [techniques] in the configuration)
    [refineImage] returns the very image it was given: every step has it as
    input and output and names the one registered technique it applied,
    and the backend is asked once at the start and once per step. *)
Theorem refineImage_keeps_image :
  forall e w initialImage targetPrompt config,
    registry e = registry new ->
    p_techniques config = None ->
    let r := snd (refineImage e w initialImage targetPrompt config) in
    finalImage r = initialImage /\
    Forall (fun s =>
              inputImage s = initialImage /\
              outputImage s = initialImage /\
              exists t, In t (AMap.values (registry new)) /\
                        techniquesApplied s = [name t])
           (steps r) /\
    ls_requests (snd (refineLoop e w initialImage targetPrompt config))
    = S (List.length (steps r)).
Proof.
  intros e w initialImage targetPrompt config He Hc r.
  set (cfg := fullConfig e config).
  assert (Tq : techniques cfg = AMap.values (registry new)).
  { unfold cfg, fullConfig. simpl. rewrite Hc, He. reflexivity. }
  pose (P := fun st : LoopState =>
    ls_image st = initialImage /\
    ls_requests st = S (List.length (ls_steps st)) /\
    Forall (fun s =>
              inputImage s = initialImage /\
              outputImage s = initialImage /\
              exists t, In t (AMap.values (registry new)) /\
                        techniquesApplied s = [name t])
           (ls_steps st)).
  pose (R := fun (ex : Exit) (st : LoopState) => ex = OutOfFuel \/ P st).
  assert (X : R (fst (refineLoop e w initialImage targetPrompt config))
                (snd (refineLoop e w initialImage targetPrompt config))).
  { unfold refineLoop. cbv zeta. fold cfg.
    apply (while_rule w targetPrompt cfg P R).
    - intros st I _. now right.
    - intros st I _ _. right. exact I.
    - intros st st' (I1 & I2 & I3) G B.
      destruct (loopBody_cases w targetPrompt cfg st)
        as [[A B']|(f & o & i & u & q & A & Y & B')]; rewrite B' in B;
        [discriminate|].
      injection B as <-.
      assert (Sel : In (selectBestTechnique f o (ls_quality st) cfg)
                       (AMap.values (registry new))).
      { rewrite <- Tq.
        pose proof (selectBestTechnique_in f o (ls_quality st) cfg) as S.
        rewrite <- A in S. unfold applicable in S.
        apply filter_In in S. apply S. }
      unfold applyRefinement in Y. cbv zeta in Y.
      pose proof builtin_techniques_keep_image as K.
      rewrite Forall_forall in K. rewrite (K _ Sel) in Y.
      injection Y as <- <- <-.
      split; [exact I1|]. split.
      + simpl. rewrite length_app. simpl. lia.
      + simpl. apply Forall_app. split; [exact I3|].
        constructor; [|constructor]. simpl.
        split; [exact I1|]. split; [exact I1|].
        eexists. split; [exact Sel | reflexivity].
    - intro st. now left.
    - split; [reflexivity|]. split; [reflexivity | constructor]. }
  destruct (refineLoop_terminates e w initialImage targetPrompt config)
    as [T _].
  destruct X as [X|(I1 & I2 & I3)]; [contradiction|].
  unfold r, refineImage. cbn [snd steps finalImage].
  auto.
Qed.

Lemma refineImage_keeps_image_witness :
  finalImage (snd (refineImage new improvingWorld "image" "prompt" noConfig))
  = "image".
Proof.
  apply (refineImage_keeps_image new improvingWorld "image" "prompt" noConfig);
    reflexivity.
Defined.

(** X14.  After [refineImage] the engine's quality history is the initial
    assessment followed by the assessment after each step, the steps have
    been appended to its refinement history, and the registry is as
    before. *)
Theorem refineImage_histories :
  forall e w initialImage targetPrompt config,
    let e' := fst (refineImage e w initialImage targetPrompt config) in
    let r := snd (refineImage e w initialImage targetPrompt config) in
    qualityHistory e'
    = assessQuality (backend w 0%nat) :: List.map qualityAfter (steps r) /\
    refinementHistory e' = refinementHistory e ++ steps r /\
    registry e' = registry e.
Proof.
  intros e w initialImage targetPrompt config e' r.
  set (cfg := fullConfig e config).
  pose (P := fun st : LoopState =>
    qualityHistory (ls_engine st)
    = assessQuality (backend w 0%nat) :: List.map qualityAfter (ls_steps st) /\
    refinementHistory (ls_engine st) = refinementHistory e ++ ls_steps st /\
    registry (ls_engine st) = registry e).
  pose (R := fun (ex : Exit) (st : LoopState) => ex = OutOfFuel \/ P st).
  assert (X : R (fst (refineLoop e w initialImage targetPrompt config))
                (snd (refineLoop e w initialImage targetPrompt config))).
  { unfold refineLoop. cbv zeta. fold cfg.
    apply (while_rule w targetPrompt cfg P R).
    - intros st I _. now right.
    - intros st I _ _. right. exact I.
    - intros st st' (I1 & I2 & I3) G B.
      destruct (loopBody_cases w targetPrompt cfg st)
        as [[A B']|(f & o & i & u & q & A & Y & B')]; rewrite B' in B;
        [discriminate|].
      injection B as <-. unfold P. simpl.
      rewrite I1, I2, I3, map_app. simpl.
      rewrite <- app_assoc. auto.
    - intro st. now left.
    - unfold P. simpl. rewrite app_nil_r. auto. }
  destruct (refineLoop_terminates e w initialImage targetPrompt config)
    as [T _].
  destruct X as [X|X]; [contradiction|].
  exact X.
Qed.

End RefineImageMore.

Section ImprovementFacts.
Import Refinement.

Lemma chain_telescopes q0 l q :
  chain q0 l q ->
  qsum (List.map (fun s => overall (qualityAfter s) - overall (qualityBefore s)) l)
  == overall q - overall q0.
Proof.
  revert q0. induction l as [|a l IH]; simpl; intros q0 C.
  - subst. ring.
  - destruct C as [<- C]. rewrite (IH _ C). ring.
Qed.

(** X15.  Every recorded step carries the differences between the quality after
    and before it, and the overall improvements of the steps add up to the
    reported total improvement. *)
Theorem step_improvements_add_up :
  forall e w initialImage targetPrompt config,
    let r := snd (refineImage e w initialImage targetPrompt config) in
    Forall (fun s =>
              improvements s
              = calculateImprovements (qualityBefore s) (qualityAfter s))
           (steps r) /\
    qsum (List.map (fun s => overall (improvements s)) (steps r))
    == totalImprovement r.
Proof.
  intros e w initialImage targetPrompt config r.
  set (cfg := fullConfig e config).
  pose (P := fun st : LoopState =>
    Forall (fun s =>
              improvements s
              = calculateImprovements (qualityBefore s) (qualityAfter s))
           (ls_steps st)).
  pose (R := fun (ex : Exit) (st : LoopState) => ex = OutOfFuel \/ P st).
  assert (X : R (fst (refineLoop e w initialImage targetPrompt config))
                (snd (refineLoop e w initialImage targetPrompt config))).
  { unfold refineLoop. cbv zeta. fold cfg.
    apply (while_rule w targetPrompt cfg P R).
    - intros st I _. now right.
    - intros st I _ _. right. exact I.
    - intros st st' I G B.
      destruct (loopBody_cases w targetPrompt cfg st)
        as [[A B']|(f & o & i & u & q & A & Y & B')]; rewrite B' in B;
        [discriminate|].
      injection B as <-. unfold P. simpl.
      apply Forall_app. split; [exact I|].
      constructor; [reflexivity | constructor].
    - intro st. now left.
    - constructor. }
  destruct (refineLoop_terminates e w initialImage targetPrompt config)
    as [T Q].
  destruct X as [X|X]; [contradiction|].
  destruct Q as [_ _ _ _ _ _ C].
  unfold r, refineImage. cbn [snd steps totalImprovement].
  set (st := snd (refineLoop e w initialImage targetPrompt config)) in *.
  split; [exact X|].
  rewrite (chain_total _ _ _ C), <- (chain_telescopes _ _ _ C).
  unfold P in X. clear C.
  induction (ls_steps st) as [|s l IH]; simpl; [reflexivity|].
  inversion X as [|? ? Hs Hl]; subst.
  rewrite (IH Hl), Hs. simpl. reflexivity.
Qed.

End ImprovementFacts.

(** ** Adaptive fusion: further properties *)

Section FusionMore.
Import StyleTransfer StyleTransferMore.

(** Two maps with the same keys in the same order whose values are in
    the ratio [s1 : s2]. *)
Let proportional (s1 s2 : Q) (m1 m2 : AMap.t Q) : Prop :=
  Forall2 (fun a b => fst a = fst b /\ snd a * s2 == snd b * s1) m1 m2.

Lemma set_proportional s1 s2 k v1 v2 m1 m2 :
  v1 * s2 == v2 * s1 ->
  proportional s1 s2 m1 m2 ->
  proportional s1 s2 (AMap.set k v1 m1) (AMap.set k v2 m2).
Proof.
  intros V H. induction H as [|[k1 a] [k2 b] m1 m2 [K E] H IH]; simpl.
  - constructor; [split; [reflexivity | exact V] | constructor].
  - simpl in K. subst k2.
    destruct (String.eqb k1 k).
    + constructor; [split; [reflexivity | exact V] | exact H].
    + constructor; [split; [reflexivity | exact E] | exact IH].
Qed.

Lemma storeAll_proportional region styleProfiles cfg1 cfg2 l m1 m2 :
  proportional (strength cfg1) (strength cfg2) m1 m2 ->
  proportional (strength cfg1) (strength cfg2)
    (storeAll region styleProfiles cfg1 l m1)
    (storeAll region styleProfiles cfg2 l m2).
Proof.
  revert m1 m2. induction l as [|p l IH]; intros m1 m2 H; simpl.
  - exact H.
  - apply IH. apply set_proportional; [|exact H].
    unfold rawWeight. ring.
Qed.

Lemma proportional_totals s1 s2 m1 m2 :
  proportional s1 s2 m1 m2 ->
  qsum (AMap.values m1) * s2 == qsum (AMap.values m2) * s1.
Proof.
  intro H. induction H as [|[k1 a] [k2 b] m1 m2 [K E] H IH]; simpl.
  - ring.
  - simpl in E.
    setoid_replace ((a + qsum (AMap.values m1)) * s2)
      with (a * s2 + qsum (AMap.values m1) * s2) by ring.
    rewrite E, IH. ring.
Qed.

Lemma normalize_proportional s1 s2 t1 t2 m1 m2 :
  0 < s1 -> 0 < t1 -> 0 < t2 ->
  t1 * s2 == t2 * s1 ->
  proportional s1 s2 m1 m2 ->
  Forall2 (fun a b => fst a = fst b /\ snd a == snd b)
    (List.map (fun kv => (fst kv, snd kv / t1)) m1)
    (List.map (fun kv => (fst kv, snd kv / t2)) m2).
Proof.
  intros S1 T1 T2 T P.
  induction P as [|[k1 a] [k2 b] m1 m2 [K X] P IH]; simpl.
  - constructor.
  - constructor; [|exact IH]. simpl in *. split; [exact K|].
    assert (Y : a * t2 == b * t1).
    { assert (Z : a * t2 * s1 == b * t1 * s1).
      { setoid_replace (a * t2 * s1) with (a * (t2 * s1)) by ring.
        rewrite <- T.
        setoid_replace (a * (t1 * s2)) with (a * s2 * t1) by ring.
        rewrite X. ring. }
      apply Qmult_inj_r in Z; [exact Z | lra]. }
    apply Qmult_inj_r with (z := t1 * t2); [nra|].
    setoid_replace (a / t1 * (t1 * t2)) with (a * t2) by (field; lra).
    setoid_replace (b / t2 * (t1 * t2)) with (b * t1) by (field; lra).
    exact Y.
Qed.

(** X16.  The configured [strength] does not influence the blend weights: for
    any two configurations with a strength between 2^-1000 and 2^1000 the
    normalized weights of a region are the same, key by key (the factor
    cancels in the normalization; on the doubles of the engine the two
    results differ by rounding only). *)
Theorem blend_weights_ignore_strength :
  forall region styleProfiles cfg1 cfg2,
    normalStrength (strength cfg1) ->
    normalStrength (strength cfg2) ->
    Forall2 (fun a b => fst a = fst b /\ snd a == snd b)
      (calculateBlendWeights region styleProfiles cfg1)
      (calculateBlendWeights region styleProfiles cfg2).
Proof.
  intros region styleProfiles cfg1 cfg2 S1 S2.
  apply normalStrength_positive in S1, S2.
  destruct styleProfiles as [|p0 ps] eqn:E; [constructor|].
  rewrite <- E. assert (N : styleProfiles <> []) by (rewrite E; discriminate).
  clear E p0 ps.
  unfold calculateBlendWeights. cbv zeta.
  rewrite !rawWeights_storeAll.
  pose proof (storeAll_proportional region styleProfiles cfg1 cfg2
                styleProfiles [] [] (Forall2_nil _)) as P.
  pose proof (proportional_totals _ _ _ _ P) as T.
  assert (T1 : 0 < total (AMap.values
                  (storeAll region styleProfiles cfg1 styleProfiles AMap.empty))).
  { rewrite total_qsum. apply qsum_positive.
    - intro X. apply map_eq_nil in X. revert X.
      apply storeAll_not_empty. now left.
    - apply storeAll_positive; [exact N | exact S1 | constructor]. }
  assert (T2 : 0 < total (AMap.values
                  (storeAll region styleProfiles cfg2 styleProfiles AMap.empty))).
  { rewrite total_qsum. apply qsum_positive.
    - intro X. apply map_eq_nil in X. revert X.
      apply storeAll_not_empty. now left.
    - apply storeAll_positive; [exact N | exact S2 | constructor]. }
  rewrite <- !total_qsum in T.
  apply (normalize_proportional (strength cfg1) (strength cfg2));
    assumption.
Qed.

Lemma blend_weights_ignore_strength_witness :
  Forall2 (fun a b => fst a = fst b /\ snd a == snd b)
    (calculateBlendWeights
       {| r_bounds := None; r_mood := Some "neutral";
          r_complexity := None; r_concepts := None |}
       twoStyles (defaultConfig 2))
    (calculateBlendWeights
       {| r_bounds := None; r_mood := Some "neutral";
          r_complexity := None; r_concepts := None |}
       twoStyles (fullConfig [] halfStrength)).
Proof.
  apply blend_weights_ignore_strength; split; vm_compute; discriminate.
Defined.

(** X17.  [calculateAdaptationLevel] never exceeds 1, and is at least 0.5 for a
    style whose adaptability is not negative. *)
Theorem calculateAdaptationLevel_range :
  forall region style,
    calculateAdaptationLevel region style <= 1 /\
    (0 <= adaptability style -> 0.5 <= calculateAdaptationLevel region style).
Proof.
  intros region style. unfold calculateAdaptationLevel, JS.min. cbv zeta.
  set (a := match r_complexity region with
            | Some c => if JS.gtb c 0.7 then 0.5 + 0.2 else 0.5
            | None => 0.5
            end).
  assert (A : 0.5 <= a).
  { unfold a. destruct (r_complexity region) as [c|]; [|lra].
    destruct (JS.gtb c 0.7); lra. }
  destruct (JS.ltb (a + adaptability style * 0.3) 1.0) eqn:E.
  - apply ltb_lt in E. split; [lra|]. intro H. lra.
  - split; [lra|]. intro H. lra.
Qed.

End FusionMore.

Section FusionMapFacts.
Import StyleTransfer StyleTransferMore.

Lemma fold_best region l b s :
  let step := fun (acc : option StyleProfile * Q) profile =>
    if JS.gtb (regionScore region profile) (snd acc)
    then (Some profile, regionScore region profile) else acc in
  exists b',
    fst (fold_left step l (Some b, s)) = Some b' /\
    (forall p, In p l ->
       regionScore region p <= snd (fold_left step l (Some b, s))) /\
    s <= snd (fold_left step l (Some b, s)) /\
    ((b' = b /\ snd (fold_left step l (Some b, s)) = s) \/
     (In b' l /\
      snd (fold_left step l (Some b, s)) = regionScore region b')).
Proof.
  intro step. revert b s. induction l as [|p l IH]; intros b s; simpl.
  - exists b. split; [reflexivity|]. split; [intros p []|].
    split; [lra | now left].
  - unfold step at 2 4 6 8 10. simpl snd.
    destruct (JS.gtb (regionScore region p) s) eqn:E.
    + apply ltb_lt in E.
      destruct (IH p (regionScore region p)) as (b' & F & A & L & D).
      exists b'. split; [exact F|]. split; [|split].
      * intros q [<-|H]; [exact L | now apply A].
      * lra.
      * right. destruct D as [[-> D]|[D1 D2]]; auto.
    + apply ltb_ge in E.
      destruct (IH b s) as (b' & F & A & L & D).
      exists b'. split; [exact F|]. split; [|split].
      * intros q [<-|H]; [lra | now apply A].
      * exact L.
      * destruct D as [D|[D1 D2]]; auto.
Qed.

Lemma selectBestStyleForRegion_found region styleProfiles :
  (selectBestStyleForRegion region styleProfiles = None <->
   styleProfiles = []) /\
  (forall best,
      selectBestStyleForRegion region styleProfiles = Some best ->
      In best styleProfiles).
Proof.
  unfold selectBestStyleForRegion.
  destruct styleProfiles as [|p0 ps].
  - simpl. split; [tauto | discriminate].
  - simpl hd_error.
    destruct (fold_best region (p0 :: ps) p0 0) as (b' & F & _ & _ & D).
    cbv zeta in *. rewrite F. split; [split; discriminate|].
    intros best H. injection H as <-.
    destruct D as [[-> _]|[D1 _]]; [now left | exact D1].
Qed.

(** X18.  [selectBestStyleForRegion] finds no style exactly when there is no
    profile.  Otherwise it returns one of the profiles: one whose score no
    other profile exceeds, or, when no profile has a score above 0, the
    first profile. *)
Theorem selectBestStyleForRegion_maximal :
  forall region styleProfiles,
    (selectBestStyleForRegion region styleProfiles = None <->
     styleProfiles = []) /\
    (forall best,
        selectBestStyleForRegion region styleProfiles = Some best ->
        In best styleProfiles /\
        ((forall p, In p styleProfiles ->
            regionScore region p <= regionScore region best) \/
         (hd_error styleProfiles = Some best /\
          forall p, In p styleProfiles -> regionScore region p <= 0))).
Proof.
  intros region styleProfiles. unfold selectBestStyleForRegion.
  destruct styleProfiles as [|p0 ps].
  - simpl. split; [tauto | discriminate].
  - simpl hd_error.
    destruct (fold_best region (p0 :: ps) p0 0) as (b' & F & A & L & D).
    cbv zeta in *. rewrite F. split; [split; discriminate|].
    intros best H. injection H as <-.
    destruct D as [[-> D]|[D1 D2]].
    + split; [now left|]. right. split; [reflexivity|].
      intros p H. rewrite <- D. now apply A.
    + split; [exact D1|]. left.
      intros p H. rewrite <- D2. now apply A.
Qed.

Lemma fusionRegions_shape semanticRegions styleProfiles cfg :
  forall i,
    (fusionRegions i semanticRegions styleProfiles cfg = None <->
     semanticRegions <> [] /\ (styleProfiles = [] \/ In None semanticRegions)) /\
    (forall built,
        fusionRegions i semanticRegions styleProfiles cfg = Some built ->
        List.map fr_id built
        = List.map regionId (seq i (List.length semanticRegions)) /\
        Forall2 (fun region fr =>
                   exists r,
                     region = Some r /\
                     blendWeights fr
                     = calculateBlendWeights r styleProfiles cfg /\
                     (exists p, In p styleProfiles /\ dominantStyle fr = id p))
                semanticRegions built).
Proof.
  induction semanticRegions as [|[region|] rest IH]; intro i; simpl.
  - split.
    + split; [discriminate | intros [N _]; now elim N].
    + intros built H. injection H as <-. split; constructor.
  - destruct (selectBestStyleForRegion_found region styleProfiles)
      as [SN SS].
    destruct (selectBestStyleForRegion region styleProfiles) as [best|] eqn:E.
    + pose proof (SS best eq_refl) as Hin.
      assert (NP : styleProfiles <> []) by (intros ->; destruct Hin).
      destruct (IH (S i)) as [IN IS].
      destruct (fusionRegions (S i) rest styleProfiles cfg) as [more|] eqn:F.
      * split.
        -- split; [discriminate|].
           intros [_ [P|[P|P]]]; [contradiction | discriminate |].
           destruct IN as [_ IN]. discriminate IN. split; [|now right].
           intros ->. destruct P.
        -- intros built H. injection H as <-.
           destruct (IS more eq_refl) as [I1 I2].
           split; [simpl; now rewrite I1|].
           constructor; [|exact I2]. exists region. simpl.
           split; [reflexivity|]. split; [reflexivity|]. now exists best.
      * split.
        -- split; [|reflexivity]. intros _. split; [discriminate|].
           destruct IN as [IN _]. destruct (IN eq_refl) as [_ [P|P]];
             [now left | right; now right].
        -- discriminate.
    + split.
      * split; [|reflexivity]. intros _.
        split; [discriminate | left; now apply SN].
      * discriminate.
  - split; [|discriminate].
    split; [|reflexivity]. intros _.
    split; [discriminate | right; now left].
Qed.

Lemma generateFusionMap_regions contentAnalysis styleProfiles cfg :
  (generateFusionMap contentAnalysis styleProfiles cfg = None <->
   regionsOf contentAnalysis <> [] /\
   (styleProfiles = [] \/ In None (regionsOf contentAnalysis))) /\
  (forall fm,
      generateFusionMap contentAnalysis styleProfiles cfg = Some fm ->
      Forall2 (fun region fr =>
                 exists r,
                   region = Some r /\
                   blendWeights fr
                   = calculateBlendWeights r styleProfiles cfg /\
                   (exists p, In p styleProfiles /\ dominantStyle fr = id p))
              (regionsOf contentAnalysis) (regions fm)).
Proof.
  unfold generateFusionMap, regionsOf. cbv zeta.
  destruct (fusionRegions_shape
              (match ca_regions contentAnalysis with
               | Some rs => rs
               | None => []
               end) styleProfiles cfg 0) as [N S].
  destruct (fusionRegions 0 _ styleProfiles cfg) as [built|].
  - split; [split; [discriminate|]; intro H; apply N in H; discriminate|].
    intros fm H. injection H as <-. simpl.
    now destruct (S built eq_refl).
  - split; [split; [intros _; now apply N | reflexivity]|].
    discriminate.
Qed.

(** X19.  [generateFusionMap] throws exactly when the content analysis has at
    least one region and either there is no style profile or one of the
    regions is [null].  Otherwise the map has one fusion region per
    region of the content analysis, named [region_0], [region_1], ... in
    order, each with the blend weights of its region and the id of one of
    the profiles as dominant style; the blend matrix has one row per region
    and one column per profile. *)
Theorem generateFusionMap_shape :
  forall contentAnalysis styleProfiles cfg,
    (generateFusionMap contentAnalysis styleProfiles cfg = None <->
     regionsOf contentAnalysis <> [] /\
     (styleProfiles = [] \/ In None (regionsOf contentAnalysis))) /\
    (forall fm,
        generateFusionMap contentAnalysis styleProfiles cfg = Some fm ->
        List.map fr_id (regions fm)
        = List.map regionId (seq 0 (List.length (regionsOf contentAnalysis))) /\
        Forall2 (fun region fr =>
                   exists r,
                     region = Some r /\
                     blendWeights fr
                     = calculateBlendWeights r styleProfiles cfg /\
                     (exists p, In p styleProfiles /\ dominantStyle fr = id p))
                (regionsOf contentAnalysis) (regions fm) /\
        List.length (blendMatrix fm)
        = List.length (regionsOf contentAnalysis) /\
        Forall (fun row => List.length row = List.length styleProfiles)
               (blendMatrix fm) /\
        semanticPreservation fm = preserveContent cfg).
Proof.
  intros contentAnalysis styleProfiles cfg.
  unfold generateFusionMap, regionsOf. cbv zeta.
  destruct (fusionRegions_shape
              (match ca_regions contentAnalysis with
               | Some rs => rs
               | None => []
               end) styleProfiles cfg 0) as [N S].
  destruct (fusionRegions 0 _ styleProfiles cfg) as [built|].
  - split; [split; [discriminate|]; intro H; apply N in H; discriminate|].
    intros fm H. injection H as <-. simpl.
    destruct (S built eq_refl) as [S1 S2].
    split; [exact S1|]. split; [exact S2|].
    unfold generateBlendMatrix. rewrite length_map.
    split; [symmetry; eapply Forall2_length; exact S2|].
    split; [|reflexivity].
    apply Forall_map. apply Forall_forall. intros fr _.
    now rewrite length_map.
  - split; [split; [intros _; now apply N | reflexivity]|].
    discriminate.
Qed.

End FusionMapFacts.

Section DistinctIds.
Import StyleTransfer StyleTransferMore.

Lemma set_fresh {V : Type} (k : string) (v : V) (m : AMap.t V) :
  ~ In k (AMap.keys m) -> AMap.set k v m = m ++ [(k, v)].
Proof.
  induction m as [|[k' v'] m IH]; simpl; intro N.
  - reflexivity.
  - destruct (String.eqb k' k) eqn:E.
    + apply String.eqb_eq in E. subst k'. elim N. now left.
    + rewrite IH; [reflexivity|]. intro H. apply N. now right.
Qed.

Lemma fold_set_distinct {A V : Type} (key : A -> string) (val : A -> V)
  (l : list A) (acc : AMap.t V) :
  NoDup (List.map key l) ->
  (forall a, In a l -> ~ In (key a) (AMap.keys acc)) ->
  fold_left (fun m a => AMap.set (key a) (val a) m) l acc
  = acc ++ List.map (fun a => (key a, val a)) l.
Proof.
  revert acc. induction l as [|a l IH]; intros acc N D; simpl.
  - now rewrite app_nil_r.
  - inversion N as [|? ? Na Nl]; subst.
    rewrite set_fresh by (apply D; now left).
    rewrite IH; [now rewrite <- app_assoc | exact Nl |].
    intros b Hb H. unfold AMap.keys in H. rewrite map_app in H.
    apply in_app_or in H. destruct H as [H|[H|[]]].
    + apply (D b); [now right | exact H].
    + simpl in H. apply Na. rewrite H. now apply in_map.
Qed.

Lemma get_of_distinct {A V : Type} (key : A -> string) (val : A -> V)
  (l : list A) (a : A) :
  NoDup (List.map key l) -> In a l ->
  AMap.get (key a) (List.map (fun x => (key x, val x)) l) = Some (val a).
Proof.
  induction l as [|x l IH]; simpl; intros N H; [destruct H|].
  inversion N as [|? ? Nx Nl]; subst.
  destruct H as [->|H].
  - now rewrite String.eqb_refl.
  - destruct (String.eqb (key x) (key a)) eqn:E.
    + apply String.eqb_eq in E. elim Nx. rewrite E. now apply in_map.
    + now apply IH.
Qed.

Lemma or_default_zero (v : Q) : JS.or_default (Some v) 0 == v.
Proof.
  unfold JS.or_default. destruct (Qeq_bool v 0) eqn:E; [|reflexivity].
  apply Qeq_bool_iff in E. now symmetry.
Qed.

Lemma qsum_constant {A : Type} (c : Q) (l : list A) :
  qsum (List.map (fun _ => c) l) == c * count l.
Proof.
  unfold count. induction l as [|a l IH].
  - simpl. ring.
  - simpl qsum. rewrite IH. simpl List.length.
    rewrite Nat2Z.inj_succ. unfold Z.succ. rewrite inject_Z_plus.
    change (inject_Z 1) with 1. ring.
Qed.

(** X20.  When the style profiles have distinct ids (as those of
    [extractStyleProfiles] do) and the strength lies between 2^-1000 and
    2^1000 (so that the doubles of the engine differ from the exact numbers
    by rounding only): the style distribution of the fusion map has one entry per profile, in order,
    each of one n-th, summing to 1; the blend weights of every region have
    exactly the profiles' ids as keys, in order; and every row of the blend
    matrix sums to 1. *)
Theorem fusion_map_of_distinct_profiles :
  forall contentAnalysis styleProfiles cfg fm,
    NoDup (List.map id styleProfiles) ->
    styleProfiles <> [] ->
    normalStrength (strength cfg) ->
    generateFusionMap contentAnalysis styleProfiles cfg = Some fm ->
    styleDistribution fm
    = List.map (fun p => (id p, 1 / count styleProfiles)) styleProfiles /\
    total (AMap.values (styleDistribution fm)) == 1 /\
    Forall (fun fr => AMap.keys (blendWeights fr) = List.map id styleProfiles)
           (regions fm) /\
    Forall (fun row => qsum row == 1) (blendMatrix fm).
Proof.
  intros contentAnalysis styleProfiles cfg fm N NE S H.
  apply normalStrength_positive in S.
  destruct (generateFusionMap_regions contentAnalysis styleProfiles cfg)
    as [_ Sh].
  pose proof (Sh fm H) as F2.
  unfold generateFusionMap in H. cbv zeta in H.
  destruct (fusionRegions 0 _ styleProfiles cfg) as [built|]; [|discriminate].
  injection H as <-. simpl in *.
  assert (W : forall region,
             calculateBlendWeights region styleProfiles cfg
             = List.map
                 (fun p => (id p,
                            rawWeight region styleProfiles cfg p
                            / total (AMap.values
                                       (rawWeights region styleProfiles cfg))))
                 styleProfiles).
  { intro region. unfold calculateBlendWeights. cbv zeta.
    rewrite (rawWeights_storeAll region styleProfiles cfg) at 1.
    unfold storeAll.
    rewrite (fold_set_distinct id (rawWeight region styleProfiles cfg))
      by (auto; intros a _ []).
    simpl app. rewrite map_map. reflexivity. }
  split; [|split; [|split]].
  - rewrite (fold_set_distinct id (fun _ => 1 / count styleProfiles))
      by (auto; intros a _ []).
    reflexivity.
  - rewrite (fold_set_distinct id (fun _ => 1 / count styleProfiles))
      by (auto; intros a _ []).
    simpl app. unfold AMap.values. rewrite map_map. simpl.
    rewrite total_qsum, qsum_constant.
    pose proof (count_positive styleProfiles NE). field. lra.
  - clear -F2 W. induction F2 as [|region fr rs frs (r & _ & B & _) F2 IH].
    + constructor.
    + constructor; [|exact IH].
      rewrite B, W. unfold AMap.keys. rewrite map_map. reflexivity.
  - unfold generateBlendMatrix. apply Forall_map.
    clear -F2 W N NE S.
    induction F2 as [|region0 fr rs frs (region & _ & B & _) F2 IH].
    + constructor.
    + constructor; [|exact IH].
      pose proof (calculateBlendWeights_total region styleProfiles cfg NE S)
        as T.
      rewrite B. rewrite total_qsum in T. rewrite <- T.
      rewrite W. unfold AMap.values. rewrite map_map. simpl.
      set (f := fun p => rawWeight region styleProfiles cfg p
                         / total (AMap.values
                                    (rawWeights region styleProfiles cfg))).
      assert (G : forall l, incl l styleProfiles ->
                 qsum (List.map
                         (fun p => JS.or_default
                                     (AMap.get (id p)
                                        (List.map (fun x => (id x, f x))
                                           styleProfiles)) 0) l)
                 == qsum (List.map f l)).
      { induction l as [|p l IHl]; intro I; simpl; [reflexivity|].
        rewrite (get_of_distinct id f styleProfiles p N)
          by (apply I; now left).
        rewrite or_default_zero, IHl; [reflexivity|].
        intros x Hx. apply I. now right. }
      apply G. apply incl_refl.
Qed.

End DistinctIds.

Section StyleProfileFacts.
Import StyleTransfer StyleTransferMore.

Lemma fusion_map_of_distinct_profiles_witness :
  match generateFusionMap twoRegions twoStyles (defaultConfig 2) with
  | Some fm => Forall (fun row => qsum row == 1) (blendMatrix fm)
  | None => False
  end.
Proof.
  destruct (generateFusionMap twoRegions twoStyles (defaultConfig 2))
    as [fm|] eqn:E.
  - apply (fusion_map_of_distinct_profiles
             twoRegions twoStyles (defaultConfig 2) fm).
    + repeat constructor; simpl; intuition discriminate.
    + discriminate.
    + split; vm_compute; discriminate.
    + exact E.
  - vm_compute in E. discriminate.
Defined.

Lemma decimal_injective n m : decimal n = decimal m -> n = m.
Proof.
  unfold decimal. intro H.
  assert (U : Nat.to_uint n = Nat.to_uint m).
  { apply (f_equal NilEmpty.uint_of_string) in H.
    rewrite !NilEmpty.usu in H. now injection H. }
  apply (f_equal Nat.of_uint) in U.
  now rewrite !DecimalNat.Unsigned.of_to in U.
Qed.

Lemma NoDup_map_injective {A B : Type} (f : A -> B) (l : list A) :
  (forall a b, f a = f b -> a = b) -> NoDup l -> NoDup (List.map f l).
Proof.
  intros Inj N. induction N as [|a l Na N IH]; simpl; constructor.
  - intro H. apply in_map_iff in H. destruct H as (b & E & Hb).
    apply Inj in E. now subst b.
  - exact IH.
Qed.

Lemma analyzeStyleImage_id reply index :
  id (analyzeStyleImage reply index) = ("style_" ++ decimal index)%string.
Proof. destruct reply; reflexivity. Qed.

Lemma extractFrom_ids replies i styleImages :
  List.map id (extractFrom replies i styleImages)
  = List.map (fun j => ("style_" ++ decimal j)%string)
      (seq i (List.length styleImages)).
Proof.
  revert i. induction styleImages as [|image rest IH]; intro i; simpl.
  - reflexivity.
  - now rewrite analyzeStyleImage_id, IH.
Qed.

(** X21.  [extractStyleProfiles] returns one profile per style image, whatever
    the backend replies, with the ids [style_0], [style_1], ... in order:
    the ids are pairwise distinct. *)
Theorem extractStyleProfiles_ids :
  forall replies styleImages,
    let profiles := extractStyleProfiles replies styleImages in
    List.length profiles = List.length styleImages /\
    List.map id profiles
    = List.map (fun j => ("style_" ++ decimal j)%string)
        (seq 0 (List.length styleImages)) /\
    NoDup (List.map id profiles).
Proof.
  intros replies styleImages profiles. unfold profiles, extractStyleProfiles.
  pose proof (extractFrom_ids replies 0 styleImages) as E.
  split; [|split].
  - apply (f_equal (@List.length string)) in E.
    now rewrite !length_map, length_seq in E.
  - exact E.
  - rewrite E. apply NoDup_map_injective; [|apply seq_NoDup].
    intros a b H. simpl in H.
    injection H as H. now apply decimal_injective.
Qed.

(** [refineFusion] returns the image and the quality it was given, with an
    empty adaptation history; it lists the style, content and harmony
    enhancements, in this order, for exactly those of the three scores that
    are below 0.7. *)
Lemma refineFusion_lists_gaps :
  forall image quality,
    let r := refineFusion image quality in
    rf_image r = image /\
    rf_quality r = quality /\
    rf_adaptationHistory r = [] /\
    rf_techniques r
    = (if JS.ltb (styleFidelity quality) 0.7
       then ["style-fidelity-enhancement"] else [])
      ++ (if JS.ltb (contentPreservation quality) 0.7
          then ["content-preservation-enhancement"] else [])
      ++ (if JS.ltb (aestheticHarmony quality) 0.7
          then ["aesthetic-harmony-enhancement"] else []).
Proof.
  intros image quality. unfold refineFusion.
  destruct (JS.ltb (styleFidelity quality) 0.7),
           (JS.ltb (contentPreservation quality) 0.7),
           (JS.ltb (aestheticHarmony quality) 0.7);
    simpl; auto.
Qed.

End StyleProfileFacts.

Section TransferStyleFacts.
Import StyleTransfer StyleTransferMore.

Variable stringify : StyleTransferConfig -> string.

Lemma substring_of_append (n : nat) (a b : string) :
  (n <= String.length a)%nat ->
  String.substring 0 n (a ++ b) = String.substring 0 n a.
Proof.
  revert a. induction n as [|n IH]; intros a H.
  - destruct a; simpl; destruct b; reflexivity.
  - destruct a as [|c a]; simpl in H; [lia|].
    simpl. rewrite IH by lia. reflexivity.
Qed.

Lemma joined_prefix (s : string) (rest : list string) :
  (50 <= String.length s)%nat ->
  String.substring 0 50 (String.concat "|" (s :: rest))
  = String.substring 0 50 s.
Proof.
  intro H. destruct rest as [|r rest]; [reflexivity|].
  change (String.concat "|" (s :: r :: rest))
    with (s ++ ("|" ++ String.concat "|" (r :: rest)))%string.
  now apply substring_of_append.
Qed.

Lemma extractStyleProfiles_empty replies styleImages :
  extractStyleProfiles replies styleImages = [] <-> styleImages = [].
Proof.
  pose proof (extractFrom_ids replies 0 styleImages) as L.
  apply (f_equal (@List.length string)) in L.
  rewrite !length_map, length_seq in L.
  unfold extractStyleProfiles. split; intro H.
  - rewrite H in L. destruct styleImages; [reflexivity | discriminate].
  - subst styleImages. reflexivity.
Qed.

(** X22.  When the cache holds nothing for the call, [transferStyle] rejects in
    exactly these cases: the content analysis of the backend parses to
    [null]; or the content analysis has at least one region and either
    there is no style image or one of the regions is [null].  A call that
    rejects leaves the engine as it was. *)
Theorem transferStyle_rejects :
  forall w eng contentImage styleImages config,
    AMap.get
      (generateCacheKey stringify contentImage styleImages
         (fullConfig styleImages config))
      (fusionCache eng) = None ->
    (snd (transferStyle stringify w eng contentImage styleImages config) = None
     <->
     contentReply w = ParsedNull \/
     (exists contentAnalysis,
        analyzeContentStructure (contentReply w) = Some contentAnalysis /\
        regionsOf contentAnalysis <> [] /\
        (styleImages = [] \/ In None (regionsOf contentAnalysis)))) /\
    (snd (transferStyle stringify w eng contentImage styleImages config) = None
     -> fst (transferStyle stringify w eng contentImage styleImages config)
        = eng).
Proof.
  intros w eng contentImage styleImages config M.
  unfold transferStyle. cbv zeta. rewrite M.
  destruct (analyzeContentStructure (contentReply w)) as [ca|] eqn:A.
  - pose proof (generateFusionMap_regions ca
                  (extractStyleProfiles (styleReplies w) styleImages)
                  (fullConfig styleImages config)) as [N _].
    rewrite extractStyleProfiles_empty in N.
    destruct (generateFusionMap ca _ _) as [fm|]; simpl.
    + split; [|discriminate]. split; [discriminate|].
      intros [P|(ca' & A' & R)].
      * rewrite P in A. discriminate.
      * injection A' as <-.
        destruct N as [_ N]. discriminate N. exact R.
    + split; [|reflexivity]. split; [|reflexivity]. intros _. right.
      destruct N as [N _]. exists ca. split; [reflexivity|]. now apply N.
  - simpl. split; [|reflexivity]. split; [|reflexivity]. intros _. left.
    destruct (contentReply w); try discriminate. reflexivity.
Qed.

End TransferStyleFacts.

Section TransferStyleWitnesses.
Import StyleTransfer StyleTransferMore.

Lemma transferStyle_rejects_witness :
  snd (transferStyle constantStringify oneRegionWorld new "content" [] noConfig)
  = None.
Proof.
  apply (transferStyle_rejects constantStringify oneRegionWorld new
           "content" [] noConfig).
  - reflexivity.
  - right. eexists. split; [reflexivity|].
    split; [discriminate | now left].
Defined.

End TransferStyleWitnesses.

Section TransferStyleCache.
Import StyleTransfer StyleTransferMore.

Variable stringify : StyleTransferConfig -> string.

(** A result that [transferStyle] returns is in the cache afterwards,
    under the key of the call. *)
Lemma transferStyle_stores w eng contentImage styleImages config result :
  snd (transferStyle stringify w eng contentImage styleImages config)
  = Some result ->
  AMap.get
    (generateCacheKey stringify contentImage styleImages
       (fullConfig styleImages config))
    (fusionCache
       (fst (transferStyle stringify w eng contentImage styleImages config)))
  = Some result.
Proof.
  unfold transferStyle. cbv zeta.
  destruct (AMap.get _ (fusionCache eng)) as [cached|] eqn:M.
  - simpl. intro H. injection H as <-. exact M.
  - destruct (analyzeContentStructure (contentReply w)) as [ca|];
      [|discriminate].
    destruct (generateFusionMap ca _ _) as [fm|]; [|discriminate].
    simpl. intro H. injection H as <-. apply get_set_same.
Qed.

(** X23.  What [transferStyle] computes when the cache holds nothing for the
    call and it does not reject: the fused image is the content image
    itself, the quality is the assessed one, the adaptation history is
    empty, the style profile is the composite of the extracted profiles,
    and the fusion map is the one [generateFusionMap] builds from the
    content analysis and the extracted profiles under the completed
    configuration. *)
Theorem transferStyle_result :
  forall w eng contentImage styleImages config result,
    AMap.get
      (generateCacheKey stringify contentImage styleImages
         (fullConfig styleImages config))
      (fusionCache eng) = None ->
    snd (transferStyle stringify w eng contentImage styleImages config)
    = Some result ->
    fusedImage result = contentImage /\
    fr_quality result = assessFusionQuality (qualityReply w) /\
    fm_adaptationHistory (fr_metadata result) = [] /\
    styleProfile result
    = createCompositeProfile
        (extractStyleProfiles (styleReplies w) styleImages) /\
    (exists contentAnalysis,
        analyzeContentStructure (contentReply w) = Some contentAnalysis /\
        generateFusionMap contentAnalysis
          (extractStyleProfiles (styleReplies w) styleImages)
          (fullConfig styleImages config)
        = Some (fusionMap result)).
Proof.
  intros w eng contentImage styleImages config result M.
  unfold transferStyle. cbv zeta. rewrite M.
  destruct (analyzeContentStructure (contentReply w)) as [ca|];
    [|discriminate].
  destruct (generateFusionMap ca _ _) as [fm|] eqn:G; [|discriminate].
  cbn [snd]. intro H. injection H as <-.
  cbn [fusedImage fr_quality fr_metadata fm_adaptationHistory styleProfile
       fusionMap].
  destruct (refineFusion_lists_gaps (performAdaptiveTransfer contentImage)
              (assessFusionQuality (qualityReply w))) as (R1 & R2 & R3 & _).
  cbv zeta in *. rewrite R1, R2, R3.
  split; [reflexivity|]. split; [reflexivity|]. split; [reflexivity|].
  split; [reflexivity|].
  exists ca. split; [reflexivity | exact G].
Qed.

(** X24.  The cache key of [transferStyle] reads the first 50 characters of the
    content image and of the joined style images only.  So, when the first
    style image has at least 50 characters, a later call whose content
    image shares its first 50 characters, whose first style image is the
    same and whose configuration is the same returns the earlier result
    from the cache, whatever the further style images and the rest of the
    content image are. *)
Theorem transferStyle_cache_ignores_later_styles :
  forall w1 w2 eng content1 content2 style rest1 rest2 config result,
    (50 <= String.length style)%nat ->
    String.substring 0 50 content1 = String.substring 0 50 content2 ->
    fullConfig (style :: rest1) config = fullConfig (style :: rest2) config ->
    snd (transferStyle stringify w1 eng content1 (style :: rest1) config)
    = Some result ->
    transferStyle stringify w2
      (fst (transferStyle stringify w1 eng content1 (style :: rest1) config))
      content2 (style :: rest2) config
    = (fst (transferStyle stringify w1 eng content1 (style :: rest1) config),
       Some result).
Proof.
  intros w1 w2 eng content1 content2 style rest1 rest2 config result
    L C F H.
  pose proof (transferStyle_stores _ _ _ _ _ _ H) as S.
  assert (K : generateCacheKey stringify content2 (style :: rest2)
                (fullConfig (style :: rest2) config)
              = generateCacheKey stringify content1 (style :: rest1)
                  (fullConfig (style :: rest1) config)).
  { unfold generateCacheKey. cbv zeta.
    rewrite !joined_prefix by exact L. rewrite C, F. reflexivity. }
  unfold transferStyle at 1. cbv zeta. rewrite K, S. reflexivity.
Qed.

End TransferStyleCache.

Section TransferStyleCacheWitnesses.
Import StyleTransfer StyleTransferMore.

Lemma transferStyle_result_witness :
  exists result,
    snd (transferStyle constantStringify oneRegionWorld new
           "content" ["style"] noConfig) = Some result /\
    fusedImage result = "content".
Proof.
  eexists. split; [reflexivity|].
  apply (transferStyle_result constantStringify oneRegionWorld new
           "content" ["style"] noConfig); reflexivity.
Defined.

Lemma transferStyle_cache_ignores_later_styles_witness :
  exists result,
    snd (transferStyle constantStringify silentWorld
           (fst (transferStyle constantStringify oneRegionWorld new
                   imageA [imageA; "second style"] noConfig))
           imageB [imageA; imageB] noConfig) = Some result /\
    fusedImage result = imageA.
Proof.
  destruct (snd (transferStyle constantStringify oneRegionWorld new
                   imageA [imageA; "second style"] noConfig))
    as [r|] eqn:E; [|vm_compute in E; discriminate].
  exists r. split.
  - rewrite (transferStyle_cache_ignores_later_styles constantStringify
               oneRegionWorld silentWorld new imageA imageB imageA
               ["second style"] [imageB] noConfig r).
    + reflexivity.
    + simpl. lia.
    + reflexivity.
    + reflexivity.
    + exact E.
  - vm_compute in E. injection E as <-. reflexivity.
Defined.

End TransferStyleCacheWitnesses.

(** ** Ensemble fusion and the engine's own refinement *)

Section AmssFacts.
Import AMSS.

Lemma byQuality_le a b : byQuality a b = true <-> qualityScore b <= qualityScore a.
Proof. unfold byQuality. rewrite Qle_bool_iff. split; intro H; lra. Qed.

Lemma byQuality_total a b : byQuality a b = false -> byQuality b a = true.
Proof.
  intro H. apply byQuality_le.
  destruct (Qlt_le_dec (qualityScore a) (qualityScore b)) as [L|L]; [lra|].
  apply byQuality_le in L. congruence.
Qed.

Lemma byQuality_trans a b c :
  byQuality a b = true -> byQuality b c = true -> byQuality a c = true.
Proof. rewrite !byQuality_le. lra. Qed.

Lemma filter_head {A : Type} (f : A -> bool) (l : list A) (x : A) (r : list A) :
  filter f l = x :: r ->
  exists before after,
    l = before ++ x :: after /\ forall y, In y before -> f y = false.
Proof.
  induction l as [|a l IH]; simpl; [discriminate|].
  destruct (f a) eqn:E; intro H.
  - injection H as -> _. exists [], l. split; [reflexivity | intros y []].
  - destruct (IH H) as (before & after & -> & B).
    exists (a :: before), after. split; [reflexivity|].
    intros y [<-|Hy]; auto.
Qed.

Lemma uniqueFrom_spec seen l :
  NoDup (uniqueFrom seen l) /\
  forall m, In m (uniqueFrom seen l) <-> In m l /\ ~ In m seen.
Proof.
  revert seen. induction l as [|s l IH]; intro seen; simpl.
  - split; [constructor | tauto].
  - destruct (existsb (String.eqb s) seen) eqn:E.
    + apply existsb_exists in E. destruct E as (x & Hx & E).
      apply String.eqb_eq in E. subst x.
      destruct (IH seen) as [N M]. split; [exact N|].
      intro m. rewrite M. split; [tauto|].
      intros [[<-|H] K]; [contradiction | tauto].
    + assert (Ns : ~ In s seen).
      { intro H. apply Bool.not_true_iff_false in E. apply E.
        apply existsb_exists. exists s. split; [exact H|].
        apply String.eqb_refl. }
      destruct (IH (s :: seen)) as [N M]. split.
      * constructor; [|exact N]. rewrite M. simpl. tauto.
      * intro m. simpl. rewrite M. simpl.
        destruct (string_dec s m) as [<-|D]; tauto.
Qed.

(** X25.  [adaptiveFusion] builds its result on the candidate of highest quality
    score, the first of them in the order of generation when several share
    that score: it takes over this candidate's image and scores.  The
    models it reports are those of all candidates, each once. *)
Theorem adaptiveFusion_takes_best :
  forall ensembleResults fused,
    adaptiveFusion ensembleResults = Returns fused ->
    (exists before best after,
        ensembleResults = before ++ best :: after /\
        (forall c, In c before -> qualityScore c < qualityScore best) /\
        (forall c, In c after -> qualityScore c <= qualityScore best) /\
        imageData fused = imageData best /\
        qualityScore fused = qualityScore best /\
        semanticCoherence fused = semanticCoherence best /\
        aestheticScore fused = aestheticScore best) /\
    NoDup (modelsUsed (metadata fused)) /\
    (forall m, In m (modelsUsed (metadata fused)) <->
       exists c, In c ensembleResults /\ In m (modelsUsed (metadata c))).
Proof.
  intros ensembleResults fused. unfold adaptiveFusion.
  pose proof (sort_perm byQuality ensembleResults) as P.
  pose proof (sort_sorted byQuality byQuality_total byQuality_trans
                ensembleResults) as S.
  destruct (JSArray.sort byQuality ensembleResults) as [|best others] eqn:E;
    [discriminate|].
  intro H. injection H as <-. simpl.
  inversion S as [|? ? _ F]; subst.
  assert (Max : forall c, In c ensembleResults ->
                          qualityScore c <= qualityScore best).
  { intros c Hc. apply (Permutation_in _ (Permutation_sym P)) in Hc.
    destruct Hc as [<-|Hc]; [lra|].
    rewrite Forall_forall in F. apply byQuality_le. now apply F. }
  split; [|split].
  - set (tied := fun c => Qeq_bool (qualityScore c) (qualityScore best)).
    assert (St : filter tied (JSArray.sort byQuality ensembleResults)
                 = filter tied ensembleResults).
    { apply sort_stable. intros a b Ha Hb. unfold tied in *.
      apply Qeq_bool_iff in Ha. apply Qeq_bool_iff in Hb.
      apply byQuality_le. lra. }
    rewrite E in St. simpl in St.
    assert (Tb : tied best = true) by (apply Qeq_bool_iff; reflexivity).
    rewrite Tb in St. symmetry in St.
    destruct (filter_head _ _ _ _ St) as (before & after & Eq & B).
    exists before, best, after. split; [exact Eq|].
    split; [|split].
    + intros c Hc.
      assert (L : qualityScore c <= qualityScore best)
        by (apply Max; rewrite Eq; apply in_or_app; now left).
      specialize (B c Hc). unfold tied in B.
      apply Qeq_bool_neq in B. apply Qle_lteq in L. tauto.
    + intros c Hc. apply Max. rewrite Eq. apply in_or_app. right. now right.
    + repeat split.
  - apply uniqueFrom_spec.
  - intro m. rewrite (proj2 (uniqueFrom_spec [] _)).
    change (modelsUsed (metadata best)
            ++ flat_map (fun r => modelsUsed (metadata r)) others)
      with (flat_map (fun r => modelsUsed (metadata r)) (best :: others)).
    rewrite in_flat_map. split.
    + intros [(c & Hc & Hm) _]. exists c. split; [|exact Hm].
      now apply (Permutation_in _ P).
    + intros (c & Hc & Hm). split; [|intros []]. exists c. split; [|exact Hm].
      now apply (Permutation_in _ (Permutation_sym P)).
Qed.

Lemma adaptiveFusion_takes_best_witness :
  match adaptiveFusion (generateEnsemble secondModelFails defaultConfig) with
  | Returns fused => NoDup (modelsUsed (metadata fused))
  | Throws _ => False
  end.
Proof.
  destruct (adaptiveFusion (generateEnsemble secondModelFails defaultConfig))
    as [fused|msg] eqn:E.
  - apply (adaptiveFusion_takes_best
             (generateEnsemble secondModelFails defaultConfig) fused E).
  - vm_compute in E. discriminate.
Defined.

End AmssFacts.

Section AmssRefinementFacts.
Import AMSS.

Lemma min_one_le x : JS.min 1.0 x <= 1.
Proof.
  unfold JS.min. destruct (JS.ltb x 1.0) eqn:E; [|lra].
  apply ltb_lt in E. lra.
Qed.

Lemma min_one_ge x y : y <= x -> y <= 1 -> y <= JS.min 1.0 x.
Proof. intros H1 H2. unfold JS.min. destruct (JS.ltb x 1.0); lra. Qed.

Lemma refinementLoop_step w cfg todo i current history :
  refinementLoop w cfg (S todo) i current history
  = if JS.geb (qualityScore (refineImage current (refineRandom w i)))
         (qualityThreshold cfg)
    then (refineImage current (refineRandom w i),
          history ++ [{| h_iteration := i;
                         h_quality :=
                           qualityScore (refineImage current (refineRandom w i));
                         h_improvements :=
                           calculateImprovements current
                             (refineImage current (refineRandom w i)) |}])
    else refinementLoop w cfg todo (S i)
           (refineImage current (refineRandom w i))
           (history ++ [{| h_iteration := i;
                           h_quality :=
                             qualityScore (refineImage current (refineRandom w i));
                           h_improvements :=
                             calculateImprovements current
                               (refineImage current (refineRandom w i)) |}]).
Proof. reflexivity. Qed.

Lemma refinementLoop_spec w cfg todo :
  (forall i, 0 <= refineRandom w i) ->
  forall i current history,
    qualityScore current <= 1 ->
    qualityScore current
    <= qualityScore (fst (refinementLoop w cfg todo i current history)) /\
    qualityScore (fst (refinementLoop w cfg todo i current history)) <= 1 /\
    imageData (fst (refinementLoop w cfg todo i current history))
    = imageData current /\
    modelsUsed (metadata (fst (refinementLoop w cfg todo i current history)))
    = modelsUsed (metadata current) /\
    exists added,
      snd (refinementLoop w cfg todo i current history) = history ++ added /\
      (List.length added <= todo)%nat /\
      iteration (fst (refinementLoop w cfg todo i current history))
      = (iteration current + List.length added)%nat /\
      (qualityThreshold cfg
       <= qualityScore (fst (refinementLoop w cfg todo i current history)) \/
       List.length added = todo).
Proof.
  intro R. induction todo as [|todo IH]; intros i current history Q.
  - simpl. split; [lra|]. split; [exact Q|]. split; [reflexivity|].
    split; [reflexivity|]. exists []. rewrite app_nil_r.
    split; [reflexivity|]. split; [simpl; lia|]. split; [simpl; lia|].
    now right.
  - rewrite refinementLoop_step.
    set (refined := refineImage current (refineRandom w i)).
    assert (Up : qualityScore current <= qualityScore refined).
    { unfold refined, refineImage. simpl.
      apply min_one_ge; [|exact Q]. pose proof (R i). lra. }
    assert (Le : qualityScore refined <= 1)
      by (unfold refined, refineImage; simpl; apply min_one_le).
    destruct (JS.geb (qualityScore refined) (qualityThreshold cfg)) eqn:E.
    + cbn [fst snd]. split; [exact Up|]. split; [exact Le|].
      split; [reflexivity|]. split; [reflexivity|].
      eexists. split; [reflexivity|]. split; [simpl; lia|].
      split; [unfold refined; simpl; lia|]. left. now apply geb_ge.
    + match goal with
      | |- context [refinementLoop w cfg todo (S i) refined ?h] =>
          destruct (IH (S i) refined h Le)
            as (I1 & I2 & I3 & I4 & added & A1 & A2 & A3 & A4)
      end.
      split; [lra|]. split; [exact I2|]. split; [exact I3|].
      split; [exact I4|].
      eexists. split; [rewrite A1, <- app_assoc; reflexivity|].
      split; [simpl; lia|].
      split; [rewrite A3; unfold refined; simpl; lia|].
      destruct A4 as [A4|A4]; [now left | right; simpl; lia].
Qed.

(** X26.  The engine's own refinement, with random numbers that are not negative
    and a quality score of at most 1 to start from: the quality score does
    not decrease and stays at most 1, the image and the models are kept,
    at most [refinementSteps] steps are recorded, each raising the
    iteration count by one, and the loop stops short of [refinementSteps]
    only with the quality threshold reached. *)
Theorem iterativeRefinement_improves :
  forall w result cfg,
    (forall i, 0 <= refineRandom w i) ->
    qualityScore result <= 1 ->
    let refined := iterativeRefinement w result cfg in
    let history := refinementHistory (metadata refined) in
    qualityScore result <= qualityScore refined /\
    qualityScore refined <= 1 /\
    imageData refined = imageData result /\
    modelsUsed (metadata refined) = modelsUsed (metadata result) /\
    (List.length history <= refinementSteps cfg)%nat /\
    iteration refined = (iteration result + List.length history)%nat /\
    (qualityThreshold cfg <= qualityScore refined \/
     List.length history = refinementSteps cfg).
Proof.
  intros w result cfg R Q refined history.
  destruct (refinementLoop_spec w cfg (refinementSteps cfg) R 0%nat result [] Q)
    as (I1 & I2 & I3 & I4 & added & A1 & A2 & A3 & A4).
  unfold history, refined, iterativeRefinement.
  destruct (refinementLoop w cfg (refinementSteps cfg) 0 result [])
    as [current hist].
  cbn [fst snd] in *. simpl in A1. subst hist. simpl.
  repeat split; auto.
Qed.

Lemma iterativeRefinement_improves_witness :
  qualityScore
    (iterativeRefinement secondModelFails
       {| imageData := simulateImageGeneration;
          qualityScore := 0.7;
          semanticCoherence := 0.8;
          aestheticScore := 0.75;
          iteration := 0;
          metadata := {| modelsUsed := []; techniquesApplied := [];
                         processingTime := 0; refinementHistory := [] |} |}
       defaultConfig)
  <= 1.
Proof.
  apply (iterativeRefinement_improves secondModelFails
           {| imageData := simulateImageGeneration;
              qualityScore := 0.7;
              semanticCoherence := 0.8;
              aestheticScore := 0.75;
              iteration := 0;
              metadata := {| modelsUsed := []; techniquesApplied := [];
                             processingTime := 0; refinementHistory := [] |} |}
           defaultConfig).
  - intro i. simpl. discriminate.
  - simpl. discriminate.
Defined.

End AmssRefinementFacts.

(** ** [SemanticAnalyzer]: the analysis cache *)

Section SemanticCacheFacts.
Import Semantic.

Variables Concepts Graph StyleSignature Emotional Cultural : Type.

Let Analyzer : Type :=
  SemanticAnalyzer Concepts Graph StyleSignature Emotional Cultural.
Let AnalysisPhases : Type :=
  Phases Concepts Graph StyleSignature Emotional Cultural.

Lemma size_set_fresh {V : Type} (k : string) (v : V) (m : AMap.t V) :
  AMap.get k m = None -> AMap.size (AMap.set k v m) = S (AMap.size m).
Proof.
  unfold AMap.size. induction m as [|[k' v'] m IH]; simpl; intro H.
  - reflexivity.
  - destruct (String.eqb k' k); [discriminate|]. simpl. now rewrite IH.
Qed.

(** X27.  [analyzeImage] never drops or replaces a cached analysis: every entry
    of the cache is still there, with the same value, after the call; the
    cache grows by one entry on a miss and not at all on a hit. *)
Theorem analyzeImage_only_adds_to_cache :
  forall (ph : AnalysisPhases) (a : Analyzer) imageData options,
    let after := fst (analyzeImage ph a imageData options) in
    (forall k v, AMap.get k (analysisCache a) = Some v ->
                 AMap.get k (analysisCache after) = Some v) /\
    AMap.size (analysisCache after)
    = if AMap.has (generateCacheKey imageData options) (analysisCache a)
      then AMap.size (analysisCache a)
      else S (AMap.size (analysisCache a)).
Proof.
  intros ph a imageData options. unfold analyzeImage, AMap.has. cbv zeta.
  destruct (AMap.get (generateCacheKey imageData options) (analysisCache a))
    as [cached|] eqn:E; simpl.
  - split; [auto|reflexivity].
  - split.
    + intros k v H. rewrite get_set_other; [exact H|].
      intros <-. rewrite E in H. discriminate.
    + now apply size_set_fresh.
Qed.

(** After [clearCache] an analysis is computed anew from the backend's
    current answers, also for an image analyzed before, and the cache
    holds that one analysis. *)
Lemma analyzeImage_after_clearCache :
  forall (ph1 ph2 : AnalysisPhases) (a : Analyzer) imageData options,
    let cleared := clearCache (fst (analyzeImage ph1 a imageData options)) in
    let again := analyzeImage ph2 cleared imageData options in
    concepts (snd again) = extractConcepts ph2 imageData (get_depth options) /\
    graph (snd again) = buildSemanticGraph ph2 (concepts (snd again)) /\
    analysisCache (fst again)
    = [(generateCacheKey imageData options, snd again)].
Proof.
  intros. unfold again, cleared, clearCache, analyzeImage. simpl. auto.
Qed.

End SemanticCacheFacts.

(** ** [SemanticAnalyzer]: the semantic graph *)

Section SemanticGraphFacts.
Import SemanticGraphs.

Context {Attributes : Type}.
Variable noAttributes : Attributes.

Let Concept : Type := @SemanticConcept Attributes.

Lemma processFrom_ids i (rawConcepts : list (@RawConcept Attributes)) :
  List.map id (processFrom noAttributes i rawConcepts)
  = List.map (fun j => ("concept_" ++ StyleTransferMore.decimal j)%string)
      (seq i (List.length rawConcepts)).
Proof.
  revert i. induction rawConcepts as [|raw rest IH]; intro i; simpl.
  - reflexivity.
  - now rewrite IH.
Qed.

Lemma processFrom_relationships i (rawConcepts : list (@RawConcept Attributes)) :
  List.length
    (flat_map (fun c : Concept => relationships c)
       (processFrom noAttributes i rawConcepts))
  = reported rawConcepts.
Proof.
  revert i. induction rawConcepts as [|raw rest IH]; intro i; simpl.
  - reflexivity.
  - rewrite length_app, IH. unfold processRelationships.
    rewrite length_map. now destruct (raw_relationships raw).
Qed.

Lemma processFrom_strengths i (rawConcepts : list (@RawConcept Attributes)) :
  forall c r, In c (processFrom noAttributes i rawConcepts) ->
              In r (relationships c) -> ~ strength r == 0.
Proof.
  revert i. induction rawConcepts as [|raw rest IH]; intros i c r Hc Hr.
  - destruct Hc.
  - destruct Hc as [<-|Hc]; [|exact (IH _ _ _ Hc Hr)].
    simpl in Hr. unfold processRelationships in Hr.
    apply in_map_iff in Hr. destruct Hr as (rr & <- & _). simpl.
    apply or_default_nonzero.
Qed.

Lemma edges_of (concepts : list Concept) e :
  In e (edges (buildSemanticGraph concepts)) ->
  exists c, In c concepts /\ In (relationship e) (relationships c) /\
            source e = id c /\ weight e = strength (relationship e) /\
            edge_target e = target (relationship e).
Proof.
  unfold buildSemanticGraph. simpl. intro H.
  apply in_flat_map in H. destruct H as (c & Hc & H).
  apply in_map_iff in H. destruct H as (rel & <- & Hrel).
  exists c. simpl. auto.
Qed.

Lemma edges_length (concepts : list Concept) :
  List.length (edges (buildSemanticGraph concepts))
  = List.length (flat_map (fun c : Concept => relationships c) concepts).
Proof.
  unfold buildSemanticGraph. simpl.
  induction concepts as [|c rest IH]; simpl; [reflexivity|].
  now rewrite !length_app, length_map, IH.
Qed.

(** X28.  The graph built from the concepts the backend reported has one node
    per raw concept, under pairwise distinct ids; one edge per reported
    relationship; every edge starts at a node of the graph and has a
    weight that is not zero.  (The target of an edge is whatever the
    backend named and need not be a node.) *)
Theorem graph_of_processed_concepts :
  forall rawConcepts : list (@RawConcept Attributes),
    let g := buildSemanticGraph (processConcepts noAttributes rawConcepts) in
    List.length (nodes g) = List.length rawConcepts /\
    totalConcepts (metadata g) = List.length rawConcepts /\
    NoDup (List.map node_id (nodes g)) /\
    List.length (edges g) = reported rawConcepts /\
    (forall e, In e (edges g) ->
               In (source e) (List.map node_id (nodes g)) /\
               ~ weight e == 0).
Proof.
  intros rawConcepts g.
  assert (Ids : List.map node_id (nodes g)
                = List.map id (processConcepts noAttributes rawConcepts)).
  { unfold g, buildSemanticGraph. simpl. rewrite map_map. reflexivity. }
  assert (Len : List.length (processConcepts noAttributes rawConcepts)
                = List.length rawConcepts).
  { rewrite <- (length_map id). unfold processConcepts.
    rewrite processFrom_ids, length_map, length_seq. reflexivity. }
  split; [|split; [|split; [|split]]].
  - rewrite <- (length_map node_id), Ids, length_map. exact Len.
  - unfold g, buildSemanticGraph. simpl. exact Len.
  - rewrite Ids. unfold processConcepts. rewrite processFrom_ids.
    apply NoDup_map_injective; [|apply seq_NoDup].
    intros x y H. injection H as H. now apply decimal_injective.
  - unfold g. rewrite edges_length. apply processFrom_relationships.
  - intros e He. apply edges_of in He.
    destruct He as (c & Hc & Hr & Hs & Hw & _). split.
    + rewrite Ids, Hs. now apply in_map.
    + rewrite Hw. exact (processFrom_strengths _ _ _ _ Hc Hr).
Qed.

End SemanticGraphFacts.

Section ComplexityFacts.
Import SemanticGraphs.

Lemma fold_weights (es : list SemanticEdge) (a : Q) :
  fold_left (fun sum e => sum + weight e) es a
  == a + qsum (List.map weight es).
Proof.
  revert a. induction es as [|e es IH]; intro a; simpl.
  - ring.
  - rewrite IH. ring.
Qed.

Lemma num_ge_2 (n : nat) : 2 <= num (S (S n)).
Proof.
  unfold num. change 2 with (inject_Z 2). rewrite <- Zle_Qle. lia.
Qed.

(** X29.  [calculateComplexity] by the number [n] of edges: 0 for no edge; not a
    finite number for exactly one edge (the density divides by zero); and
    for two or more edges [1 / (n - 1)] plus half the mean weight, so that
    the density part depends on nothing but [n] and falls as edges are
    added. *)
Theorem calculateComplexity_by_edge_count :
  forall es : list SemanticEdge,
    match List.length es with
    | O => calculateComplexity es = Some 0
    | S O => calculateComplexity es = None
    | S (S _) =>
        exists c,
          calculateComplexity es = Some c /\
          c == 1 / (num (List.length es) - 1)
               + qsum (List.map weight es) / num (List.length es) / 2
    end.
Proof.
  intros [|e1 [|e2 rest]]; [reflexivity|reflexivity|].
  cbn [List.length].
  pose proof (num_ge_2 (List.length rest)) as N.
  pose proof (fold_weights (e1 :: e2 :: rest) 0) as W.
  unfold calculateComplexity. cbn [List.length].
  set (n := num (S (S (List.length rest)))) in *.
  set (s := qsum (List.map weight (e1 :: e2 :: rest))) in *.
  set (f := fold_left _ _ 0) in *.
  eexists. split; [reflexivity|].
  rewrite W. field. split; lra.
Qed.

(** Two edges of weight 1 give the complexity 3/2. *)
Example complexity_of_twoEdges :
  exists c, calculateComplexity twoEdges = Some c /\ c == 3 # 2.
Proof. eexists. split; [reflexivity|reflexivity]. Qed.

End ComplexityFacts.

Section DominantThemeFacts.
Import SemanticGraphs.

Context {Attributes : Type}.

Let Concept : Type := @SemanticConcept Attributes.

Lemma in_get {V : Type} (m : AMap.t V) (k : string) (v : V) :
  NoDup (AMap.keys m) -> (In (k, v) m <-> AMap.get k m = Some v).
Proof.
  unfold AMap.keys. induction m as [|[k' v'] m IH]; simpl; intro N.
  - split; [intros []|discriminate].
  - inversion N as [|? ? Nk Nm]; subst.
    destruct (String.eqb k' k) eqn:E.
    + apply String.eqb_eq in E. subst k'. split.
      * intros [H|H]; [now injection H as ->|].
        elim Nk. change k with (fst (k, v)). now apply in_map.
      * intro H. injection H as ->. now left.
    + rewrite <- (IH Nm). split; [|auto].
      intros [H|H]; [|exact H].
      injection H as -> ->. rewrite String.eqb_refl in E. discriminate.
Qed.

Lemma occurrences_snoc (k : string) (done : list Concept) (c : Concept) :
  occurrences k (done ++ [c])
  = (occurrences k done + if String.eqb (category c) k then 1 else 0)%nat.
Proof.
  unfold occurrences. rewrite filter_app, length_app. simpl.
  now destruct (String.eqb (category c) k).
Qed.

(** The counting loop of [findDominantTheme]: the map holds, for [done]
    and then for all concepts, the number of occurrences of every category
    that occurs, and nothing else. *)
Lemma themeCounts_fold (concepts done : list Concept) (m : AMap.t nat) :
  NoDup (AMap.keys m) ->
  (forall k, AMap.get k m
             = if (occurrences k done =? 0)%nat then None
               else Some (occurrences k done)) ->
  let m' :=
    fold_left
      (fun counts c =>
         let theme := category c in
         AMap.set theme
           (match AMap.get theme counts with
            | Some n => n
            | None => 0
            end + 1)%nat
           counts)
      concepts m in
  NoDup (AMap.keys m') /\
  (forall k, AMap.get k m'
             = if (occurrences k (done ++ concepts) =? 0)%nat then None
               else Some (occurrences k (done ++ concepts))).
Proof.
  revert done m. induction concepts as [|c rest IH]; intros done m N G.
  - simpl. rewrite app_nil_r. auto.
  - cbn [fold_left]. cbv zeta.
    replace (done ++ c :: rest) with ((done ++ [c]) ++ rest)
      by (rewrite <- app_assoc; reflexivity).
    apply IH; [now apply keys_set_NoDup|].
    intro k. rewrite occurrences_snoc.
    destruct (String.eqb (category c) k) eqn:E.
    + apply String.eqb_eq in E. subst k. rewrite get_set_same, G.
      destruct (occurrences (category c) done) as [|n]; simpl.
      * reflexivity.
      * replace (n + 1)%nat with (S n) by lia. simpl. reflexivity.
    + rewrite get_set_other, G, Nat.add_0_r; [reflexivity|].
      intro H. rewrite H, String.eqb_refl in E. discriminate.
Qed.

Lemma themeCounts_entries (concepts : list Concept) (k : string) (n : nat) :
  In (k, n) (themeCounts concepts)
  <-> n = occurrences k concepts /\ (1 <= n)%nat.
Proof.
  destruct (themeCounts_fold concepts [] AMap.empty) as (N & G).
  - constructor.
  - intro k'. reflexivity.
  - simpl in G. fold (themeCounts concepts) in N, G.
    rewrite (in_get _ _ _ N), G.
    destruct (occurrences k concepts) as [|o]; simpl.
    + split; [discriminate|lia].
    + split; [intro H; injection H as <-; lia|intros [-> _]; reflexivity].
Qed.

(** The selection loop of [findDominantTheme]. *)
Lemma fold_dominant (entries : list (string * nat)) (acc : nat * string) :
  let r :=
    fold_left
      (fun (acc : nat * string) entry =>
         if (fst acc <? snd entry)%nat then (snd entry, fst entry) else acc)
      entries acc in
  (fst acc <= fst r)%nat /\
  (forall e, In e entries -> (snd e <= fst r)%nat) /\
  (r = acc \/ In (snd r, fst r) entries).
Proof.
  revert acc. induction entries as [|e entries IH]; intro acc; simpl.
  - split; [lia|]. split; [intros e []|now left].
  - destruct (fst acc <? snd e)%nat eqn:E.
    + apply Nat.ltb_lt in E.
      destruct (IH (snd e, fst e)) as (A & B & C). simpl in A.
      split; [lia|]. split.
      * intros e' [<-|H]; [exact A|now apply B].
      * right. destruct C as [C|C]; [|now right].
        left. rewrite C. simpl. now destruct e.
    + apply Nat.ltb_ge in E.
      destruct (IH acc) as (A & B & C).
      split; [exact A|]. split.
      * intros e' [<-|H]; [lia|now apply B].
      * destruct C as [C|C]; [now left|right; now right].
Qed.

Lemma occurrences_positive (concepts : list Concept) (k : string) :
  (1 <= occurrences k concepts)%nat <->
  exists c, In c concepts /\ category c = k.
Proof.
  unfold occurrences. induction concepts as [|x l IH]; simpl.
  - split; [lia|intros (c & [] & _)].
  - destruct (String.eqb (category x) k) eqn:E; simpl.
    + split; [|lia]. intros _. exists x. split; [now left|].
      now apply String.eqb_eq.
    + rewrite IH. split.
      * intros (c & I & C). exists c. auto.
      * intros (c & [<-|I] & C).
        -- rewrite C, String.eqb_refl in E. discriminate.
        -- exists c. auto.
Qed.

Lemma findDominantTheme_of_some (concepts : list Concept) (c0 : Concept) :
  In c0 concepts ->
  (exists c, In c concepts /\ category c = findDominantTheme concepts) /\
  (forall k, (occurrences k concepts
              <= occurrences (findDominantTheme concepts) concepts)%nat).
Proof.
  intro I0. unfold findDominantTheme.
  destruct (fold_dominant (themeCounts concepts) (0%nat, "general"))
    as (_ & B & C).
  set (r := fold_left _ (themeCounts concepts) (0%nat, "general")) in *.
  assert (P0 : (1 <= occurrences (category c0) concepts)%nat).
  { apply occurrences_positive. exists c0. auto. }
  assert (E0 : In (category c0, occurrences (category c0) concepts)
                 (themeCounts concepts))
    by (apply themeCounts_entries; auto).
  apply B in E0. simpl in E0.
  destruct C as [C|C]; [rewrite C in E0; simpl in E0; lia|].
  apply themeCounts_entries in C. destruct C as (C1 & C2).
  split.
  - apply occurrences_positive. now rewrite <- C1.
  - intro k. rewrite <- C1.
    destruct (occurrences k concepts) as [|o] eqn:O; [lia|].
    assert (E : In (k, S o) (themeCounts concepts))
      by (apply themeCounts_entries; split; [now rewrite O|lia]).
    apply B in E. exact E.
Qed.

(** X30.  [findDominantTheme] answers ['general'] for no concepts; otherwise it
    answers the category of one of the concepts, and no category occurs
    among the concepts more often than that one. *)
Theorem findDominantTheme_most_frequent :
  forall concepts : list Concept,
    let theme := findDominantTheme concepts in
    match concepts with
    | [] => theme = "general"
    | _ :: _ =>
        (exists c, In c concepts /\ category c = theme) /\
        (forall k, (occurrences k concepts <= occurrences theme concepts)%nat)
    end.
Proof.
  intros [|c0 rest]; [reflexivity|].
  apply (findDominantTheme_of_some (c0 :: rest) c0). now left.
Qed.

(** Of one [object] and two [style] concepts the dominant theme is
    [style]. *)
Example dominant_theme_of_threeConcepts :
  findDominantTheme threeConcepts = "style".
Proof. reflexivity. Qed.

End DominantThemeFacts.
